(** * The playout buffer of src/rtp/pbuf.cpp

    A shallow embedding of the RTP playout (jitter) buffer: the frame list,
    the per-frame packet list, the loss statistics kept in a bitmap of
    received sequence numbers, and the two scheduler passes.

    Conventions of the embedding.
    - C integers are [Z] with their width written out: the casts to an
      unsigned type ([u16], [u32], [u64]) and to a signed one ([i16], [i32],
      [i64]) reduce modulo a power of two. The conversion of an unsigned
      value to [int] does so on every compiler the code is built with (and
      by the standard since C++20). An overflowing signed sum or product
      is undefined in C++; the embedding gives it the two's-complement
      value the machine computes, and every theorem that needs a counter
      or a time to be the mathematical sum says in a hypothesis that the
      sum is in range, so it does not rest on that choice. One sum is
      left as the mathematical one, the [playout_time + 1s] that
      pbuf_decode compares the clock with (see [decode_from]).
    - A [time_point] of [std::chrono::high_resolution_clock] is its tick
      count, a 64-bit number of nanoseconds.
    - The doubly linked lists ([pbuf_node] through [nxt]/[prv] from [frst]
      to [last], [coded_data] through [nxt]/[prv] from [cdata]) are Rocq
      lists from the head; [frst == NULL && last == NULL] is the empty list.
    - [malloc] and [new] are taken to succeed.
    - A result [None] stands for a call that does not return normally: a
      failed [assert], or a loop that never meets its exit test. *)

From Stdlib Require Import ZArith Lia Bool Sorted.
From Stdlib Require Import Floats.PrimFloat Floats.FloatOps Floats.SpecFloat.
From stdpp Require Import base option list numbers.

Local Open Scope Z_scope.

(** ** Fixed-width arithmetic *)

Definition u16 (x : Z) : Z := x mod 65536.
Definition i16 (x : Z) : Z := (x + 32768) mod 65536 - 32768.
Definition u32 (x : Z) : Z := x mod 4294967296.
Definition u64 (x : Z) : Z := x mod 18446744073709551616.

(** [int] and [long long]. *)
Definition INT_MIN : Z := -2147483648.
Definition INT_MAX : Z := 2147483647.
Definition LLONG_MIN : Z := -9223372036854775808.
Definition LLONG_MAX : Z := 9223372036854775807.

Definition i32 (x : Z) : Z := (x + 2147483648) mod 4294967296 - 2147483648.
Definition i64 (x : Z) : Z :=
  (x + 9223372036854775808) mod 18446744073709551616 - 9223372036854775808.

Definition ULLONG_MAX : Z := 18446744073709551615.

(** [~x] on an [unsigned long long]. *)
Definition not64 (x : Z) : Z := u64 (Z.lnot x).

(** The value of a [double] truncated toward zero; [None] for a NaN or an
    infinity. *)
Definition trunc_double (d : float) : option Z :=
  match Prim2SF d with
  | S754_zero _ => Some 0
  | S754_finite s mant e =>
      let mag := if 0 <=? e then Z.shiftl (Zpos mant) e
                 else Z.shiftr (Zpos mant) (- e) in
      Some (if s then - mag else mag)
  | _ => None
  end.

(** The conversion of a [double] to [long long]: the truncated value when
    it is one of a [long long]. For any other argument, a NaN and the
    infinities among them, C++ leaves the conversion undefined; the
    embedding gives it what the conversion instruction of x86-64
    ([cvttsd2si]) returns, the smallest [long long]. *)
Definition double_to_ll (d : float) : Z :=
  match trunc_double d with
  | Some v => if (LLONG_MIN <=? v) && (v <=? LLONG_MAX) then v else LLONG_MIN
  | None => LLONG_MIN
  end.

(** ** Compiler builtins on a 64-bit word *)

Definition number_of_bits : Z := 64.

(** [__builtin_popcountll]: how many of the bits 0..63 are set. *)
Definition popcountll (w : Z) : Z :=
  fold_right (fun i acc => Z.b2z (Z.testbit w (Z.of_nat i)) + acc) 0 (seq 0 64).

Fixpoint ctz_pos (p : positive) : Z :=
  match p with
  | xO q => 1 + ctz_pos q
  | _ => 0
  end.

(** [__builtin_ctzll], defined for a non-zero argument. *)
Definition ctzll (w : Z) : Z :=
  match w with
  | Zpos p => ctz_pos p
  | _ => 0
  end.

(** [__builtin_clzll], defined for a non-zero argument. *)
Definition clzll (w : Z) : Z := 63 - Z.log2 w.

(** ** compute_longest_gap *)

(** The loop [while (packets != 0) { ...; packets >>= 1; }]. Shifting a
    positive number right by one drops its last binary digit, so the
    loop is a structural recursion on the digits ([gap_loop_unfold]
    below gives it back in the shape of the source). *)
Fixpoint gap_loop_pos (longest_gap : Z) (p : positive) : Z :=
  let longest_gap := Z.max longest_gap (ctzll (Zpos p)) in
  match p with
  | xH => longest_gap
  | xO q | xI q => gap_loop_pos longest_gap q
  end.

Definition gap_loop (longest_gap packets : Z) : Z :=
  match packets with
  | Zpos p => gap_loop_pos longest_gap p
  | _ => longest_gap
  end.

Definition compute_longest_gap (longest_gap packets : Z) : Z :=
  if longest_gap =? number_of_bits then longest_gap
  else if packets =? 0 then number_of_bits
  else if packets =? ULLONG_MAX then longest_gap
  else gap_loop (Z.max longest_gap (clzll packets)) packets.

(** ** Data *)

(** Modelled from the spec: the transport packet [rtp_packet] is declared in
    rtp/rtp.h, which is not part of the sources at hand. The buffer reads
    its media timestamp (32 bits), sequence number (16 bits), marker bit
    and source identifier; the payload travels with it. *)
Module Pkt.
Record rtp_packet := {
  ts : Z;
  seq : Z;
  m : bool;
  ssrc : Z;
  payload : list Z
}.
End Pkt.
Abbreviation rtp_packet := Pkt.rtp_packet.

Definition wf_packet (pkt : rtp_packet) : Prop :=
  0 <= Pkt.ts pkt < 4294967296 /\ 0 <= Pkt.seq pkt < 65536.

(** [struct coded_data], one packet of a frame. The struct is declared in
    rtp/pbuf.h; its fields are read off their uses in pbuf.cpp ([nxt] and
    [prv] are the list itself). *)
Record coded_data := {
  seqno : Z;
  data : rtp_packet
}.

Definition time_point := Z.

(** [std::chrono::microseconds(us)] as the clock's duration: the count
    times 1000, in 64 bits. *)
Definition microseconds (us : Z) : Z := i64 (1000 * us).
Definition one_second : Z := 1000000000.

Definition PBUF_MAGIC : Z := 3405691582.

Record pbuf_node := {
  rtp_timestamp : Z;
  arrival_time : time_point;
  playout_time : time_point;
  cdata : list coded_data;
  decoded : Z;
  mbit : Z;
  magic : Z;
  completed : bool
}.

Record pbuf := {
  frames : list pbuf_node;
  playout_delay_us : Z;
  packets : list Z;
  last_report_seq : Z;
  received_pkts : Z;
  expected_pkts : Z;
  received_pkts_cum : Z;
  expected_pkts_cum : Z;
  last_display_ts : Z;
  longest_gap : Z;
  out_of_order_pkts : bool;
  dups : bool
}.

(** What a call of [pbuf_insert] reads from outside the buffer: the clock,
    and the integer behind [offset_ms] ([None] for a null pointer). *)
Record env := {
  now : time_point;
  offset_ms : option Z
}.

(** The line logged every five seconds of media time (the percentage, a
    [double], is left out). *)
Record loss_report := {
  rep_ssrc : Z;
  rep_received : Z;
  rep_expected : Z;
  rep_lost : Z;
  rep_max_loss : Z;
  rep_reordered : bool;
  rep_dups : bool
}.

Definition STATS_INTERVAL : Z := 128.
Definition number_word_bits : Z := 64.
Definition PACKETS_LEN : nat := 1024.

(** ** pbuf_init *)

(** The [double] nearest to 0.032. *)
Definition initial_delay_s : float := 0x1.0624dd2f1a9fcp-5%float.

Definition pbuf_init : pbuf := {|
  frames := [];
  playout_delay_us :=
    double_to_ll (PrimFloat.mul (PrimFloat.mul initial_delay_s 1000%float) 1000%float);
  packets := replicate PACKETS_LEN 0;
  last_report_seq := -1;
  received_pkts := 0;
  expected_pkts := 0;
  received_pkts_cum := 0;
  expected_pkts_cum := 0;
  last_display_ts := 0;
  longest_gap := 0;
  out_of_order_pkts := false;
  dups := false
|}.

(** ** Loops over a [uint16_t] counter *)

(** [for (uint16_t i = start; i != stop; i += step) s = body(i, s);].
    The counter takes at most 65536 values and its course is periodic, so
    a loop that has not met [stop] after 65536 rounds never will: with
    that much fuel, [None] is a loop without end. *)
Fixpoint for_u16 {S : Type} (fuel : nat) (i stop step : Z)
    (body : Z -> S -> S) (s : S) : option S :=
  if i =? stop then Some s
  else match fuel with
       | O => None
       | Datatypes.S fuel' =>
           for_u16 fuel' (u16 (i + step)) stop step body (body i s)
       end.

Definition U16_ROUNDS : nat := Z.to_nat 65536.

(** ** Statistics (the first part of pbuf_insert) *)

Definition word_at (pk : list Z) (i : Z) : Z := pk !!! Z.to_nat i.

Definition set_word (pk : list Z) (i : Z) (w : Z) : list Z :=
  <[Z.to_nat i := w]> pk.

Definition with_packets (pk : list Z) (b : pbuf) : pbuf :=
  {| frames := frames b; playout_delay_us := playout_delay_us b;
     packets := pk; last_report_seq := last_report_seq b;
     received_pkts := received_pkts b; expected_pkts := expected_pkts b;
     received_pkts_cum := received_pkts_cum b;
     expected_pkts_cum := expected_pkts_cum b;
     last_display_ts := last_display_ts b; longest_gap := longest_gap b;
     out_of_order_pkts := out_of_order_pkts b; dups := dups b |}.

Definition with_last_report_seq (x : Z) (b : pbuf) : pbuf :=
  {| frames := frames b; playout_delay_us := playout_delay_us b;
     packets := packets b; last_report_seq := x;
     received_pkts := received_pkts b; expected_pkts := expected_pkts b;
     received_pkts_cum := received_pkts_cum b;
     expected_pkts_cum := expected_pkts_cum b;
     last_display_ts := last_display_ts b; longest_gap := longest_gap b;
     out_of_order_pkts := out_of_order_pkts b; dups := dups b |}.

Definition with_frames (fs : list pbuf_node) (b : pbuf) : pbuf :=
  {| frames := fs; playout_delay_us := playout_delay_us b;
     packets := packets b; last_report_seq := last_report_seq b;
     received_pkts := received_pkts b; expected_pkts := expected_pkts b;
     received_pkts_cum := received_pkts_cum b;
     expected_pkts_cum := expected_pkts_cum b;
     last_display_ts := last_display_ts b; longest_gap := longest_gap b;
     out_of_order_pkts := out_of_order_pkts b; dups := dups b |}.

(** Lines 344-350: the first packet ever seen sets the report cursor and
    marks the slots from the cursor up to the packet as received. *)
Definition mark_slot (i : Z) (b : pbuf) : pbuf :=
  let current_bit := Z.shiftl 1 (i mod number_word_bits) in
  with_packets
    (set_word (packets b) (i / number_word_bits)
       (Z.lor (word_at (packets b) (i / number_word_bits)) current_bit)) b.

Definition stats_init (b : pbuf) (pkt : rtp_packet) : option pbuf :=
  if last_report_seq b =? -1 then
    let b := with_last_report_seq
               (Pkt.seq pkt / STATS_INTERVAL * STATS_INTERVAL) b in
    for_u16 U16_ROUNDS (u16 (last_report_seq b)) (Pkt.seq pkt) 1 mark_slot b
  else Some b.

(** Lines 351-358: the packet's own bit, with the reordering and the
    duplicate tests on the word that holds it. *)
Definition stats_mark (b : pbuf) (pkt : rtp_packet) : pbuf :=
  let current_bit := Z.shiftl 1 (Pkt.seq pkt mod number_word_bits) in
  let w := word_at (packets b) (Pkt.seq pkt / number_word_bits) in
  {| frames := frames b; playout_delay_us := playout_delay_us b;
     packets := set_word (packets b) (Pkt.seq pkt / number_word_bits)
                  (Z.lor w current_bit);
     last_report_seq := last_report_seq b;
     received_pkts := received_pkts b; expected_pkts := expected_pkts b;
     received_pkts_cum := received_pkts_cum b;
     expected_pkts_cum := expected_pkts_cum b;
     last_display_ts := last_display_ts b; longest_gap := longest_gap b;
     out_of_order_pkts :=
       if Z.land w (not64 current_bit) >? current_bit then true
       else out_of_order_pkts b;
     dups := if Z.land w current_bit =? 0 then dups b else true |}.

(** Lines 363-366: one word of the bitmap is summed up and cleared. The
    counters are [int]s. [expected_pkts += number_word_bits] adds a
    [size_t]: the sum is taken in [unsigned long] and converted back to
    [int], which reduces it modulo 2^32. [received_pkts += popcount] is a
    sum of two [int]s, undefined in C++ once it passes [INT_MAX]; it is
    given the wrapped value as well. *)
Definition flush_word (i : Z) (b : pbuf) : pbuf :=
  let w := word_at (packets b) (i / number_word_bits) in
  {| frames := frames b; playout_delay_us := playout_delay_us b;
     packets := set_word (packets b) (i / number_word_bits) 0;
     last_report_seq := last_report_seq b;
     received_pkts := i32 (received_pkts b + popcountll w);
     expected_pkts := i32 (expected_pkts b + number_word_bits);
     received_pkts_cum := received_pkts_cum b;
     expected_pkts_cum := expected_pkts_cum b;
     last_display_ts := last_display_ts b;
     longest_gap := compute_longest_gap (longest_gap b) w;
     out_of_order_pkts := out_of_order_pkts b; dups := dups b |}.

Definition flush_due (b : pbuf) (pkt : rtp_packet) : bool :=
  u16 (Pkt.seq pkt - last_report_seq b) >=? STATS_INTERVAL * 2.

Definition report_seq_until (pkt : rtp_packet) : Z :=
  u16 (Pkt.seq pkt / STATS_INTERVAL * STATS_INTERVAL - STATS_INTERVAL).

(** Lines 369-372, after the loop: the cumulative counters are
    [long long]s, the window counters are added to them whole. *)
Definition flush_close (until : Z) (b : pbuf) : pbuf :=
  {| frames := frames b; playout_delay_us := playout_delay_us b;
     packets := packets b;
     last_report_seq := until;
     received_pkts := received_pkts b; expected_pkts := expected_pkts b;
     received_pkts_cum := i64 (received_pkts_cum b + received_pkts b);
     expected_pkts_cum := i64 (expected_pkts_cum b + expected_pkts b);
     last_display_ts := last_display_ts b; longest_gap := longest_gap b;
     out_of_order_pkts := out_of_order_pkts b; dups := dups b |}.

(** Lines 359-373. *)
Definition stats_flush (b : pbuf) (pkt : rtp_packet) : option pbuf :=
  if flush_due b pkt then
    b' ← for_u16 U16_ROUNDS (u16 (last_report_seq b)) (report_seq_until pkt)
           number_word_bits flush_word b;
    Some (flush_close (report_seq_until pkt) b')
  else Some b.

Definition report_due (b : pbuf) (pkt : rtp_packet) : bool :=
  (u32 (Pkt.ts pkt - last_display_ts b) >? 90000 * 5) && (expected_pkts b >? 0).

(** Lines 376-396. *)
Definition stats_report (b : pbuf) (pkt : rtp_packet)
    : pbuf * option loss_report :=
  if report_due b pkt then
    ({| frames := frames b; playout_delay_us := playout_delay_us b;
        packets := packets b; last_report_seq := last_report_seq b;
        received_pkts := 0; expected_pkts := 0;
        received_pkts_cum := received_pkts_cum b;
        expected_pkts_cum := expected_pkts_cum b;
        last_display_ts := Pkt.ts pkt; longest_gap := 0;
        out_of_order_pkts := false; dups := false |},
     Some {| rep_ssrc := Pkt.ssrc pkt;
             rep_received := received_pkts b;
             rep_expected := expected_pkts b;
             rep_lost := i32 (expected_pkts b - received_pkts b);
             rep_max_loss := longest_gap b;
             rep_reordered := out_of_order_pkts b;
             rep_dups := dups b |})
  else (b, None).

(** Lines 342-396 together. *)
Definition collect_statistics (b : pbuf) (pkt : rtp_packet)
    : option (pbuf * option loss_report) :=
  b1 ← stats_init b pkt;
  b2 ← stats_flush (stats_mark b1 pkt) pkt;
  Some (stats_report b2 pkt).

(** ** Frames and their packets *)

Definition with_cdata (cd : list coded_data) (mb : Z) (node : pbuf_node)
    : pbuf_node :=
  {| rtp_timestamp := rtp_timestamp node; arrival_time := arrival_time node;
     playout_time := playout_time node; cdata := cd;
     decoded := decoded node; mbit := mb; magic := magic node;
     completed := completed node |}.

Definition with_completed (c : bool) (node : pbuf_node) : pbuf_node :=
  {| rtp_timestamp := rtp_timestamp node; arrival_time := arrival_time node;
     playout_time := playout_time node; cdata := cdata node;
     decoded := decoded node; mbit := mbit node; magic := magic node;
     completed := c |}.

Definition with_decoded (d : Z) (node : pbuf_node) : pbuf_node :=
  {| rtp_timestamp := rtp_timestamp node; arrival_time := arrival_time node;
     playout_time := playout_time node; cdata := cdata node;
     decoded := d; mbit := mbit node; magic := magic node;
     completed := completed node |}.

(** The [else] branch of add_coded_unit (lines 259-277): walk from [curr]
    while the new sequence number is below the current one; at the end of
    the list append, before a lower one insert, on an equal one drop. *)
Fixpoint file_coded_unit (tmp : coded_data) (curr : list coded_data)
    : list coded_data :=
  match curr with
  | [] => [tmp]
  | c :: nxt =>
      if i16 (seqno tmp - seqno c) <? 0 then c :: file_coded_unit tmp nxt
      else if i16 (seqno tmp - seqno c) >? 0 then tmp :: c :: nxt
      else c :: nxt
  end.

(** add_coded_unit. The two [assert]s come first; the marker bit is or-ed
    into the frame before the place of the packet is looked for, so also
    when the packet ends up dropped. *)
Definition add_coded_unit (node : pbuf_node) (pkt : rtp_packet)
    : option pbuf_node :=
  if negb (rtp_timestamp node =? Pkt.ts pkt) then None
  else match cdata node with
  | [] => None
  | hd :: _ =>
      let tmp := {| seqno := Pkt.seq pkt; data := pkt |} in
      let mb := Z.lor (mbit node) (Z.b2z (Pkt.m pkt)) in
      if i16 (seqno tmp - seqno hd) >? 0
      then Some (with_cdata (tmp :: cdata node) mb node)
      else Some (with_cdata (file_coded_unit tmp (cdata node)) mb node)
  end.

(** [clock] is what [high_resolution_clock::now()] returns in the call. *)
Definition create_new_pnode (clock : time_point) (pkt : rtp_packet)
    (playout_delay_us : Z) : pbuf_node :=
  {| rtp_timestamp := Pkt.ts pkt;
     arrival_time := clock;
     playout_time := i64 (clock + microseconds playout_delay_us);
     cdata := [ {| seqno := Pkt.seq pkt; data := pkt |} ];
     decoded := 0;
     mbit := Z.b2z (Pkt.m pkt);
     magic := PBUF_MAGIC;
     completed := false |}.

(** [playout_delay_us + 1000 * (offset_ms ? *offset_ms : 0)]: the product
    is one of two [int]s, the sum one of a [long long] and an [int]. *)
Definition frame_delay_us (e : env) (b : pbuf) : Z :=
  i64 (playout_delay_us b
       + i32 (1000 * (match offset_ms e with Some o => o | None => 0 end))).

(** Lines 426-436 on the list read from [last] toward [frst]: step back
    while the node is not [frst] and is younger than the packet; then the
    packet joins the node it stopped at, or is discarded. *)
Fixpoint insert_previous (pkt : rtp_packet) (curr : list pbuf_node)
    : option (list pbuf_node) :=
  match curr with
  | [] => Some []
  | node :: prv =>
      if negb (match prv with [] => true | _ => false end)
         && (rtp_timestamp node >? Pkt.ts pkt)
      then prv' ← insert_previous pkt prv; Some (node :: prv')
      else if rtp_timestamp node =? Pkt.ts pkt
      then node' ← add_coded_unit node pkt; Some (node' :: prv)
      else Some (node :: prv)
  end.

(** Lines 398-446. *)
Definition insert_frame (e : env) (b : pbuf) (pkt : rtp_packet)
    : option (list pbuf_node) :=
  match rev (frames b) with
  | [] => Some [create_new_pnode (now e) pkt (frame_delay_us e b)]
  | last :: prvs =>
      if rtp_timestamp last =? Pkt.ts pkt then
        last' ← add_coded_unit last pkt; Some (rev (last' :: prvs))
      else if rtp_timestamp last <? Pkt.ts pkt then
        let tmp := create_new_pnode (now e) pkt (frame_delay_us e b) in
        Some (rev (tmp :: with_completed true last :: prvs))
      else
        match frames b with
        | [] => Some []
        | frst :: _ =>
            if rtp_timestamp frst >? Pkt.ts pkt then Some (frames b)
            else r ← insert_previous pkt (last :: prvs); Some (rev r)
        end
  end.

(** pbuf_insert: the statistics, then the frame list. The result carries
    the report line when the call logs one. *)
Definition pbuf_insert (e : env) (playout_buf : pbuf) (pkt : rtp_packet)
    : option (pbuf * option loss_report) :=
  '(b, report) ← collect_statistics playout_buf pkt;
  fs ← insert_frame e b pkt;
  Some (with_frames fs b, report).

(** A run of calls of pbuf_insert, each with what it reads from outside;
    the reports are gathered in order. *)
Fixpoint pbuf_insert_all (playout_buf : pbuf) (calls : list (env * rtp_packet))
    : option (pbuf * list loss_report) :=
  match calls with
  | [] => Some (playout_buf, [])
  | (e, pkt) :: rest =>
      '(b, report) ← pbuf_insert e playout_buf pkt;
      '(b', reports) ← pbuf_insert_all b rest;
      Some (b', option_list report ++ reports)
  end.

(** ** The scheduler passes *)

(** [frame->mbit == 1 || frame->completed == true]. *)
Definition frame_complete (frame : pbuf_node) : bool :=
  (mbit frame =? 1) || eqb (completed frame) true.

(** The loop of pbuf_remove from [curr] on: a frame past its playout time
    and complete is unlinked and freed, the first other frame ends the
    loop. *)
Fixpoint remove_from (curr_time : time_point) (curr : list pbuf_node)
    : list pbuf_node :=
  match curr with
  | [] => []
  | node :: nxt =>
      if (curr_time >? playout_time node) && frame_complete node
      then remove_from curr_time nxt
      else node :: nxt
  end.

Definition pbuf_remove (playout_buf : pbuf) (curr_time : time_point) : pbuf :=
  with_frames (remove_from curr_time (frames playout_buf)) playout_buf.

Definition pbuf_is_empty (playout_buf : pbuf) : bool :=
  match frames playout_buf with [] => true | _ => false end.

(** [struct pbuf_stats], handed to the decoder: the two cumulative
    counters, in the order of the initializer in pbuf_decode. *)
Record pbuf_stats := {
  stat_received_pkts_cum : Z;
  stat_expected_pkts_cum : Z
}.

Section Decode.
(** The decoder's own state, behind [void *data]. *)
Context {D : Type}.
Variable decode_func : list coded_data -> D -> pbuf_stats -> Z * D.

(** The loop of pbuf_decode from [curr] on. The result is the value
    returned, the frames as the loop leaves them, and the state of the
    decoder. ([playout_time + 1s] adds two tick counts; a playout time is
    a 64-bit count, so the sum is the mathematical one for every frame
    but one due in the last second the clock can count.) *)
Fixpoint decode_from (curr_time : time_point) (stats : pbuf_stats)
    (user : D) (curr : list pbuf_node) : Z * list pbuf_node * D :=
  match curr with
  | [] => (0, [], user)
  | node :: nxt =>
      if (decoded node =? 0) && (curr_time >? playout_time node) then
        if frame_complete node then
          let '(ret, user') := decode_func (cdata node) user stats in
          (ret, with_decoded 1 node :: nxt, user')
        else
          let node' :=
            if curr_time >? playout_time node + one_second
            then with_completed true node else node in
          let '(ret, nxt', user') := decode_from curr_time stats user nxt in
          (ret, node' :: nxt', user')
      else
        let '(ret, nxt', user') := decode_from curr_time stats user nxt in
        (ret, node :: nxt', user')
  end.

Definition pbuf_decode (playout_buf : pbuf) (curr_time : time_point)
    (user : D) : Z * pbuf * D :=
  let stats := {| stat_received_pkts_cum := received_pkts_cum playout_buf;
                  stat_expected_pkts_cum := expected_pkts_cum playout_buf |} in
  let '(ret, fs, user') :=
    decode_from curr_time stats user (frames playout_buf) in
  (ret, with_frames fs playout_buf, user').
End Decode.

(** ** pbuf_set_playout_delay *)

Definition pbuf_set_playout_delay (playout_buf : pbuf) (playout_delay : float)
    : pbuf :=
  {| frames := frames playout_buf;
     playout_delay_us :=
       double_to_ll (PrimFloat.mul (PrimFloat.mul playout_delay 1000%float) 1000%float);
     packets := packets playout_buf;
     last_report_seq := last_report_seq playout_buf;
     received_pkts := received_pkts playout_buf;
     expected_pkts := expected_pkts playout_buf;
     received_pkts_cum := received_pkts_cum playout_buf;
     expected_pkts_cum := expected_pkts_cum playout_buf;
     last_display_ts := last_display_ts playout_buf;
     longest_gap := longest_gap playout_buf;
     out_of_order_pkts := out_of_order_pkts playout_buf;
     dups := dups playout_buf |}.

(** * Vocabulary of the properties *)

(** [k] rounds of the loop body, the counter starting at [i]. *)
Fixpoint iter_u16 {S : Type} (k : nat) (i step : Z) (body : Z -> S -> S)
    (s : S) : S :=
  match k with
  | O => s
  | Datatypes.S k' => iter_u16 k' (u16 (i + step)) step body (body i s)
  end.

(** The bits [i .. i+n-1] of the 64-bit word [w] are all unset. *)
Definition zero_run (w i n : Z) : Prop :=
  0 <= i /\ 0 <= n /\ i + n <= 64 /\
  forall j, i <= j < i + n -> Z.testbit w j = false.

(** What the spec's words describe: only the runs that touch an edge of
    the word, read off the two zero counts. *)
Definition edge_gap (longest_gap packets : Z) : Z :=
  Z.max longest_gap (Z.max (clzll packets) (ctzll packets)).


(** [a] precedes [b] in the circular order of 16-bit sequence numbers. *)
Definition precedes (a b : Z) : Prop := i16 (a - b) < 0.

(** Each packet of the list precedes the one before it. *)
Definition descending (cd : list coded_data) : Prop :=
  Sorted (fun x y => precedes (seqno y) (seqno x)) cd.

(** Every packet of the list precedes all those before it: the list lies
    within half a turn of the sequence counter. *)
Definition descending_all (cd : list coded_data) : Prop :=
  StronglySorted (fun x y => precedes (seqno y) (seqno x)) cd.

Definition frame_ok (node : pbuf_node) : Prop :=
  cdata node <> [] /\ descending (cdata node).

(** The report cursor is set and stands on a multiple of STATS_INTERVAL. *)
Definition cursor_aligned (b : pbuf) : Prop :=
  0 <= last_report_seq b < 65536 /\ last_report_seq b mod STATS_INTERVAL = 0.

Definition word_ok (w : Z) : Prop := 0 <= w < 2 ^ 64.

(** What the statistics block keeps whatever it is fed: the cursor, the
    bitmap, the range of the longest gap, and an expected count of whole
    words. (The order of the counters is kept only while none of them has
    wrapped, see [counters_ok].) *)
Definition stats_ok (b : pbuf) : Prop :=
  (last_report_seq b = -1 \/ cursor_aligned b) /\
  length (packets b) = PACKETS_LEN /\
  Forall word_ok (packets b) /\
  0 <= longest_gap b <= 64 /\
  expected_pkts b mod number_word_bits = 0.

(** The buffer after a run of calls of pbuf_insert on a fresh buffer. *)
Definition run (calls : list (env * rtp_packet)) : pbuf :=
  match pbuf_insert_all pbuf_init calls with
  | Some (b, _) => b
  | None => pbuf_init
  end.

(** The reports logged during such a run. *)
Definition run_reports (calls : list (env * rtp_packet)) : list loss_report :=
  match pbuf_insert_all pbuf_init calls with
  | Some (_, reports) => reports
  | None => []
  end.

(** A packet of the test stream: source 1, no payload. *)
Definition packet (ts sq : Z) (marker : bool) : rtp_packet :=
  {| Pkt.ts := ts; Pkt.seq := sq; Pkt.m := marker; Pkt.ssrc := 1;
     Pkt.payload := [] |}.

(** A call at clock time [clock], with no offset pointer. *)
Definition at_time (clock : Z) (pkt : rtp_packet) : env * rtp_packet :=
  ({| now := clock; offset_ms := None |}, pkt).

(** [n] packets of one frame with consecutive sequence numbers from [sq],
    wrapping at 16 bits. *)
Fixpoint burst (n : nat) (ts sq : Z) : list (env * rtp_packet) :=
  match n with
  | O => []
  | Datatypes.S n' => at_time 0 (packet ts sq false) :: burst n' ts (u16 (sq + 1))
  end.

(** The frames stand in strictly increasing order of their timestamps. *)
Definition frames_ascending (fs : list pbuf_node) : Prop :=
  StronglySorted Z.lt (map rtp_timestamp fs).

Definition pbuf_ok (b : pbuf) : Prop :=
  stats_ok b /\ Forall frame_ok (frames b) /\ frames_ascending (frames b).

(** The states a buffer can be in: made by pbuf_init and changed only
    through the functions of the interface. *)
Inductive reachable : pbuf -> Prop :=
| reach_init : reachable pbuf_init
| reach_insert e b pkt b' report :
    reachable b -> wf_packet pkt ->
    pbuf_insert e b pkt = Some (b', report) -> reachable b'
| reach_decode (D : Type) (f : list coded_data -> D -> pbuf_stats -> Z * D)
    b curr_time user :
    reachable b -> reachable (snd (fst (pbuf_decode f b curr_time user)))
| reach_remove b curr_time :
    reachable b -> reachable (pbuf_remove b curr_time)
| reach_set_playout_delay b playout_delay :
    reachable b -> reachable (pbuf_set_playout_delay b playout_delay).

(** How far the cursor moves when a packet with sequence number [sq]
    arrives: nothing while the packet is less than two intervals ahead of
    the cursor on the circle, otherwise all whole intervals but the last. *)
Definition elapsed (cursor sq : Z) : Z :=
  let d := u16 (sq - cursor) in
  if d <? STATS_INTERVAL * 2 then 0
  else STATS_INTERVAL * (d / STATS_INTERVAL - 1).

(** The counters of the statistics block, and what the statistics code
    never touches. *)
Definition counters (b : pbuf) : Z * Z * Z * Z * Z * Z :=
  (received_pkts b, expected_pkts b, received_pkts_cum b,
   expected_pkts_cum b, longest_gap b, last_display_ts b).

Definition flags (b : pbuf) : bool * bool := (out_of_order_pkts b, dups b).

Definition store (b : pbuf) : list pbuf_node * Z :=
  (frames b, playout_delay_us b).

(** What add_coded_unit leaves alone in the frame. *)
Definition same_schedule (node node' : pbuf_node) : Prop :=
  rtp_timestamp node' = rtp_timestamp node /\
  arrival_time node' = arrival_time node /\
  playout_time node' = playout_time node /\
  decoded node' = decoded node /\
  completed node' = completed node.

(** The packet starts a frame: the buffer holds none, or the packet is
    younger than the tail frame. *)
Definition opens_frame (b : pbuf) (pkt : rtp_packet) : bool :=
  match rev (frames b) with
  | [] => true
  | last :: _ => rtp_timestamp last <? Pkt.ts pkt
  end.

(** Scenario D of the spec: 130 consecutive sequence numbers of which 50
    is missing. *)
Definition scenario_D : list (env * rtp_packet) :=
  burst 50 0 0 ++ burst 79 0 51.


(** The frame pbuf_decode looks for: not yet decoded, past its playout
    time, complete. *)
Definition ready (curr_time : time_point) (node : pbuf_node) : bool :=
  (decoded node =? 0) && (curr_time >? playout_time node)
  && frame_complete node.

(** What pbuf_decode does to a frame it passes over: an undecoded,
    incomplete frame more than a second past its playout time is marked
    completed; any other frame is left as it is. *)
Definition expire (curr_time : time_point) (node : pbuf_node) : pbuf_node :=
  if (decoded node =? 0) && (curr_time >? playout_time node)
     && negb (frame_complete node)
     && (curr_time >? playout_time node + one_second)
  then with_completed true node else node.

(** The frames pbuf_remove frees: past their playout time and complete. *)
Definition evictable (curr_time : time_point) (node : pbuf_node) : bool :=
  (curr_time >? playout_time node) && frame_complete node.

(** The statistics handed to the decoder. *)
Definition stats_of (b : pbuf) : pbuf_stats :=
  {| stat_received_pkts_cum := received_pkts_cum b;
     stat_expected_pkts_cum := expected_pkts_cum b |}.

(** Scenario B of the spec: a packet of the frame at 100, then one of the
    frame at 200, no marker seen. *)
Definition scenario_B_first : list (env * rtp_packet) :=
  [at_time 0 (packet 100 1 false)].

Definition scenario_B : list (env * rtp_packet) :=
  [at_time 0 (packet 100 1 false); at_time 5 (packet 200 2 false)].

(** What a test reads off a frame. *)
Definition frame_view (node : pbuf_node) : Z * list Z * Z * bool * bool :=
  (rtp_timestamp node, map seqno (cdata node), mbit node, completed node,
   frame_complete node).

(** A frame for the tests of the scheduler: one packet, due at
    [playout]. *)
Definition test_frame (ts playout : Z) (marker : bool) : pbuf_node :=
  create_new_pnode playout (packet ts ts marker) 0.

(** A decoder that keeps a log of the packet lists it was given and
    answers with the length of the list. *)
Definition logging_decoder (cd : list coded_data) (log : list (list Z))
    (stats : pbuf_stats) : Z * list (list Z) :=
  (Z.of_nat (length cd), log ++ [map seqno cd]).

(** [playout_delay * 1000 * 1000] as a [long long]. *)
Definition delay_to_us (playout_delay : float) : Z :=
  double_to_ll (PrimFloat.mul (PrimFloat.mul playout_delay 1000%float) 1000%float).

(** [offset_ms ? *offset_ms : 0]. *)
Definition offset_of (e : env) : Z :=
  match offset_ms e with Some o => o | None => 0 end.

(** The bitmap holds the bit of sequence number [sq]. *)
Definition seen (b : pbuf) (sq : Z) : bool :=
  Z.testbit (word_at (packets b) (sq / number_word_bits))
    (sq mod number_word_bits).

(** Scenario E of the spec: the same packet twice. *)
Definition scenario_E : list (env * rtp_packet) :=
  [at_time 0 (packet 100 1 false); at_time 1 (packet 100 1 false)].

(** A duplicate that arrives after its interval was flushed. *)
Definition late_duplicate : list (env * rtp_packet) :=
  map (at_time 0)
    [packet 100 0 false; packet 100 256 false; packet 100 0 false].

(** A frame that spans more than half a turn of the sequence counter,
    and then a duplicate. *)
Definition wide_frame_duplicate : list (env * rtp_packet) :=
  map (at_time 0)
    [packet 100 0 false; packet 100 20000 false; packet 100 40000 false;
     packet 100 0 false].

(** * The rest of pbuf.cpp *)

(** free_cdata: the packets of the list are freed from the head on, each
    followed by its node. The result lists the packets freed, in order. *)
Fixpoint free_cdata (head : list coded_data) : list rtp_packet :=
  match head with
  | [] => []
  | tmp :: nxt => data tmp :: free_cdata nxt
  end.

(** The loop of pbuf_destroy from [curr] on: every frame is unlinked and
    its packets are freed. *)
Fixpoint destroy_from (curr : list pbuf_node) : list rtp_packet :=
  match curr with
  | [] => []
  | node :: nxt => free_cdata (cdata node) ++ destroy_from nxt
  end.

(** pbuf_destroy, on a pointer that may be null ([None]). The result is
    the summary line, logged when the cumulative count of received packets
    is not 0 (the two counts; the percentage, a [double], is left out),
    and the packets freed. *)
Definition pbuf_destroy (playout_buf : option pbuf)
    : option (Z * Z) * list rtp_packet :=
  match playout_buf with
  | None => (None, [])
  | Some b =>
      (if received_pkts_cum b =? 0 then None
       else Some (received_pkts_cum b, expected_pkts_cum b),
       destroy_from (frames b))
  end.

(** The checks of pbuf_validate (the block compiled in debugging mode)
    from [cpb] on, [ppb] being the frame before: the magic number of each
    frame, and a timestamp above that of the frame before. The checks on
    the [nxt]/[prv] pointers and on [data] not being null say that the
    lists are lists, which the embedding has by construction. The result
    is [true] when no [assert] fails. *)
Fixpoint validate_from (ppb : option pbuf_node) (cpb : list pbuf_node) : bool :=
  match cpb with
  | [] => true
  | node :: nxt =>
      (magic node =? PBUF_MAGIC)
      && match ppb with
         | None => true
         | Some prv => rtp_timestamp node >? rtp_timestamp prv
         end
      && validate_from (Some node) nxt
  end.

Definition pbuf_validate (playout_buf : pbuf) : bool :=
  validate_from None (frames playout_buf).

(** * Vocabulary of the further properties *)

(** The packets the buffer holds, frame by frame from the head. *)
Definition held_packets (b : pbuf) : list rtp_packet :=
  concat (map (fun node => map data (cdata node)) (frames b)).

(** What pbuf_insert can do to a frame it keeps: nothing, set its
    [completed] flag, or add the packet to it. *)
Definition touched (pkt : rtp_packet) (x y : pbuf_node) : Prop :=
  y = x \/ y = with_completed true x \/ add_coded_unit x pkt = Some y.

(** What pbuf_decode can do to a frame: nothing, set its [completed]
    flag, or set its [decoded] flag. *)
Definition scanned (x y : pbuf_node) : Prop :=
  y = x \/ y = with_completed true x \/ y = with_decoded 1 x.

(** The frame [y] is the frame [x] later in its life: the same timestamp,
    times and magic number; decoded if [x] was, complete if [x] was. *)
Definition frame_advances (x y : pbuf_node) : Prop :=
  rtp_timestamp y = rtp_timestamp x /\
  arrival_time y = arrival_time x /\
  playout_time y = playout_time x /\
  magic y = magic x /\
  (decoded x <> 0 -> decoded y <> 0) /\
  (frame_complete x = true -> frame_complete y = true).

(** How many frames wait to be decoded. *)
Definition undecoded (fs : list pbuf_node) : nat :=
  length (List.filter (fun node => decoded node =? 0) fs).

(** Every packet held is a well-formed packet filed under its own
    sequence number in a frame of its own timestamp, with a marker bit
    of 0 or 1 on the frame. *)
Definition packets_ok (node : pbuf_node) : Prop :=
  (mbit node = 0 \/ mbit node = 1) /\
  Forall (fun c => seqno c = Pkt.seq (data c) /\ wf_packet (data c)
                   /\ Pkt.ts (data c) = rtp_timestamp node) (cdata node).

(** The longest gap is no longer than the number of packets lost in the
    window. *)
Definition gap_ok (b : pbuf) : Prop :=
  longest_gap b <= expected_pkts b - received_pkts b.

(** ** Counters in range *)

(** The counters as long as none of them has wrapped: in order, within
    [int] and [long long], and the longest gap within the loss. *)
Definition counters_ok (b : pbuf) : Prop :=
  0 <= received_pkts b <= expected_pkts b /\ expected_pkts b <= INT_MAX /\
  0 <= received_pkts_cum b <= expected_pkts_cum b /\
  expected_pkts_cum b <= LLONG_MAX /\
  gap_ok b.

(** What the flush of the call will add to the expected count of the
    window. *)
Definition pending (b : pbuf) (pkt : rtp_packet) : Z :=
  if last_report_seq b =? -1 then 0
  else elapsed (last_report_seq b) (Pkt.seq pkt).

(** The call wraps no counter: the expected count of the window stays an
    [int] and, when the call flushes, the cumulative one a [long long]. *)
Definition fits (b : pbuf) (pkt : rtp_packet) : Prop :=
  expected_pkts b + pending b pkt <= INT_MAX /\
  (0 < pending b pkt ->
   expected_pkts_cum b + (expected_pkts b + pending b pkt) <= LLONG_MAX).

(** The states reached without wrapping a counter: those of [reachable]
    with every call of pbuf_insert one that [fits]. *)
Inductive in_range : pbuf -> Prop :=
| range_init : in_range pbuf_init
| range_insert e b pkt b' report :
    in_range b -> wf_packet pkt -> fits b pkt ->
    pbuf_insert e b pkt = Some (b', report) -> in_range b'
| range_decode (D : Type) (f : list coded_data -> D -> pbuf_stats -> Z * D)
    b curr_time user :
    in_range b -> in_range (snd (fst (pbuf_decode f b curr_time user)))
| range_remove b curr_time :
    in_range b -> in_range (pbuf_remove b curr_time)
| range_set_playout_delay b playout_delay :
    in_range b -> in_range (pbuf_set_playout_delay b playout_delay).

(** Every call of the run fits the state it meets. *)
Fixpoint fit_along (b : pbuf) (calls : list (env * rtp_packet)) : Prop :=
  match calls with
  | [] => True
  | (e, pkt) :: rest =>
      fits b pkt /\
      match pbuf_insert e b pkt with
      | Some (b', _) => fit_along b' rest
      | None => True
      end
  end.

(** ** What a flush reads and leaves *)

(** The bitmap once the bit of the packet is set (lines 351-358). *)
Definition marked (b : pbuf) (pkt : rtp_packet) : list Z :=
  packets (stats_mark b pkt).

(** The [k] words of the bitmap that the flush loop passes from sequence
    number [i] on, in the order of the loop. *)
Definition window_words (k : nat) (i : Z) (pk : list Z) : list Z :=
  map (fun j => word_at pk (u16 (i + number_word_bits * Z.of_nat j)
                            / number_word_bits))
      (seq 0 k).

(** The bitmap with these words cleared. *)
Fixpoint clear_words (k : nat) (i : Z) (pk : list Z) : list Z :=
  match k with
  | O => pk
  | Datatypes.S k' =>
      clear_words k' (u16 (i + number_word_bits))
        (set_word pk (i / number_word_bits) 0)
  end.

(** How many words the flush of the call passes, and which. *)
Definition flush_rounds (b : pbuf) (pkt : rtp_packet) : nat :=
  Z.to_nat (elapsed (last_report_seq b) (Pkt.seq pkt) / number_word_bits).

Definition flushed (b : pbuf) (pkt : rtp_packet) : list Z :=
  window_words (flush_rounds b pkt) (last_report_seq b) (marked b pkt).

(** The bits set in a list of words, and the longest gap recorded after
    compute_longest_gap has seen them one after the other. *)
Definition received_in (ws : list Z) : Z :=
  fold_right (fun w acc => popcountll w + acc) 0 ws.

Definition gap_over (longest_gap : Z) (ws : list Z) : Z :=
  fold_left compute_longest_gap ws longest_gap.

(** The two window counters and the two cumulative ones. *)
Definition tally (b : pbuf) : Z * Z * Z * Z :=
  (received_pkts b, expected_pkts b, received_pkts_cum b, expected_pkts_cum b).

(** ** A run that wraps the window counter *)

(** Packets of one timestamp whose sequence numbers swing between 0 and
    32768: no report is due, and from the second packet on every call
    flushes half the sequence space or one interval less. *)
Definition swing_open : list (env * rtp_packet) :=
  map (at_time 0) [packet 0 0 false; packet 0 32768 false].

Fixpoint swing (m : nat) (sq : Z) : list (env * rtp_packet) :=
  match m with
  | O => []
  | Datatypes.S m' =>
      at_time 0 (packet 0 sq false) :: swing m' (u16 (sq + 32768))
  end.

(** What one call of the swing does to the counters: one packet received
    and 32768 expected, the window added whole to the cumulative ones. *)
Definition swing_step (t : Z * Z * Z * Z) : Z * Z * Z * Z :=
  let '(r, x, rc, xc) := t in
  let r' := i32 (r + 1) in
  let x' := i32 (x + 32768) in
  (r', x', i64 (rc + r'), i64 (xc + x')).

(** The bitmap and the cursor between the calls of the swing: the one
    bit of the packet before, 32768 or 0. *)
Definition swing_bitmap (sq : Z) : list Z :=
  if sq =? 0 then <[512%nat := 1]> (replicate PACKETS_LEN 0)
  else <[0%nat := 1]> (replicate PACKETS_LEN 0).

Definition swing_cursor (sq : Z) : Z := if sq =? 0 then 32640 else 65408.

(** Some later sequence number of the word of [sq] has been seen. *)
Definition later_seen (b : pbuf) (sq : Z) : Prop :=
  exists s, 0 <= s < 65536 /\ s / number_word_bits = sq / number_word_bits
            /\ sq < s /\ seen b s = true.

(** A frame as pbuf_validate wants it, with well-formed packets. *)
Definition frame_sound (node : pbuf_node) : Prop :=
  magic node = PBUF_MAGIC /\ packets_ok node.
(** * Properties *)

(** ** The counter loop *)

Lemma u16_range x : 0 <= u16 x < 65536.
Proof. unfold u16. apply Z.mod_pos_bound. lia. Qed.

Lemma u16_small x : 0 <= x < 65536 -> u16 x = x.
Proof. intros. unfold u16. apply Z.mod_small. lia. Qed.

Lemma i32_small x : INT_MIN <= x <= INT_MAX -> i32 x = x.
Proof. unfold i32, INT_MIN, INT_MAX. intros H. rewrite Z.mod_small; lia. Qed.

Lemma i32_range x : INT_MIN <= i32 x <= INT_MAX.
Proof.
  unfold i32, INT_MIN, INT_MAX.
  pose proof (Z.mod_pos_bound (x + 2147483648) 4294967296 ltac:(lia)). lia.
Qed.

Lemma i32_add_l x y : i32 (i32 x + y) = i32 (x + y).
Proof. unfold i32. Z.div_mod_to_equations. lia. Qed.

Lemma i32_mod64 x : i32 x mod 64 = x mod 64.
Proof. unfold i32. Z.div_mod_to_equations. lia. Qed.

Lemma i64_small x : LLONG_MIN <= x <= LLONG_MAX -> i64 x = x.
Proof. unfold i64, LLONG_MIN, LLONG_MAX. intros H. rewrite Z.mod_small; lia. Qed.

Lemma u16_add_l x y : u16 (u16 x + y) = u16 (x + y).
Proof. unfold u16. apply Zplus_mod_idemp_l. Qed.

(** A loop whose exit value lies [k] steps ahead, less than one turn of
    the counter away, runs exactly [k] rounds. *)
Lemma for_u16_iter {S : Type} (body : Z -> S -> S) (step stop : Z) :
  0 < step ->
  forall (k fuel : nat) (i : Z) (s : S),
    0 <= i < 65536 ->
    step * Z.of_nat k < 65536 ->
    stop = u16 (i + step * Z.of_nat k) ->
    (k <= fuel)%nat ->
    for_u16 fuel i stop step body s = Some (iter_u16 k i step body s).
Proof.
  intros Hstep k. induction k as [|k IH]; intros fuel i s Hi Hk Hstop Hfuel.
  - replace (i + step * Z.of_nat 0) with i in Hstop by lia.
    rewrite u16_small in Hstop by lia. subst stop.
    destruct fuel; simpl; rewrite Z.eqb_refl; reflexivity.
  - destruct fuel as [|fuel]; [lia|].
    assert (Hne : i <> stop).
    { subst stop. unfold u16. intros Heq.
      assert (Hx : 0 < step * Z.of_nat (Datatypes.S k)) by nia.
      revert Heq Hk Hx. generalize (step * Z.of_nat (Datatypes.S k)).
      intros x Heq Hk Hx. Z.div_mod_to_equations. lia. }
    simpl. apply Z.eqb_neq in Hne. rewrite Hne.
    apply IH.
    + apply u16_range.
    + lia.
    + rewrite u16_add_l. subst stop. f_equal. lia.
    + lia.
Qed.

(** ** The longest run of missing packets in a word *)

(** The loop in the shape of the source. *)
Lemma gap_loop_unfold longest_gap packets :
  0 <= packets ->
  gap_loop longest_gap packets =
    if packets =? 0 then longest_gap
    else gap_loop (Z.max longest_gap (ctzll packets)) (Z.shiftr packets 1).
Proof.
  intros Hp. destruct packets as [|p|p]; [reflexivity| |lia].
  destruct p; reflexivity.
Qed.

Lemma ctz_pos_spec p :
  0 <= ctz_pos p <= Z.log2 (Zpos p) /\
  Z.testbit (Zpos p) (ctz_pos p) = true /\
  forall j, 0 <= j < ctz_pos p -> Z.testbit (Zpos p) j = false.
Proof.
  induction p as [q IH|q IH|].
  - simpl ctz_pos. split; [split; [lia|apply Z.log2_nonneg]|]. split.
    + reflexivity.
    + intros j Hj. lia.
  - destruct IH as [[H0 Hlog] [Hset Hlow]].
    simpl ctz_pos. rewrite Pos2Z.inj_xO.
    rewrite Z.log2_double by lia. split; [lia|]. split.
    + replace (1 + ctz_pos q) with (Z.succ (ctz_pos q)) by lia.
      rewrite Z.testbit_even_succ by lia. exact Hset.
    + intros j Hj. destruct (Z.eq_dec j 0) as [->|Hne].
      * apply Z.testbit_even_0.
      * replace j with (Z.succ (j - 1)) by lia.
        rewrite Z.testbit_even_succ by lia. apply Hlow. lia.
  - simpl. split; [lia|]. split; [reflexivity|]. intros j Hj. lia.
Qed.

Lemma testbit_xO_succ q j :
  0 <= j -> Z.testbit (Zpos q~0) (j + 1) = Z.testbit (Zpos q) j.
Proof.
  intros Hj. rewrite Pos2Z.inj_xO. replace (j + 1) with (Z.succ j) by lia.
  apply Z.testbit_even_succ. exact Hj.
Qed.

Lemma testbit_xI_succ q j :
  0 <= j -> Z.testbit (Zpos q~1) (j + 1) = Z.testbit (Zpos q) j.
Proof.
  intros Hj. rewrite Pos2Z.inj_xI. replace (j + 1) with (Z.succ j) by lia.
  apply Z.testbit_odd_succ. exact Hj.
Qed.

(** The loop finds the longest run of unset bits below the highest set
    bit, wherever in the word the run lies. *)
Lemma gap_loop_pos_spec p : forall lg,
  let r := gap_loop_pos lg p in
  Z.max lg 0 <= r /\
  (forall i n, 0 <= i -> i + n <= Z.log2 (Zpos p) ->
     (forall j, i <= j < i + n -> Z.testbit (Zpos p) j = false) -> n <= r) /\
  (r = lg \/
   exists i, 0 <= i /\ i + r <= Z.log2 (Zpos p) /\
     forall j, i <= j < i + r -> Z.testbit (Zpos p) j = false).
Proof.
  induction p as [q IH|q IH|]; intros lg.
  - (* q~1: the lowest bit is set *)
    cbn zeta. simpl gap_loop_pos.
    specialize (IH (Z.max lg 0)). cbn zeta in IH.
    destruct IH as (Hge & Hall & Hex).
    rewrite Pos2Z.inj_xI, Z.log2_succ_double by lia.
    rewrite <- Pos2Z.inj_xI.
    split; [lia|]. split.
    + intros i n Hi Hin Hrun.
      destruct (Z_le_gt_dec n 0) as [|Hn]; [lia|].
      destruct (Z.eq_dec i 0) as [->|Hne].
      * specialize (Hrun 0 ltac:(lia)). discriminate Hrun.
      * apply (Hall (i - 1) n); [lia|lia|].
        intros j Hj. rewrite <- testbit_xI_succ by lia.
        apply Hrun. lia.
    + destruct Hex as [Heq|(i & Hi & Hir & Hrun)].
      * destruct (Z_le_gt_dec 0 lg); [left; lia|].
        right. exists 0. split; [lia|]. split.
        { rewrite Heq. pose proof (Z.log2_nonneg (Zpos q)). lia. }
        { intros j Hj. lia. }
      * right. exists (i + 1). split; [lia|]. split; [lia|].
        intros j Hj. replace j with ((j - 1) + 1) by lia.
        rewrite testbit_xI_succ by lia. apply Hrun. lia.
  - (* q~0: the trailing zeros of the word are a run *)
    cbn zeta. simpl gap_loop_pos.
    pose proof (ctz_pos_spec q~0) as ([Hc0 Hclog] & Hcset & Hclow).
    simpl ctz_pos in Hc0, Hclog, Hcset, Hclow.
    specialize (IH (Z.max lg (1 + ctz_pos q))). cbn zeta in IH.
    destruct IH as (Hge & Hall & Hex).
    rewrite Pos2Z.inj_xO, Z.log2_double by lia.
    rewrite Pos2Z.inj_xO, Z.log2_double in Hclog by lia.
    rewrite <- Pos2Z.inj_xO.
    split; [lia|]. split.
    + intros i n Hi Hin Hrun.
      destruct (Z_le_gt_dec n 0) as [|Hn]; [lia|].
      destruct (Z.eq_dec i 0) as [->|Hne].
      * destruct (Z_le_gt_dec n (1 + ctz_pos q)) as [|Hgt]; [lia|].
        specialize (Hrun (1 + ctz_pos q) ltac:(lia)). congruence.
      * apply (Hall (i - 1) n); [lia|lia|].
        intros j Hj. rewrite <- testbit_xO_succ by lia.
        apply Hrun. lia.
    + destruct Hex as [Heq|(i & Hi & Hir & Hrun)].
      * destruct (Z_le_gt_dec (1 + ctz_pos q) lg); [left; lia|].
        right. exists 0. split; [lia|]. split; [lia|].
        intros j Hj. apply Hclow. lia.
      * right. exists (i + 1). split; [lia|]. split; [lia|].
        intros j Hj. replace j with ((j - 1) + 1) by lia.
        rewrite testbit_xO_succ by lia. apply Hrun. lia.
  - (* 1 *)
    cbn zeta. simpl. split; [lia|]. split.
    + intros i n Hi Hin _. lia.
    + destruct (Z_le_gt_dec 0 lg); [left; lia|].
      right. exists 0. split; [lia|]. split; [lia|]. intros j Hj. lia.
Qed.

Lemma testbit_all_ones j : 0 <= j < 64 -> Z.testbit ULLONG_MAX j = true.
Proof.
  intros Hj. change ULLONG_MAX with (Z.ones 64).
  apply Z.ones_spec_low. lia.
Qed.

(** One call of compute_longest_gap on a 64-bit word and a recorded gap
    between 0 and 64: the result is the maximum of the recorded gap and
    the longest run of unset bits found anywhere in the word. *)
Lemma compute_longest_gap_word (longest_gap packets : Z) :
  0 <= longest_gap <= 64 ->
  0 <= packets < 2 ^ 64 ->
  let r := compute_longest_gap longest_gap packets in
  longest_gap <= r <= 64 /\
  (forall i n, zero_run packets i n -> n <= r) /\
  (r = longest_gap \/ exists i, zero_run packets i r).
Proof.
  intros Hlg Hw. cbn zeta. unfold compute_longest_gap, number_of_bits.
  destruct (Z.eqb_spec longest_gap 64) as [->|Hlg64].
  { split; [lia|]. split; [|left; reflexivity].
    intros i n (Hi & Hn & Hin & _). lia. }
  destruct (Z.eqb_spec packets 0) as [->|Hw0].
  { split; [lia|]. split.
    - intros i n (Hi & Hn & Hin & _). lia.
    - right. exists 0. repeat split; try lia. intros j _. apply Z.bits_0. }
  destruct (Z.eqb_spec packets ULLONG_MAX) as [->|Hwmax].
  { split; [lia|]. split; [|left; reflexivity].
    intros i n (Hi & Hn & Hin & Hrun).
    destruct (Z_le_gt_dec n 0) as [|Hpos]; [lia|].
    specialize (Hrun i ltac:(lia)).
    rewrite testbit_all_ones in Hrun by lia. discriminate Hrun. }
  destruct packets as [|p|p]; [lia| |lia].
  assert (Hlog : 0 <= Z.log2 (Zpos p) < 64).
  { split; [apply Z.log2_nonneg|]. apply Z.log2_lt_pow2; lia. }
  unfold gap_loop, clzll.
  pose proof (gap_loop_pos_spec p (Z.max longest_gap (63 - Z.log2 (Zpos p))))
    as (Hge & Hall & Hex). cbn zeta in Hge, Hall, Hex.
  set (r := gap_loop_pos (Z.max longest_gap (63 - Z.log2 (Zpos p))) p) in *.
  assert (Hr64 : r <= 64).
  { destruct Hex as [->|(i & Hi & Hir & _)]; lia. }
  split; [lia|]. split.
  - intros i n (Hi & Hn & Hin & Hrun).
    destruct (Z_le_gt_dec i (Z.log2 (Zpos p))) as [Hlow|Hhigh]; [|lia].
    destruct (Z_le_gt_dec (i + n) (Z.log2 (Zpos p))) as [Hfit|Hover].
    + apply (Hall i n); assumption.
    + specialize (Hrun (Z.log2 (Zpos p)) ltac:(lia)).
      rewrite Z.bit_log2 in Hrun by lia. discriminate Hrun.
  - destruct Hex as [Heq|(i & Hi & Hir & Hrun)].
    + destruct (Z_le_gt_dec (63 - Z.log2 (Zpos p)) longest_gap);
        [left; lia|].
      right. exists (Z.log2 (Zpos p) + 1). repeat split; try lia.
      intros j Hj. apply Z.bits_above_log2; lia.
    + right. exists i. repeat split; try lia. exact Hrun.
Qed.

(** ** Statistics: what each block changes *)

Lemma popcountll_range w : 0 <= popcountll w <= 64.
Proof.
  unfold popcountll.
  assert (H : forall l : list nat,
    0 <= fold_right (fun i acc => Z.b2z (Z.testbit w (Z.of_nat i)) + acc) 0 l
      <= Z.of_nat (length l)).
  { induction l as [|i l IH]; simpl fold_right; simpl length; [lia|].
    destruct (Z.testbit w (Z.of_nat i)); simpl Z.b2z; lia. }
  specialize (H (seq 0 64)). rewrite length_seq in H. lia.
Qed.

Lemma word_ok_lor a b : word_ok a -> word_ok b -> word_ok (Z.lor a b).
Proof.
  unfold word_ok. intros [Ha0 Ha] [Hb0 Hb]. split.
  - apply Z.lor_nonneg. lia.
  - destruct (Z.eq_dec (Z.lor a b) 0) as [->|Hne]; [lia|].
    apply Z.log2_lt_pow2.
    + pose proof (proj2 (Z.lor_nonneg a b) (conj Ha0 Hb0)). lia.
    + rewrite Z.log2_lor by lia.
      destruct (Z.eq_dec a 0) as [->|Ha']; destruct (Z.eq_dec b 0) as [->|Hb'];
        simpl Z.log2;
        try (pose proof (proj1 (Z.log2_lt_pow2 a 64 ltac:(lia)) Ha));
        try (pose proof (proj1 (Z.log2_lt_pow2 b 64 ltac:(lia)) Hb));
        lia.
Qed.

Lemma word_ok_bit i : word_ok (Z.shiftl 1 (i mod number_word_bits)).
Proof.
  unfold word_ok, number_word_bits.
  pose proof (Z.mod_pos_bound i 64 ltac:(lia)) as Hi.
  rewrite Z.shiftl_1_l. split; [apply Z.pow_nonneg; lia|].
  apply Z.pow_lt_mono_r; lia.
Qed.

Lemma word_at_ok pk i : Forall word_ok pk -> word_ok (word_at pk i).
Proof.
  intros H. unfold word_at.
  destruct (pk !! Z.to_nat i) as [w|] eqn:E.
  - rewrite (list_lookup_total_correct _ _ _ E).
    rewrite Forall_lookup in H. exact (H _ _ E).
  - rewrite list_lookup_total_alt, E. simpl. unfold word_ok. lia.
Qed.

Lemma set_word_ok pk i w :
  Forall word_ok pk -> word_ok w -> Forall word_ok (set_word pk i w).
Proof. intros H Hw. unfold set_word. apply Forall_insert; assumption. Qed.

Lemma set_word_length pk i w : length (set_word pk i w) = length pk.
Proof. unfold set_word. apply length_insert. Qed.

Lemma word_at_set_same pk i w :
  0 <= i -> (Z.to_nat i < length pk)%nat -> word_at (set_word pk i w) i = w.
Proof.
  intros Hi Hlen. unfold word_at, set_word.
  apply list_lookup_total_insert_eq. exact Hlen.
Qed.

Lemma word_at_set_other pk i j w :
  0 <= i -> 0 <= j -> i <> j ->
  word_at (set_word pk i w) j = word_at pk j.
Proof.
  intros Hi Hj Hne. unfold word_at, set_word.
  apply list_lookup_total_insert_ne. lia.
Qed.

Lemma iter_mark_slot k : forall i b,
  let b' := iter_u16 k i 1 mark_slot b in
  store b' = store b /\ counters b' = counters b /\ flags b' = flags b /\
  last_report_seq b' = last_report_seq b /\
  length (packets b') = length (packets b) /\
  (Forall word_ok (packets b) -> Forall word_ok (packets b')).
Proof.
  induction k as [|k IH]; intros i b; cbn zeta.
  - simpl. tauto.
  - simpl iter_u16.
    specialize (IH (u16 (i + 1)) (mark_slot i b)). cbn zeta in IH.
    destruct IH as (Hs & Hc & Hf & Hl & Hlen & Hok).
    rewrite Hs, Hc, Hf, Hl, Hlen. unfold mark_slot at 1 2 3 4 5. simpl.
    repeat split; try reflexivity.
    + apply set_word_length.
    + intros H. apply Hok. unfold mark_slot. simpl.
      apply set_word_ok; [exact H|].
      apply word_ok_lor; [apply word_at_ok; exact H|apply word_ok_bit].
Qed.

Lemma compute_longest_gap_range lg w :
  0 <= lg <= 64 -> word_ok w ->
  lg <= compute_longest_gap lg w <= 64.
Proof.
  intros Hlg [Hw0 Hw]. unfold compute_longest_gap, number_of_bits.
  destruct (lg =? 64); [lia|].
  destruct (Z.eqb_spec w 0) as [|Hne]; [lia|].
  destruct (w =? ULLONG_MAX); [lia|].
  destruct w as [|p|p]; [contradiction| |lia].
  assert (Hlog : 0 <= Z.log2 (Zpos p) < 64).
  { split; [apply Z.log2_nonneg|]. apply Z.log2_lt_pow2; lia. }
  unfold gap_loop, clzll.
  pose proof (gap_loop_pos_spec p (Z.max lg (63 - Z.log2 (Zpos p))))
    as (Hge & _ & Hex). cbn zeta in Hge, Hex.
  destruct Hex as [Heq|(i & Hi & Hir & _)]; lia.
Qed.

(** [k] flushed words add [64 * k] to the expected count and at most as
    much to the received one, both as [int]s; the cumulative counters wait
    for the end of the loop. *)
Lemma iter_flush_word k : forall i b,
  Forall word_ok (packets b) -> 0 <= longest_gap b <= 64 ->
  let b' := iter_u16 k i number_word_bits flush_word b in
  store b' = store b /\ flags b' = flags b /\
  last_report_seq b' = last_report_seq b /\
  last_display_ts b' = last_display_ts b /\
  received_pkts_cum b' = received_pkts_cum b /\
  expected_pkts_cum b' = expected_pkts_cum b /\
  ((0 < k)%nat ->
     expected_pkts b' = i32 (expected_pkts b + 64 * Z.of_nat k) /\
     exists rn, 0 <= rn <= 64 * Z.of_nat k /\
       received_pkts b' = i32 (received_pkts b + rn)) /\
  expected_pkts b' mod 64 = expected_pkts b mod 64 /\
  longest_gap b <= longest_gap b' <= 64 /\
  length (packets b') = length (packets b) /\
  Forall word_ok (packets b').
Proof.
  induction k as [|k IH]; intros i b Hpk Hlg; cbn zeta.
  - simpl. repeat split; try reflexivity; try lia; exact Hpk.
  - simpl iter_u16.
    pose proof (popcountll_range (word_at (packets b) (i / number_word_bits)))
      as Hpop.
    pose proof (compute_longest_gap_range (longest_gap b)
                  (word_at (packets b) (i / number_word_bits)) Hlg
                  (word_at_ok _ _ Hpk)) as Hgap.
    specialize (IH (u16 (i + number_word_bits)) (flush_word i b)).
    cbn zeta in IH.
    destruct IH as (Hs & Hf & Hl & Hd & Hrc & Hec & Hcnt & Hm & Hg
                    & Hlen & Hok).
    { unfold flush_word. simpl. apply set_word_ok; [exact Hpk|].
      unfold word_ok. lia. }
    { unfold flush_word. simpl. lia. }
    rewrite Hs, Hf, Hl, Hd, Hrc, Hec, Hm, Hlen.
    do 6 (split; [reflexivity|]).
    split; [intros _|].
    { unfold number_word_bits in Hpop.
      destruct k as [|k].
      - unfold iter_u16, flush_word, number_word_bits. simpl.
        split; [reflexivity|].
        exists (popcountll (word_at (packets b) (i / 64))).
        split; [lia|reflexivity].
      - destruct (Hcnt ltac:(lia)) as (He & rn & Hrn & Hr).
        rewrite He, Hr.
        change (expected_pkts (flush_word i b))
          with (i32 (expected_pkts b + 64)).
        change (received_pkts (flush_word i b))
          with (i32 (received_pkts b
                     + popcountll (word_at (packets b) (i / 64)))).
        rewrite !i32_add_l. unfold number_word_bits in *. split.
        + f_equal. lia.
        + exists (popcountll (word_at (packets b) (i / 64)) + rn).
          split; [lia|]. f_equal. lia. }
    unfold flush_word in Hg |- *. simpl in Hg |- *.
    unfold number_word_bits in *.
    split; [rewrite i32_mod64; Z.div_mod_to_equations; lia|].
    split; [lia|]. split; [apply set_word_length|exact Hok].
Qed.

Lemma counters_eq b b' :
  counters b' = counters b ->
  received_pkts b' = received_pkts b /\ expected_pkts b' = expected_pkts b /\
  received_pkts_cum b' = received_pkts_cum b /\
  expected_pkts_cum b' = expected_pkts_cum b /\
  longest_gap b' = longest_gap b /\ last_display_ts b' = last_display_ts b.
Proof. unfold counters. intros H. injection H. auto 10. Qed.

Lemma store_eq b b' :
  store b' = store b ->
  frames b' = frames b /\ playout_delay_us b' = playout_delay_us b.
Proof.
  intros H. split; [exact (f_equal fst H)|exact (f_equal snd H)].
Qed.

Lemma stats_init_spec b pkt :
  stats_ok b -> wf_packet pkt ->
  exists b1, stats_init b pkt = Some b1 /\
    stats_ok b1 /\ cursor_aligned b1 /\
    store b1 = store b /\ counters b1 = counters b /\ flags b1 = flags b /\
    (last_report_seq b <> -1 -> b1 = b) /\
    (last_report_seq b = -1 ->
     last_report_seq b1 = Pkt.seq pkt / STATS_INTERVAL * STATS_INTERVAL).
Proof.
  intros (Hcur & Hlen & Hpk & Hlg & Hw64) [Hts Hseq].
  unfold stats_init.
  destruct (Z.eqb_spec (last_report_seq b) (-1)) as [Hinit|Hset].
  - set (b0 := with_last_report_seq
                 (Pkt.seq pkt / STATS_INTERVAL * STATS_INTERVAL) b).
    assert (Hb0 : last_report_seq b0
                  = Pkt.seq pkt / STATS_INTERVAL * STATS_INTERVAL)
      by reflexivity.
    unfold STATS_INTERVAL in *.
    assert (Hk : 0 <= Pkt.seq pkt mod 128 < 128)
      by (apply Z.mod_pos_bound; lia).
    assert (Hal : 0 <= Pkt.seq pkt / 128 * 128 < 65536
                  /\ (Pkt.seq pkt / 128 * 128) mod 128 = 0).
    { split; [|apply Z.mod_mul; lia]. Z.div_mod_to_equations. lia. }
    rewrite (for_u16_iter mark_slot 1 (Pkt.seq pkt) ltac:(lia)
               (Z.to_nat (Pkt.seq pkt mod 128))).
    + pose proof (iter_mark_slot (Z.to_nat (Pkt.seq pkt mod 128))
                    (u16 (last_report_seq b0)) b0) as H.
      cbn zeta in H. destruct H as (Hs & Hc & Hf & Hl & Hlen' & Hok).
      eexists. split; [reflexivity|].
      assert (Hcur1 : cursor_aligned
                (iter_u16 (Z.to_nat (Pkt.seq pkt mod 128))
                   (u16 (last_report_seq b0)) 1 mark_slot b0)).
      { unfold cursor_aligned, STATS_INTERVAL. rewrite Hl, Hb0. exact Hal. }
      split; [|split; [exact Hcur1|]].
      * destruct (counters_eq _ _ Hc) as (E1 & E2 & E3 & E4 & E5 & E6).
        unfold stats_ok. rewrite Hlen', E2, E5.
        split; [right; exact Hcur1|].
        split; [exact Hlen|]. split; [apply Hok; exact Hpk|].
        unfold b0. simpl. auto.
      * rewrite Hs, Hc, Hf, Hl, Hb0. unfold b0, store, counters, flags. simpl.
        repeat split; try reflexivity. congruence.
    + apply u16_range.
    + lia.
    + rewrite Hb0, Z2Nat.id by lia. unfold u16.
      rewrite (Z.mod_small (Pkt.seq pkt / 128 * 128)) by lia.
      rewrite Z.mod_small; Z.div_mod_to_equations; lia.
    + unfold U16_ROUNDS. lia.
  - destruct Hcur as [Hcur|Hcur]; [contradiction|].
    exists b. split; [reflexivity|]. split; [unfold stats_ok; tauto|].
    split; [exact Hcur|]. repeat split; try reflexivity. contradiction.
Qed.

Lemma stats_mark_spec b pkt :
  stats_ok b ->
  stats_ok (stats_mark b pkt) /\
  store (stats_mark b pkt) = store b /\
  counters (stats_mark b pkt) = counters b /\
  last_report_seq (stats_mark b pkt) = last_report_seq b.
Proof.
  intros (Hcur & Hlen & Hpk & Hlg & Hw64).
  split; [|repeat split; reflexivity].
  unfold stats_ok, stats_mark. simpl.
  rewrite set_word_length.
  split; [exact Hcur|]. split; [exact Hlen|].
  split; [|auto].
  apply set_word_ok; [exact Hpk|].
  apply word_ok_lor; [apply word_at_ok; exact Hpk|apply word_ok_bit].
Qed.

Lemma flush_due_elapsed b pkt :
  flush_due b pkt = false ->
  elapsed (last_report_seq b) (Pkt.seq pkt) = 0.
Proof.
  unfold flush_due, elapsed. cbn zeta. intros H.
  destruct (Z.ltb_spec (u16 (Pkt.seq pkt - last_report_seq b))
              (STATS_INTERVAL * 2)) as [_|Hge]; [reflexivity|].
  rewrite Z.geb_leb in H. apply Z.leb_gt in H. lia.
Qed.

(** The cursor arithmetic of the flush: from an aligned cursor, the exit
    value of the loop lies [elapsed] sequence numbers ahead on the circle,
    a whole number of words and less than one turn. *)
Lemma report_seq_until_elapsed cursor sq :
  0 <= cursor < 65536 -> cursor mod 128 = 0 -> 0 <= sq < 65536 ->
  256 <= u16 (sq - cursor) ->
  let n := 128 * (u16 (sq - cursor) / 128 - 1) in
  128 <= n < 65536 - 128 /\ n mod 128 = 0 /\
  u16 (sq / 128 * 128 - 128) = u16 (cursor + n).
Proof.
  intros Hc Hal Hs Hd. cbn zeta. unfold u16 in *.
  split; [Z.div_mod_to_equations; lia|].
  split; [rewrite Z.mul_comm; apply Z.mod_mul; lia|].
  Z.div_mod_to_equations. lia.
Qed.

Lemma stats_flush_spec b pkt :
  stats_ok b -> cursor_aligned b -> wf_packet pkt ->
  let n := elapsed (last_report_seq b) (Pkt.seq pkt) in
  exists b', stats_flush b pkt = Some b' /\
    stats_ok b' /\ cursor_aligned b' /\
    store b' = store b /\ flags b' = flags b /\
    last_display_ts b' = last_display_ts b /\
    last_report_seq b' = u16 (last_report_seq b + n) /\
    longest_gap b <= longest_gap b' /\
    (flush_due b pkt = true ->
       0 < n /\
       expected_pkts b' = i32 (expected_pkts b + n) /\
       (exists rn, 0 <= rn <= n /\
          received_pkts b' = i32 (received_pkts b + rn)) /\
       received_pkts_cum b' = i64 (received_pkts_cum b + received_pkts b') /\
       expected_pkts_cum b' = i64 (expected_pkts_cum b + expected_pkts b')) /\
    (flush_due b pkt = false -> n = 0 /\ b' = b).
Proof.
  intros Hok [Hc Hal] [Hts Hseq]. cbn zeta.
  pose proof Hok as (Hcur & Hlen & Hpk & Hlg & Hw64).
  unfold stats_flush. destruct (flush_due b pkt) eqn:Hdue.
  - assert (Hd : 256 <= u16 (Pkt.seq pkt - last_report_seq b)).
    { unfold flush_due, STATS_INTERVAL in Hdue.
      apply Z.geb_le in Hdue. lia. }
    unfold STATS_INTERVAL in Hal.
    pose proof (report_seq_until_elapsed _ _ Hc Hal Hseq Hd) as H.
    cbn zeta in H. destruct H as (Hn & Hnal & Huntil).
    assert (Hel : elapsed (last_report_seq b) (Pkt.seq pkt)
                  = 128 * (u16 (Pkt.seq pkt - last_report_seq b) / 128 - 1)).
    { unfold elapsed, STATS_INTERVAL. cbn zeta.
      destruct (Z.ltb_spec (u16 (Pkt.seq pkt - last_report_seq b)) (128 * 2));
        [lia|reflexivity]. }
    rewrite Hel. clear Hel.
    set (n := 128 * (u16 (Pkt.seq pkt - last_report_seq b) / 128 - 1)) in *.
    rewrite (for_u16_iter flush_word number_word_bits (report_seq_until pkt)
               ltac:(unfold number_word_bits; lia) (Z.to_nat (n / 64))).
    + pose proof (iter_flush_word (Z.to_nat (n / 64))
                    (u16 (last_report_seq b)) b Hpk Hlg) as H.
      cbn zeta in H.
      destruct H as (Hs & Hf & Hl & Hdts & Hrc & Hec & Hcnt & Hm
                     & Hg & Hlen' & Hok').
      assert (H64 : 64 * Z.of_nat (Z.to_nat (n / 64)) = n).
      { rewrite Z2Nat.id by (Z.div_mod_to_equations; lia).
        Z.div_mod_to_equations. lia. }
      destruct Hcnt as (He & rn & Hrn & Hr).
      { apply Nat2Z.inj_lt. change (Z.of_nat 0) with 0.
        rewrite Z2Nat.id by (Z.div_mod_to_equations; lia).
        Z.div_mod_to_equations. lia. }
      rewrite H64 in He, Hrn.
      eexists. split; [reflexivity|].
      unfold stats_ok, cursor_aligned, flush_close, store, flags. simpl.
      unfold store, flags in Hs, Hf. injection Hs as Hs1 Hs2.
      injection Hf as Hf1 Hf2.
      rewrite Hs1, Hs2, Hf1, Hf2, Hdts, Hrc, Hec, He, Hlen'.
      unfold report_seq_until, STATS_INTERVAL. rewrite Huntil.
      pose proof (u16_range (last_report_seq b + n)) as Hrange.
      assert (Hal' : u16 (last_report_seq b + n) mod 128 = 0).
      { unfold u16. Z.div_mod_to_equations. lia. }
      unfold number_word_bits in *.
      assert (Hw64' : i32 (expected_pkts b + n) mod 64 = 0).
      { rewrite i32_mod64. clear - Hw64 Hnal. clearbody n.
        Z.div_mod_to_equations. lia. }
      repeat split; try reflexivity; try lia; try assumption;
        try discriminate.
      exists rn. split; [exact Hrn|exact Hr].
    + apply u16_range.
    + unfold number_word_bits.
      rewrite Z2Nat.id by (Z.div_mod_to_equations; lia).
      Z.div_mod_to_equations. lia.
    + unfold report_seq_until, STATS_INTERVAL, number_word_bits.
      rewrite Huntil, u16_add_l. f_equal.
      rewrite Z2Nat.id by (Z.div_mod_to_equations; lia).
      Z.div_mod_to_equations. lia.
    + unfold U16_ROUNDS. apply Z2Nat.inj_le; [Z.div_mod_to_equations; lia|lia|].
      Z.div_mod_to_equations. lia.
  - rewrite (flush_due_elapsed _ _ Hdue).
    exists b. split; [reflexivity|].
    split; [exact Hok|]. split; [split; assumption|].
    rewrite Z.add_0_r, u16_small by lia.
    repeat split; try reflexivity; try lia; discriminate.
Qed.

(** A flush is its loop run over the whole intervals but the last. *)
Lemma stats_flush_iter b pkt :
  cursor_aligned b -> wf_packet pkt -> flush_due b pkt = true ->
  let d := u16 (Pkt.seq pkt - last_report_seq b) in
  let n := 128 * (d / 128 - 1) in
  256 <= d /\
  stats_flush b pkt =
    Some (flush_close (report_seq_until pkt)
            (iter_u16 (Z.to_nat (n / 64)) (u16 (last_report_seq b))
               number_word_bits flush_word b)).
Proof.
  intros [Hc Hal] [Hts Hseq] Hdue. cbn zeta.
  assert (Hd : 256 <= u16 (Pkt.seq pkt - last_report_seq b)).
  { unfold flush_due, STATS_INTERVAL in Hdue. apply Z.geb_le in Hdue. lia. }
  split; [exact Hd|].
  unfold STATS_INTERVAL in Hal.
  pose proof (report_seq_until_elapsed _ _ Hc Hal Hseq Hd) as H.
  cbn zeta in H. destruct H as (Hn & Hnal & Huntil).
  set (n := 128 * (u16 (Pkt.seq pkt - last_report_seq b) / 128 - 1)) in *.
  unfold stats_flush. rewrite Hdue.
  rewrite (for_u16_iter flush_word number_word_bits (report_seq_until pkt)
             ltac:(unfold number_word_bits; lia) (Z.to_nat (n / 64))).
  - reflexivity.
  - apply u16_range.
  - unfold number_word_bits.
    rewrite Z2Nat.id by (Z.div_mod_to_equations; lia).
    Z.div_mod_to_equations. lia.
  - unfold report_seq_until, STATS_INTERVAL, number_word_bits.
    rewrite Huntil, u16_add_l. f_equal.
    rewrite Z2Nat.id by (Z.div_mod_to_equations; lia).
    Z.div_mod_to_equations. lia.
  - unfold U16_ROUNDS. apply Z2Nat.inj_le; [Z.div_mod_to_equations; lia|lia|].
    Z.div_mod_to_equations. lia.
Qed.

Lemma stats_report_spec b pkt :
  stats_ok b ->
  let b' := fst (stats_report b pkt) in
  stats_ok b' /\ store b' = store b /\
  last_report_seq b' = last_report_seq b /\
  received_pkts_cum b' = received_pkts_cum b /\
  expected_pkts_cum b' = expected_pkts_cum b /\
  (report_due b pkt = false -> stats_report b pkt = (b, None)) /\
  (report_due b pkt = true ->
     received_pkts b' = 0 /\ expected_pkts b' = 0 /\ longest_gap b' = 0 /\
     exists r, snd (stats_report b pkt) = Some r /\
       rep_received r = received_pkts b /\ rep_expected r = expected_pkts b /\
       rep_max_loss r = longest_gap b /\ rep_dups r = dups b).
Proof.
  intros (Hcur & Hlen & Hpk & Hlg & Hw64). cbn zeta.
  unfold stats_report. destruct (report_due b pkt).
  - unfold stats_ok. simpl.
    split; [repeat split; try tauto; lia|].
    do 4 (split; [reflexivity|]).
    split; [discriminate|]. intros _.
    do 3 (split; [reflexivity|]).
    eexists. split; [reflexivity|]. simpl. tauto.
  - simpl. unfold stats_ok.
    split; [tauto|]. do 4 (split; [reflexivity|]).
    split; [reflexivity|discriminate].
Qed.

(** ** The packet list of a frame *)

Lemma i16_flip a b : 0 < i16 (a - b) -> i16 (b - a) < 0.
Proof. unfold i16. intros H. Z.div_mod_to_equations. lia. Qed.

Lemma i16_zero a b :
  0 <= a < 65536 -> 0 <= b < 65536 -> i16 (a - b) = 0 -> a = b.
Proof. unfold i16. intros Ha Hb H. Z.div_mod_to_equations. lia. Qed.

Lemma i16_refl a : i16 (a - a) = 0.
Proof. rewrite Z.sub_diag. reflexivity. Qed.

Lemma file_coded_unit_hd tmp x l :
  HdRel (fun x y => precedes (seqno y) (seqno x)) x l ->
  precedes (seqno tmp) (seqno x) ->
  HdRel (fun x y => precedes (seqno y) (seqno x)) x (file_coded_unit tmp l).
Proof.
  intros Hhd Htmp. destruct l as [|c nxt]; simpl.
  - constructor. exact Htmp.
  - destruct (i16 (seqno tmp - seqno c) <? 0).
    + constructor. inversion Hhd. assumption.
    + destruct (i16 (seqno tmp - seqno c) >? 0).
      * constructor. exact Htmp.
      * exact Hhd.
Qed.

(** Filing a packet keeps the list in descending order. *)
Lemma file_coded_unit_descending tmp l :
  descending l -> descending (file_coded_unit tmp l).
Proof.
  unfold descending. induction l as [|c nxt IH]; intros Hs; simpl.
  - repeat constructor.
  - inversion Hs as [|? ? Hnxt Hhd]; subst.
    destruct (Z.ltb_spec (i16 (seqno tmp - seqno c)) 0) as [Hlt|Hge].
    + constructor; [apply IH; exact Hnxt|].
      apply file_coded_unit_hd; [exact Hhd|exact Hlt].
    + destruct (Z.gtb_spec (i16 (seqno tmp - seqno c)) 0) as [Hgt|Hle].
      * constructor; [exact Hs|]. constructor.
        unfold precedes. apply i16_flip. lia.
      * exact Hs.
Qed.

Lemma file_coded_unit_nonempty tmp l : file_coded_unit tmp l <> [].
Proof.
  destruct l as [|c nxt]; simpl; [discriminate|].
  destruct (i16 (seqno tmp - seqno c) <? 0); [discriminate|].
  destruct (i16 (seqno tmp - seqno c) >? 0); discriminate.
Qed.

Lemma add_coded_unit_ok node pkt :
  frame_ok node -> rtp_timestamp node = Pkt.ts pkt ->
  exists node', add_coded_unit node pkt = Some node' /\
    frame_ok node' /\ same_schedule node node' /\
    mbit node' = Z.lor (mbit node) (Z.b2z (Pkt.m pkt)).
Proof.
  intros [Hne Hdesc] Hts. unfold add_coded_unit.
  rewrite Hts, Z.eqb_refl. simpl negb. cbv iota.
  destruct (cdata node) as [|hd cd] eqn:Hcd; [contradiction|].
  simpl seqno.
  destruct (Z.gtb_spec (i16 (Pkt.seq pkt - seqno hd)) 0) as [Hgt|Hle].
  - eexists. split; [reflexivity|]. unfold frame_ok, same_schedule. simpl.
    repeat split; try discriminate; try assumption.
    constructor; [exact Hdesc|]. constructor.
    unfold precedes. apply i16_flip. simpl. lia.
  - eexists. split; [reflexivity|]. unfold frame_ok, same_schedule.
    cbn [cdata with_cdata rtp_timestamp arrival_time playout_time decoded
         completed mbit].
    repeat split; try assumption.
    + apply file_coded_unit_nonempty.
    + apply file_coded_unit_descending. exact Hdesc.
Qed.

(** ** The frame list under pbuf_insert *)

Lemma same_schedule_refl node : same_schedule node node.
Proof. unfold same_schedule. tauto. Qed.

Lemma insert_previous_ok pkt : forall curr,
  Forall frame_ok curr ->
  exists r, insert_previous pkt curr = Some r /\
    Forall frame_ok r /\
    map playout_time r = map playout_time curr /\
    map rtp_timestamp r = map rtp_timestamp curr /\
    map arrival_time r = map arrival_time curr.
Proof.
  induction curr as [|node prv IH]; intros Hok.
  - exists []. simpl. auto.
  - inversion Hok as [|? ? Hnode Hprv]; subst. simpl insert_previous.
    destruct (negb match prv with [] => true | _ => false end
              && (rtp_timestamp node >? Pkt.ts pkt)).
    + destruct (IH Hprv) as (r & -> & Hr & Hp & Ht & Ha).
      exists (node :: r). simpl. rewrite Hp, Ht, Ha.
      split; [reflexivity|]. split; [constructor; assumption|]. auto.
    + destruct (Z.eqb_spec (rtp_timestamp node) (Pkt.ts pkt)) as [Heq|Hne].
      * destruct (add_coded_unit_ok node pkt Hnode Heq)
          as (node' & -> & Hok' & (Ht & Ha & Hp & _) & _).
        exists (node' :: prv). simpl. rewrite Ht, Hp, Ha.
        split; [reflexivity|]. split; [constructor; assumption|]. auto.
      * exists (node :: prv). auto.
Qed.

Lemma create_new_pnode_ok clock pkt delay :
  frame_ok (create_new_pnode clock pkt delay).
Proof.
  unfold frame_ok, create_new_pnode, descending. simpl.
  split; [discriminate|]. repeat constructor.
Qed.

Lemma with_completed_ok c node : frame_ok node -> frame_ok (with_completed c node).
Proof. unfold frame_ok. simpl. tauto. Qed.

Lemma with_decoded_ok d node : frame_ok node -> frame_ok (with_decoded d node).
Proof. unfold frame_ok. simpl. tauto. Qed.

Lemma rev_eq_cons {A : Type} (l : list A) x xs :
  rev l = x :: xs -> l = rev xs ++ [x].
Proof.
  intros H. rewrite <- (rev_involutive l), H. reflexivity.
Qed.

(** pbuf_insert keeps every frame it holds, with its times; the only frame
    it can add is the new tail. *)
Lemma insert_frame_ok e b pkt :
  Forall frame_ok (frames b) ->
  exists fs, insert_frame e b pkt = Some fs /\
    Forall frame_ok fs /\
    map playout_time fs =
      map playout_time (frames b) ++
      (if opens_frame b pkt
       then [playout_time
               (create_new_pnode (now e) pkt (frame_delay_us e b))]
       else []) /\
    map rtp_timestamp fs =
      map rtp_timestamp (frames b) ++
      (if opens_frame b pkt then [Pkt.ts pkt] else []) /\
    map arrival_time fs =
      map arrival_time (frames b) ++
      (if opens_frame b pkt then [now e] else []).
Proof.
  intros Hok. unfold insert_frame, opens_frame.
  destruct (rev (frames b)) as [|last prvs] eqn:Hrev.
  - apply (f_equal (@rev _)) in Hrev. rewrite rev_involutive in Hrev.
    simpl in Hrev. rewrite Hrev.
    eexists. split; [reflexivity|].
    split; [constructor; [apply create_new_pnode_ok|constructor]|]. auto.
  - pose proof (rev_eq_cons _ _ _ Hrev) as Hfs.
    assert (Hok' : Forall frame_ok (last :: prvs)).
    { rewrite <- Hrev. apply Forall_rev. exact Hok. }
    inversion Hok' as [|? ? Hlast Hprvs]; subst.
    destruct (Z.eqb_spec (rtp_timestamp last) (Pkt.ts pkt)) as [Heq|Hne].
    + destruct (add_coded_unit_ok last pkt Hlast Heq)
        as (last' & -> & Hl' & (Ht & Ha & Hp & _) & _).
      assert (Hlt : (rtp_timestamp last <? Pkt.ts pkt) = false)
        by (apply Z.ltb_ge; lia).
      rewrite Hlt, Hfs. simpl.
      eexists. split; [reflexivity|].
      split; [apply Forall_app; split;
              [apply Forall_rev; exact Hprvs|constructor; [exact Hl'|constructor]]|].
      rewrite !map_app. simpl. rewrite Ht, Hp, Ha, !app_nil_r. auto.
    + destruct (Z.ltb_spec (rtp_timestamp last) (Pkt.ts pkt)) as [Hlt|Hge].
      * rewrite Hfs. simpl.
        eexists. split; [reflexivity|].
        split.
        { apply Forall_app. split; [apply Forall_app; split|].
          - apply Forall_rev. exact Hprvs.
          - constructor; [|constructor]. apply with_completed_ok. exact Hlast.
          - constructor; [|constructor]. apply create_new_pnode_ok. }
        rewrite !map_app. simpl. rewrite <- !app_assoc. auto.
      * destruct (frames b) as [|frst rest] eqn:Hfr.
        { destruct (rev prvs); discriminate Hfs. }
        destruct (rtp_timestamp frst >? Pkt.ts pkt).
        { exists (frst :: rest). rewrite !app_nil_r. auto. }
        destruct (insert_previous_ok pkt (last :: prvs) Hok')
          as (r & -> & Hr & Hp & Ht & Ha).
        exists (rev r). split; [reflexivity|].
        split; [apply Forall_rev; exact Hr|].
        rewrite !app_nil_r, Hfs, !map_rev, Hp, Ht, Ha.
        simpl. rewrite !map_app, !map_rev. auto.
Qed.


(** ** The order of the frames *)

Lemma ascending_snoc : forall (l : list Z) x,
  StronglySorted Z.lt l ->
  match rev l with [] => True | y :: _ => y < x end ->
  StronglySorted Z.lt (l ++ [x]).
Proof.
  induction l as [|a l IH]; intros x Hs Hlast; simpl.
  - repeat constructor.
  - inversion Hs as [|? ? Hl Ha]; subst.
    assert (Hax : a < x /\ match rev l with [] => True | y :: _ => y < x end).
    { simpl in Hlast. destruct (rev l) as [|y r] eqn:Hrev; simpl in Hlast.
      - split; [exact Hlast|exact I].
      - split; [|exact Hlast].
        assert (Hy : In y l) by (apply in_rev; rewrite Hrev; left; reflexivity).
        rewrite Forall_forall in Ha. specialize (Ha y Hy). lia. }
    destruct Hax as [Hax Hl'].
    constructor; [apply IH; assumption|].
    apply Forall_app. split; [exact Ha|].
    constructor; [exact Hax|constructor].
Qed.

Lemma ascending_suffix : forall (l1 l2 : list Z),
  StronglySorted Z.lt (l1 ++ l2) -> StronglySorted Z.lt l2.
Proof.
  induction l1 as [|a l1 IH]; intros l2 Hs; simpl in Hs; [exact Hs|].
  inversion Hs; subst. apply IH. assumption.
Qed.

Lemma decode_from_timestamps {D : Type}
    (f : list coded_data -> D -> pbuf_stats -> Z * D) curr_time stats :
  forall curr user,
    map rtp_timestamp (snd (fst (decode_from f curr_time stats user curr)))
      = map rtp_timestamp curr.
Proof.
  induction curr as [|node nxt IH]; intros user; simpl; [reflexivity|].
  specialize (IH user).
  destruct (decode_from f curr_time stats user nxt) as [[ret nxt'] user'].
  destruct ((decoded node =? 0) && (curr_time >? playout_time node)).
  - destruct (frame_complete node).
    + destruct (f (cdata node) user stats) as [ret0 user0]. reflexivity.
    + simpl in *. rewrite IH.
      destruct (curr_time >? playout_time node + one_second); reflexivity.
  - simpl in *. rewrite IH. reflexivity.
Qed.

(** ** Every call returns, and keeps the buffer well formed *)

Lemma collect_statistics_ok b pkt :
  stats_ok b -> wf_packet pkt ->
  exists b' report, collect_statistics b pkt = Some (b', report) /\
    stats_ok b' /\ cursor_aligned b' /\ store b' = store b.
Proof.
  intros Hok Hpkt. unfold collect_statistics.
  destruct (stats_init_spec b pkt Hok Hpkt)
    as (b1 & -> & Hok1 & Hal1 & Hs1 & Hc1 & _).
  destruct (stats_mark_spec b1 pkt Hok1) as (Hok2 & Hs2 & Hc2 & Hl2).
  assert (Hal2 : cursor_aligned (stats_mark b1 pkt)).
  { unfold cursor_aligned. rewrite Hl2. exact Hal1. }
  pose proof (stats_flush_spec (stats_mark b1 pkt) pkt Hok2 Hal2 Hpkt) as H.
  cbn zeta in H.
  destruct H as (b3 & Hfl & Hok3 & Hal3 & Hs3 & _).
  simpl. rewrite Hfl. simpl.
  pose proof (stats_report_spec b3 pkt Hok3) as H. cbn zeta in H.
  destruct H as (Hok4 & Hs4 & Hl4 & _).
  destruct (stats_report b3 pkt) as [b4 report] eqn:Hrep. simpl in *.
  exists b4, report. split; [reflexivity|]. split; [exact Hok4|].
  split; [unfold cursor_aligned; rewrite Hl4; exact Hal3|].
  congruence.
Qed.

Lemma with_frames_stats_ok fs b : stats_ok b -> stats_ok (with_frames fs b).
Proof. unfold stats_ok, cursor_aligned. simpl. tauto. Qed.

Lemma pbuf_insert_ok e b pkt :
  pbuf_ok b -> wf_packet pkt ->
  exists b' report, pbuf_insert e b pkt = Some (b', report) /\
    pbuf_ok b' /\ cursor_aligned b' /\
    playout_delay_us b' = playout_delay_us b /\
    map playout_time (frames b') =
      map playout_time (frames b) ++
      (if opens_frame b pkt
       then [playout_time
               (create_new_pnode (now e) pkt (frame_delay_us e b))]
       else []) /\
    map rtp_timestamp (frames b') =
      map rtp_timestamp (frames b) ++
      (if opens_frame b pkt then [Pkt.ts pkt] else []) /\
    map arrival_time (frames b') =
      map arrival_time (frames b) ++
      (if opens_frame b pkt then [now e] else []).
Proof.
  intros (Hst & Hfr & Hasc) Hpkt. unfold pbuf_insert.
  destruct (collect_statistics_ok b pkt Hst Hpkt)
    as (b1 & report & -> & Hst1 & Hal1 & Hs1).
  unfold store in Hs1. injection Hs1 as Hf1 Hd1.
  assert (Hfr1 : Forall frame_ok (frames b1)) by (rewrite Hf1; exact Hfr).
  destruct (insert_frame_ok e b1 pkt Hfr1) as (fs & Hins & Hfs & Hp & Ht & Ha).
  simpl. rewrite Hins. simpl.
  exists (with_frames fs b1), report. split; [reflexivity|].
  assert (Hts : map rtp_timestamp fs =
                map rtp_timestamp (frames b) ++
                (if opens_frame b pkt then [Pkt.ts pkt] else [])).
  { rewrite Ht. unfold opens_frame. rewrite Hf1. reflexivity. }
  split.
  { split; [apply with_frames_stats_ok; exact Hst1|]. split; [exact Hfs|].
    unfold frames_ascending in *. simpl. rewrite Hts.
    unfold opens_frame.
    destruct (rev (frames b)) as [|last prvs] eqn:Hrev.
    - apply ascending_snoc; [exact Hasc|].
      rewrite <- map_rev, Hrev. exact I.
    - destruct (Z.ltb_spec (rtp_timestamp last) (Pkt.ts pkt)) as [Hlt|Hge].
      + apply ascending_snoc; [exact Hasc|].
        rewrite <- map_rev, Hrev. simpl. exact Hlt.
      + rewrite app_nil_r. exact Hasc. }
  split; [exact Hal1|]. split; [exact Hd1|].
  simpl. rewrite Hp, Hts, Ha. unfold opens_frame, frame_delay_us.
  rewrite Hf1, Hd1. auto.
Qed.

Lemma remove_from_suffix curr_time : forall curr,
  exists evicted, curr = evicted ++ remove_from curr_time curr /\
    Forall (fun node => curr_time > playout_time node
                        /\ frame_complete node = true) evicted.
Proof.
  induction curr as [|node nxt IH].
  - exists []. simpl. auto.
  - simpl.
    destruct ((curr_time >? playout_time node) && frame_complete node) eqn:E.
    + destruct IH as (ev & Heq & Hev). exists (node :: ev).
      split; [simpl; congruence|]. constructor; [|exact Hev].
      apply andb_true_iff in E. destruct E as [E1 E2].
      split; [|exact E2]. apply Z.gtb_gt. exact E1.
    + exists []. simpl. auto.
Qed.

Lemma decode_from_ok {D : Type} (f : list coded_data -> D -> pbuf_stats -> Z * D)
    curr_time stats : forall curr user,
  Forall frame_ok curr ->
  Forall frame_ok (snd (fst (decode_from f curr_time stats user curr))).
Proof.
  induction curr as [|node nxt IH]; intros user Hok; simpl.
  - constructor.
  - inversion Hok as [|? ? Hnode Hnxt]; subst.
    specialize (IH user Hnxt).
    destruct (decode_from f curr_time stats user nxt) as [[ret nxt'] user'].
    destruct ((decoded node =? 0) && (curr_time >? playout_time node)).
    + destruct (frame_complete node).
      * destruct (f (cdata node) user stats) as [ret0 user0]. simpl.
        constructor; [apply with_decoded_ok; exact Hnode|exact Hnxt].
      * simpl. constructor; [|exact IH].
        destruct (curr_time >? playout_time node + one_second);
          [apply with_completed_ok|]; exact Hnode.
    + simpl. constructor; [exact Hnode|exact IH].
Qed.

Lemma pbuf_init_ok : pbuf_ok pbuf_init.
Proof.
  unfold pbuf_ok, stats_ok. split; [|split; constructor].
  split; [left; reflexivity|]. split; [reflexivity|].
  split; [apply Forall_replicate; unfold word_ok; lia|].
  cbn [received_pkts expected_pkts received_pkts_cum expected_pkts_cum
       longest_gap pbuf_init]. repeat split; lia.
Qed.

(** Whatever the calls made on it, a buffer is well formed: its counters
    are ordered, its cursor is aligned once set, and every frame holds a
    non-empty packet list in descending order. *)
Lemma reachable_ok b : reachable b -> pbuf_ok b.
Proof.
  induction 1 as [|e b pkt b' report _ IH Hpkt Hins|D f b t user _ IH
                  |b t _ IH|b d _ IH].
  - apply pbuf_init_ok.
  - destruct (pbuf_insert_ok e b pkt IH Hpkt) as (b2 & r2 & Hins2 & Hok & _).
    congruence.
  - destruct IH as (Hst & Hfr & Hasc). unfold pbuf_decode.
    pose proof (decode_from_ok f t
      {| stat_received_pkts_cum := received_pkts_cum b;
         stat_expected_pkts_cum := expected_pkts_cum b |}
      (frames b) user Hfr) as H.
    pose proof (decode_from_timestamps f t
      {| stat_received_pkts_cum := received_pkts_cum b;
         stat_expected_pkts_cum := expected_pkts_cum b |}
      (frames b) user) as Hts.
    destruct (decode_from f t _ user (frames b)) as [[ret fs] user'].
    simpl in *. split; [apply with_frames_stats_ok; exact Hst|].
    split; [exact H|]. unfold frames_ascending. simpl. rewrite Hts. exact Hasc.
  - destruct IH as (Hst & Hfr & Hasc). unfold pbuf_remove.
    split; [apply with_frames_stats_ok; exact Hst|]. simpl.
    destruct (remove_from_suffix t (frames b)) as (ev & Heq & _).
    unfold frames_ascending in *.
    rewrite Heq in Hfr, Hasc. apply Forall_app in Hfr.
    rewrite map_app in Hasc. apply ascending_suffix in Hasc. tauto.
  - destruct IH as (Hst & Hfr & Hasc).
    unfold pbuf_ok, stats_ok, cursor_aligned in *. simpl. tauto.
Qed.

(** The frame list is always in strictly increasing order of timestamp. *)
Lemma frames_stay_ascending b :
  reachable b -> StronglySorted Z.lt (map rtp_timestamp (frames b)).
Proof.
  intros Hb. destruct (reachable_ok b Hb) as (_ & _ & Hasc). exact Hasc.
Qed.

Lemma pbuf_insert_all_ok : forall calls b,
  pbuf_ok b -> Forall (fun c => wf_packet (snd c)) calls ->
  exists b' reports, pbuf_insert_all b calls = Some (b', reports) /\ pbuf_ok b'.
Proof.
  induction calls as [|[e pkt] rest IH]; intros b Hok Hwf.
  - exists b, []. auto.
  - inversion Hwf as [|? ? Hpkt Hrest]; subst. simpl in Hpkt.
    destruct (pbuf_insert_ok e b pkt Hok Hpkt) as (b1 & r1 & Hins & Hok1 & _).
    destruct (IH b1 Hok1 Hrest) as (b2 & rs & Hall & Hok2).
    exists b2, (option_list r1 ++ rs). simpl. rewrite Hins. simpl.
    rewrite Hall. simpl. auto.
Qed.

Lemma pbuf_insert_all_reachable : forall calls b b' reports,
  reachable b -> Forall (fun c => wf_packet (snd c)) calls ->
  pbuf_insert_all b calls = Some (b', reports) -> reachable b'.
Proof.
  induction calls as [|[e pkt] rest IH]; intros b b' reports Hb Hwf Hrun.
  - simpl in Hrun. congruence.
  - inversion Hwf as [|? ? Hpkt Hrest]; subst. simpl in Hpkt.
    simpl in Hrun.
    destruct (pbuf_insert e b pkt) as [[b1 r1]|] eqn:Hins; [|discriminate].
    simpl in Hrun.
    destruct (pbuf_insert_all b1 rest) as [[b2 rs]|] eqn:Hall; [|discriminate].
    simpl in Hrun. injection Hrun as <- _.
    apply (IH b1 b2 rs); [|exact Hrest|exact Hall].
    apply (reach_insert e b pkt b1 r1); assumption.
Qed.

Lemma run_reachable calls :
  Forall (fun c => wf_packet (snd c)) calls -> reachable (run calls).
Proof.
  intros Hwf. unfold run.
  destruct (pbuf_insert_all pbuf_init calls) as [[b reports]|] eqn:Hrun.
  - apply (pbuf_insert_all_reachable calls pbuf_init b reports);
      [apply reach_init|exact Hwf|exact Hrun].
  - apply reach_init.
Qed.

Lemma wf_burst : forall n ts sq,
  0 <= ts < 4294967296 -> 0 <= sq < 65536 ->
  Forall (fun c => wf_packet (snd c)) (burst n ts sq).
Proof.
  induction n as [|n IH]; intros ts sq Hts Hsq; simpl.
  - constructor.
  - constructor; [split; simpl; lia|].
    apply IH; [exact Hts|apply u16_range].
Qed.

(** ** Lost packets and the longest gap *)

Lemma popcount_fold_app w (l1 l2 : list nat) :
  fold_right (fun i acc => Z.b2z (Z.testbit w (Z.of_nat i)) + acc) 0 (l1 ++ l2)
  = fold_right (fun i acc => Z.b2z (Z.testbit w (Z.of_nat i)) + acc) 0 l1
    + fold_right (fun i acc => Z.b2z (Z.testbit w (Z.of_nat i)) + acc) 0 l2.
Proof. induction l1 as [|i l1 IH]; simpl; [reflexivity|]. rewrite IH. lia. Qed.

Lemma popcount_fold_le w (l : list nat) :
  0 <= fold_right (fun i acc => Z.b2z (Z.testbit w (Z.of_nat i)) + acc) 0 l
    <= Z.of_nat (length l).
Proof.
  induction l as [|i l IH]; simpl fold_right; simpl length; [lia|].
  destruct (Z.testbit w (Z.of_nat i)); simpl Z.b2z; lia.
Qed.

Lemma popcount_fold_zero w (l : list nat) :
  (forall i, In i l -> Z.testbit w (Z.of_nat i) = false) ->
  fold_right (fun i acc => Z.b2z (Z.testbit w (Z.of_nat i)) + acc) 0 l = 0.
Proof.
  induction l as [|i l IH]; intros H; simpl; [reflexivity|].
  rewrite (H i (or_introl eq_refl)), IH; [reflexivity|].
  intros j Hj. apply H. right. exact Hj.
Qed.

(** A word with a run of [n] unset bits has at most [64 - n] bits set. *)
Lemma popcountll_zero_run w i n :
  zero_run w i n -> popcountll w <= 64 - n.
Proof.
  intros (Hi & Hn & Hin & Hrun). unfold popcountll.
  assert (E : 64%nat
              = (Z.to_nat i + (Z.to_nat n + (64 - Z.to_nat i - Z.to_nat n)))%nat)
    by lia.
  rewrite E at 1. rewrite !seq_app, !popcount_fold_app.
  pose proof (popcount_fold_le w (seq 0 (Z.to_nat i))) as H1.
  pose proof (popcount_fold_le w
                (seq (0 + Z.to_nat i + Z.to_nat n)
                   (64 - Z.to_nat i - Z.to_nat n))) as H3.
  rewrite length_seq in H1, H3.
  rewrite (popcount_fold_zero w (seq (0 + Z.to_nat i) (Z.to_nat n))).
  - lia.
  - intros j Hj. apply in_seq in Hj. apply Hrun. lia.
Qed.

(** The gap compute_longest_gap returns is the recorded one or the length
    of a run of unset bits of the word. *)
Lemma compute_longest_gap_attained lg w :
  0 <= lg <= 64 -> word_ok w ->
  compute_longest_gap lg w = lg \/
  exists i, zero_run w i (compute_longest_gap lg w).
Proof.
  intros Hlg [Hw0 Hw]. unfold compute_longest_gap, number_of_bits.
  destruct (Z.eqb_spec lg 64) as [->|Hlg64]; [left; reflexivity|].
  destruct (Z.eqb_spec w 0) as [->|Hne].
  { right. exists 0. repeat split; try lia. intros j _. apply Z.bits_0. }
  destruct (Z.eqb_spec w ULLONG_MAX) as [->|Hwmax]; [left; reflexivity|].
  destruct w as [|p|p]; [lia| |lia].
  assert (Hlog : 0 <= Z.log2 (Zpos p) < 64).
  { split; [apply Z.log2_nonneg|]. apply Z.log2_lt_pow2; lia. }
  unfold gap_loop, clzll.
  pose proof (gap_loop_pos_spec p (Z.max lg (63 - Z.log2 (Zpos p))))
    as (Hge & _ & Hex). cbn zeta in Hge, Hex.
  set (r := gap_loop_pos (Z.max lg (63 - Z.log2 (Zpos p))) p) in *.
  destruct Hex as [Heq|(i & Hi & Hir & Hrun)].
  - destruct (Z_le_gt_dec (63 - Z.log2 (Zpos p)) lg); [left; lia|].
    right. exists (Z.log2 (Zpos p) + 1). repeat split; try lia.
    intros j Hj. apply Z.bits_above_log2; lia.
  - right. exists i. repeat split; try lia. exact Hrun.
Qed.

Lemma compute_longest_gap_lost lg w :
  0 <= lg <= 64 -> word_ok w ->
  compute_longest_gap lg w <= Z.max lg (64 - popcountll w).
Proof.
  intros Hlg Hw.
  destruct (compute_longest_gap_attained lg w Hlg Hw) as [->|(i & Hrun)];
    [lia|].
  apply popcountll_zero_run in Hrun. lia.
Qed.

(** ** What a flush reads and leaves *)

Lemma window_words_length k i pk : length (window_words k i pk) = k.
Proof. unfold window_words. rewrite length_map, length_seq. reflexivity. Qed.

Lemma window_words_ok k i pk :
  Forall word_ok pk -> Forall word_ok (window_words k i pk).
Proof.
  intros Hpk. unfold window_words. apply Forall_forall. intros w Hw.
  apply in_map_iff in Hw. destruct Hw as (j & <- & _).
  apply word_at_ok. exact Hpk.
Qed.

(** The loop reads each word before it clears it, and no word twice. *)
Lemma window_words_step k i pk :
  0 <= i < 65536 -> i mod 64 = 0 -> (Datatypes.S k <= 1024)%nat ->
  window_words (Datatypes.S k) i pk
  = word_at pk (i / number_word_bits)
    :: window_words k (u16 (i + number_word_bits))
         (set_word pk (i / number_word_bits) 0).
Proof.
  intros Hi Hal Hk. unfold window_words, number_word_bits.
  rewrite <- cons_seq, <- seq_shift, map_cons, map_map. f_equal.
  - change (Z.of_nat 0) with 0.
    rewrite Z.mul_0_r, Z.add_0_r, u16_small by lia. reflexivity.
  - apply map_ext_in. intros j Hj. apply in_seq in Hj.
    rewrite u16_add_l.
    replace (i + 64 + 64 * Z.of_nat j)
      with (i + 64 * Z.of_nat (Datatypes.S j)) by lia.
    symmetry. apply word_at_set_other.
    + Z.div_mod_to_equations. lia.
    + unfold u16. Z.div_mod_to_equations. lia.
    + unfold u16. Z.div_mod_to_equations. lia.
Qed.

Lemma received_in_range ws :
  0 <= received_in ws <= 64 * Z.of_nat (length ws).
Proof.
  induction ws as [|w ws IH]; simpl received_in; simpl length; [lia|].
  pose proof (popcountll_range w). lia.
Qed.

(** The longest gap after a list of words is within the packets lost. *)
Lemma gap_over_lost : forall ws lg lost,
  0 <= lg <= 64 -> lg <= lost -> Forall word_ok ws ->
  0 <= gap_over lg ws <= 64 /\
  gap_over lg ws <= lost + 64 * Z.of_nat (length ws) - received_in ws.
Proof.
  induction ws as [|w ws IH]; intros lg lost Hlg Hlost Hws.
  - unfold gap_over. simpl. lia.
  - inversion Hws as [|? ? Hw Hrest]; subst.
    pose proof (compute_longest_gap_range lg w Hlg Hw) as Hrange.
    pose proof (compute_longest_gap_lost lg w Hlg Hw) as Hloss.
    pose proof (popcountll_range w) as Hpop.
    change (gap_over lg (w :: ws))
      with (gap_over (compute_longest_gap lg w) ws).
    destruct (IH (compute_longest_gap lg w) (lost + 64 - popcountll w)
                ltac:(lia) ltac:(lia) Hrest) as [H1 H2].
    split; [exact H1|]. simpl received_in. simpl length. lia.
Qed.

(** The flush loop in full: the bitmap it leaves, the gap it records and
    the bits it counts. *)
Lemma iter_flush_exact k : forall i b,
  0 <= i < 65536 -> i mod 64 = 0 -> (k <= 1024)%nat ->
  let b' := iter_u16 k i number_word_bits flush_word b in
  packets b' = clear_words k i (packets b) /\
  longest_gap b' = gap_over (longest_gap b) (window_words k i (packets b)) /\
  ((0 < k)%nat ->
   received_pkts b'
   = i32 (received_pkts b + received_in (window_words k i (packets b)))).
Proof.
  induction k as [|k IH]; intros i b Hi Hal Hk; cbn zeta.
  - simpl. split; [reflexivity|]. split; [reflexivity|]. lia.
  - rewrite (window_words_step k i (packets b) Hi Hal Hk).
    simpl iter_u16. simpl clear_words.
    assert (Hi' : 0 <= u16 (i + number_word_bits) < 65536) by apply u16_range.
    assert (Hal' : u16 (i + number_word_bits) mod 64 = 0).
    { unfold u16, number_word_bits. Z.div_mod_to_equations. lia. }
    specialize (IH (u16 (i + number_word_bits)) (flush_word i b) Hi' Hal'
                  ltac:(lia)).
    cbn zeta in IH. destruct IH as (Hp & Hg & Hr).
    split; [exact Hp|]. split; [exact Hg|]. intros _.
    destruct k as [|k].
    + unfold window_words. simpl map. simpl iter_u16.
      change (received_pkts (flush_word i b))
        with (i32 (received_pkts b
                   + popcountll (word_at (packets b) (i / number_word_bits)))).
      f_equal. simpl received_in. lia.
    + rewrite (Hr ltac:(lia)).
      change (received_pkts (flush_word i b))
        with (i32 (received_pkts b
                   + popcountll (word_at (packets b) (i / number_word_bits)))).
      change (packets (flush_word i b))
        with (set_word (packets b) (i / number_word_bits) 0).
      rewrite i32_add_l. f_equal. simpl received_in. lia.
Qed.

(** The statistics of one call on a buffer whose cursor is set, up to the
    state the report is read from: what the flush read, what it left, and
    what it added to the counters. *)
Lemma collect_statistics_exact b pkt :
  stats_ok b -> cursor_aligned b -> wf_packet pkt ->
  let n := elapsed (last_report_seq b) (Pkt.seq pkt) in
  let ws := flushed b pkt in
  exists b3,
    collect_statistics b pkt = Some (stats_report b3 pkt) /\
    stats_ok b3 /\ cursor_aligned b3 /\
    store b3 = store b /\ flags b3 = flags (stats_mark b pkt) /\
    last_display_ts b3 = last_display_ts b /\
    last_report_seq b3 = u16 (last_report_seq b + n) /\
    packets b3 = clear_words (flush_rounds b pkt) (last_report_seq b)
                   (marked b pkt) /\
    longest_gap b3 = gap_over (longest_gap b) ws /\
    Forall word_ok ws /\ 64 * Z.of_nat (length ws) = n /\
    0 <= received_in ws <= n /\
    (flush_due b pkt = true ->
       0 < n /\
       received_pkts b3 = i32 (received_pkts b + received_in ws) /\
       expected_pkts b3 = i32 (expected_pkts b + n) /\
       received_pkts_cum b3 = i64 (received_pkts_cum b + received_pkts b3) /\
       expected_pkts_cum b3 = i64 (expected_pkts_cum b + expected_pkts b3)) /\
    (flush_due b pkt = false -> n = 0 /\ tally b3 = tally b).
Proof.
  intros Hst Hal Hpkt. cbn zeta.
  pose proof Hal as [Hc Hal128]. pose proof Hpkt as [_ Hseq].
  unfold collect_statistics, stats_init.
  destruct (Z.eqb_spec (last_report_seq b) (-1)) as [Hneg|_]; [lia|].
  simpl.
  destruct (stats_mark_spec b pkt Hst) as (Hst2 & Hs2 & Hc2 & Hl2).
  assert (Hal2 : cursor_aligned (stats_mark b pkt)).
  { unfold cursor_aligned. rewrite Hl2. exact Hal. }
  pose proof (stats_flush_spec (stats_mark b pkt) pkt Hst2 Hal2 Hpkt) as H.
  cbn zeta in H. rewrite Hl2 in H.
  destruct H as (b3 & Hfl & Hst3 & Hal3 & Hs3 & Hf3 & Hd3 & Hl3 & _
                 & Hdue & Hnot).
  assert (Hfd : flush_due (stats_mark b pkt) pkt = flush_due b pkt)
    by reflexivity.
  rewrite Hfd in Hdue, Hnot.
  destruct (counters_eq _ _ Hc2) as (E1 & E2 & E3 & E4 & E5 & E6).
  rewrite Hfl. simpl. exists b3. split; [reflexivity|].
  split; [exact Hst3|]. split; [exact Hal3|].
  split; [rewrite Hs3; exact Hs2|]. split; [exact Hf3|].
  split; [rewrite Hd3; exact E6|]. split; [exact Hl3|].
  assert (Hpk2 : Forall word_ok (marked b pkt)) by apply Hst2.
  assert (Hws : Forall word_ok (flushed b pkt))
    by (apply window_words_ok; exact Hpk2).
  assert (Hlen : length (flushed b pkt) = flush_rounds b pkt)
    by apply window_words_length.
  pose proof (received_in_range (flushed b pkt)) as Hrin.
  rewrite Hlen in Hrin.
  destruct (flush_due b pkt) eqn:Hdue'.
  - pose proof (stats_flush_iter (stats_mark b pkt) pkt Hal2 Hpkt Hfd) as H.
    cbn zeta in H. destruct H as [Hd256 Hiter].
    rewrite Hiter in Hfl. injection Hfl as Hb3.
    destruct (Hdue eq_refl) as (Hn & He & _ & Hrc & Hec).
    assert (Hel : elapsed (last_report_seq b) (Pkt.seq pkt)
                  = 128 * (u16 (Pkt.seq pkt - last_report_seq b) / 128 - 1)).
    { unfold elapsed, STATS_INTERVAL. cbn zeta.
      rewrite Hl2 in Hd256.
      destruct (Z.ltb_spec (u16 (Pkt.seq pkt - last_report_seq b)) (128 * 2));
        [lia|reflexivity]. }
    assert (Hn64 : elapsed (last_report_seq b) (Pkt.seq pkt) mod 64 = 0).
    { rewrite Hel. Z.div_mod_to_equations. lia. }
    assert (Hnlt : elapsed (last_report_seq b) (Pkt.seq pkt) < 65536).
    { rewrite Hel. pose proof (u16_range (Pkt.seq pkt - last_report_seq b)).
      Z.div_mod_to_equations. lia. }
    assert (H64 : 64 * Z.of_nat (flush_rounds b pkt)
                  = elapsed (last_report_seq b) (Pkt.seq pkt)).
    { unfold flush_rounds, number_word_bits.
      rewrite Z2Nat.id by (Z.div_mod_to_equations; lia).
      Z.div_mod_to_equations. lia. }
    pose proof (iter_flush_exact (flush_rounds b pkt)
                  (u16 (last_report_seq (stats_mark b pkt))) (stats_mark b pkt))
      as Hex.
    cbn zeta in Hex. rewrite Hl2, (u16_small (last_report_seq b)) in Hex by lia.
    destruct Hex as (Hp & Hg & Hr).
    { exact Hc. }
    { unfold STATS_INTERVAL in Hal128. Z.div_mod_to_equations. lia. }
    { unfold flush_rounds, number_word_bits.
      apply Nat2Z.inj_le. rewrite Z2Nat.id by (Z.div_mod_to_equations; lia).
      Z.div_mod_to_equations. lia. }
    assert (Hk : flush_rounds b pkt
                 = Z.to_nat (128 * (u16 (Pkt.seq pkt - last_report_seq b)
                                    / 128 - 1) / 64)).
    { unfold flush_rounds, number_word_bits. rewrite Hel. reflexivity. }
    rewrite <- Hk, (u16_small (last_report_seq b)) in Hb3 by lia.
    subst b3. simpl packets. simpl longest_gap.
    split; [exact Hp|]. split; [rewrite Hg, E5; reflexivity|].
    split; [exact Hws|]. split; [rewrite Hlen; exact H64|].
    split; [rewrite H64 in Hrin; exact Hrin|].
    split; [intros _|discriminate].
    split; [exact Hn|].
    assert (Hpos : (0 < flush_rounds b pkt)%nat) by lia.
    pose proof (iter_flush_word (flush_rounds b pkt) (last_report_seq b)
                  (stats_mark b pkt) Hpk2 ltac:(apply Hst2)) as Hw.
    cbn zeta in Hw. destruct Hw as (_ & _ & _ & _ & Wrc & Wec & Wcnt & _).
    destruct (Wcnt Hpos) as (We & _).
    simpl received_pkts. simpl expected_pkts.
    simpl received_pkts_cum. simpl expected_pkts_cum.
    rewrite Wrc, Wec, E3, E4.
    split; [rewrite (Hr Hpos), E1; reflexivity|].
    split; [rewrite We, E2, H64; reflexivity|].
    split; reflexivity.
  - destruct (Hnot eq_refl) as [Hn0 ->].
    assert (Hk0 : flush_rounds b pkt = 0%nat).
    { unfold flush_rounds. rewrite Hn0. reflexivity. }
    unfold flushed. rewrite Hk0, Hn0. simpl.
    split; [reflexivity|]. split; [exact E5|].
    split; [constructor|]. split; [reflexivity|]. split; [lia|].
    split; [discriminate|]. intros _. split; [reflexivity|].
    unfold tally. simpl. reflexivity.
Qed.

(** ** One call, stage by stage *)

(** A call on a buffer that has seen no packet does what it does on the
    buffer with its cursor just set. *)
Lemma pbuf_insert_after_init e b pkt :
  stats_ok b -> wf_packet pkt ->
  exists b1, stats_init b pkt = Some b1 /\
    pbuf_insert e b pkt = pbuf_insert e b1 pkt /\
    stats_ok b1 /\ cursor_aligned b1 /\ store b1 = store b /\
    counters b1 = counters b /\ flags b1 = flags b /\
    pending b1 pkt = pending b pkt.
Proof.
  intros Hst Hpkt.
  destruct (stats_init_spec b pkt Hst Hpkt)
    as (b1 & Hinit & Hst1 & Hal1 & Hs1 & Hc1 & Hf1 & Hsame & Hfirst).
  exists b1. split; [exact Hinit|].
  assert (Hset : (last_report_seq b1 =? -1) = false).
  { apply Z.eqb_neq. destruct Hal1 as [Hal1 _]. lia. }
  split.
  { unfold pbuf_insert, collect_statistics. rewrite Hinit.
    unfold stats_init. rewrite Hset. reflexivity. }
  do 5 (split; [assumption|]).
  unfold pending. rewrite Hset.
  destruct (Z.eqb_spec (last_report_seq b) (-1)) as [Hneg|Hpos].
  - rewrite (Hfirst Hneg). destruct Hpkt as [_ Hseq].
    unfold elapsed, STATS_INTERVAL, u16. cbn zeta.
    destruct (Z.ltb_spec ((Pkt.seq pkt - Pkt.seq pkt / 128 * 128) mod 65536)
                (128 * 2)) as [|Hge]; [reflexivity|].
    exfalso. Z.div_mod_to_equations. lia.
  - rewrite (Hsame Hpos). reflexivity.
Qed.

Lemma pbuf_insert_of_statistics e b pkt b3 :
  Forall frame_ok (frames b) -> store b3 = store b ->
  collect_statistics b pkt = Some (stats_report b3 pkt) ->
  exists fs,
    pbuf_insert e b pkt
    = Some (with_frames fs (fst (stats_report b3 pkt)),
            snd (stats_report b3 pkt)).
Proof.
  intros Hfr Hs Hcs. unfold pbuf_insert. rewrite Hcs.
  assert (Hfr4 : Forall frame_ok (frames (fst (stats_report b3 pkt)))).
  { destruct (store_eq _ _ Hs) as [F _].
    unfold stats_report. destruct (report_due b3 pkt); simpl; rewrite F;
      exact Hfr. }
  destruct (stats_report b3 pkt) as [b4 report]. simpl in *.
  destruct (insert_frame_ok e b4 pkt Hfr4) as (fs & -> & _).
  exists fs. reflexivity.
Qed.

(** ** Counters that have not wrapped *)

(** A call that fits keeps the counters in order and in range, and the
    cumulative ones do not fall; a report it logs is a sound one. *)
Lemma insert_keeps_counters_ok e b pkt b' report :
  pbuf_ok b -> counters_ok b -> wf_packet pkt -> fits b pkt ->
  pbuf_insert e b pkt = Some (b', report) ->
  counters_ok b' /\
  received_pkts_cum b <= received_pkts_cum b' /\
  expected_pkts_cum b <= expected_pkts_cum b' /\
  match report with
  | None => True
  | Some r => 0 <= rep_received r <= rep_expected r /\
              0 < rep_expected r /\
              rep_lost r = rep_expected r - rep_received r /\
              0 <= rep_max_loss r <= rep_lost r
  end.
Proof.
  intros (Hst & Hfr & Hasc) (Hrx & Hxmax & Hcum & Hcmax & Hgap) Hpkt
    [Hfit Hfitc] Hins.
  destruct (pbuf_insert_after_init e b pkt Hst Hpkt)
    as (b1 & _ & Heq & Hst1 & Hal1 & Hs1 & Hc1 & _ & Hpend).
  rewrite Heq in Hins. rewrite <- Hpend in Hfit, Hfitc.
  assert (Hp1 : pending b1 pkt = elapsed (last_report_seq b1) (Pkt.seq pkt)).
  { unfold pending. destruct Hal1 as [Hal1 _].
    destruct (Z.eqb_spec (last_report_seq b1) (-1)); [lia|reflexivity]. }
  rewrite Hp1 in Hfit, Hfitc.
  destruct (counters_eq _ _ Hc1) as (E1 & E2 & E3 & E4 & E5 & _).
  pose proof (collect_statistics_exact b1 pkt Hst1 Hal1 Hpkt) as H.
  cbn zeta in H.
  destruct H as (b3 & Hcs & Hst3 & _ & Hs3 & _ & _ & _ & _ & Hg3 & Hws & Hlen
                 & Hrin & Hdue & Hnot).
  rewrite E1, E2, E3, E4 in *. rewrite E5 in Hg3.
  unfold gap_ok in Hgap.
  destruct Hst as (_ & _ & _ & Hlg & _).
  destruct (gap_over_lost (flushed b1 pkt) (longest_gap b)
              (expected_pkts b - received_pkts b) Hlg Hgap Hws) as [Hg64 Hglost].
  rewrite Hlen, <- Hg3 in Hglost. rewrite <- Hg3 in Hg64.
  assert (H3 : counters_ok b3 /\
               received_pkts_cum b <= received_pkts_cum b3 /\
               expected_pkts_cum b <= expected_pkts_cum b3).
  { unfold counters_ok, gap_ok, INT_MAX, LLONG_MAX in *.
    destruct (flush_due b1 pkt).
    - destruct (Hdue eq_refl) as (Hn & Hr & Hx & Hrc & Hxc).
      rewrite i32_small in Hr by (unfold INT_MIN, INT_MAX; lia).
      rewrite i32_small in Hx by (unfold INT_MIN, INT_MAX; lia).
      specialize (Hfitc Hn).
      rewrite Hr, i64_small in Hrc by (unfold LLONG_MIN, LLONG_MAX; lia).
      rewrite Hx, i64_small in Hxc by (unfold LLONG_MIN, LLONG_MAX; lia).
      rewrite Hr, Hx, Hrc, Hxc. lia.
    - destruct (Hnot eq_refl) as [Hn0 Ht].
      unfold tally in Ht. injection Ht as -> -> -> ->. lia. }
  destruct H3 as (Hcnt3 & Hrc3 & Hxc3).
  unfold pbuf_insert in Hins. rewrite Hcs in Hins.
  unfold stats_report in Hins.
  destruct (report_due b3 pkt) eqn:Hrep; simpl in Hins.
  - destruct (insert_frame e _ pkt) as [fs|]; [|discriminate Hins].
    simpl in Hins. injection Hins as <- <-.
    unfold report_due in Hrep. apply andb_true_iff in Hrep.
    destruct Hrep as [_ Hpos]. apply Z.gtb_gt in Hpos.
    unfold counters_ok, gap_ok, INT_MAX, LLONG_MAX in *. simpl.
    rewrite i32_small by (unfold INT_MIN, INT_MAX; lia). lia.
  - destruct (insert_frame e b3 pkt) as [fs|]; [|discriminate Hins].
    simpl in Hins. injection Hins as <- <-.
    split; [exact Hcnt3|]. auto.
Qed.

Lemma pbuf_init_counters_ok : counters_ok pbuf_init.
Proof.
  unfold counters_ok, gap_ok, INT_MAX, LLONG_MAX.
  cbn [received_pkts expected_pkts received_pkts_cum expected_pkts_cum
       longest_gap pbuf_init]. lia.
Qed.

(** A state reached without wrapping a counter is a reachable state, and
    its counters are in order. *)
Lemma in_range_ok b : in_range b -> reachable b /\ counters_ok b.
Proof.
  induction 1 as [|e b pkt b' report _ [Hb Hcnt] Hpkt Hfit Hins
                  |D f b t user _ [Hb Hcnt]
                  |b t _ [Hb Hcnt]|b d _ [Hb Hcnt]].
  - split; [apply reach_init|apply pbuf_init_counters_ok].
  - split; [apply (reach_insert e b pkt b' report); assumption|].
    apply (insert_keeps_counters_ok e b pkt b' report); try assumption.
    apply reachable_ok. exact Hb.
  - split; [apply reach_decode; exact Hb|].
    unfold pbuf_decode.
    destruct (decode_from f t _ user (frames b)) as [[ret fs] user'].
    exact Hcnt.
  - split; [apply reach_remove; exact Hb|exact Hcnt].
  - split; [apply reach_set_playout_delay; exact Hb|exact Hcnt].
Qed.

Lemma insert_all_in_range : forall calls b b' reports,
  in_range b -> Forall (fun c => wf_packet (snd c)) calls ->
  fit_along b calls ->
  pbuf_insert_all b calls = Some (b', reports) -> in_range b'.
Proof.
  induction calls as [|[e pkt] rest IH]; intros b b' reports Hb Hwf Hfit Hrun.
  - simpl in Hrun. congruence.
  - inversion Hwf as [|? ? Hpkt Hrest]; subst. simpl in Hpkt.
    simpl in Hrun, Hfit. destruct Hfit as [Hfit Halong].
    destruct (pbuf_insert e b pkt) as [[b1 r1]|] eqn:Hins; [|discriminate].
    simpl in Hrun.
    destruct (pbuf_insert_all b1 rest) as [[b2 rs]|] eqn:Hall; [|discriminate].
    simpl in Hrun. injection Hrun as <- _.
    apply (IH b1 b2 rs); [|exact Hrest|exact Halong|exact Hall].
    apply (range_insert e b pkt b1 r1); assumption.
Qed.

Lemma run_in_range calls :
  Forall (fun c => wf_packet (snd c)) calls ->
  fit_along pbuf_init calls -> in_range (run calls).
Proof.
  intros Hwf Hfit. unfold run.
  destruct (pbuf_insert_all pbuf_init calls) as [[b reports]|] eqn:Hrun.
  - apply (insert_all_in_range calls pbuf_init b reports);
      [apply range_init|exact Hwf|exact Hfit|exact Hrun].
  - apply range_init.
Qed.

(** ** A run that wraps the window counter *)

Lemma pbuf_insert_all_app : forall l1 l2 b b1 r1 b2 r2,
  pbuf_insert_all b l1 = Some (b1, r1) ->
  pbuf_insert_all b1 l2 = Some (b2, r2) ->
  pbuf_insert_all b (l1 ++ l2) = Some (b2, r1 ++ r2).
Proof.
  induction l1 as [|[e pkt] l1 IH]; intros l2 b b1 r1 b2 r2 H1 H2.
  - simpl in H1. injection H1 as <- <-. exact H2.
  - simpl in H1 |- *.
    destruct (pbuf_insert e b pkt) as [[b0 r0]|]; [|discriminate H1].
    simpl in H1 |- *.
    destruct (pbuf_insert_all b0 l1) as [[b1' r1']|] eqn:E; [|discriminate H1].
    simpl in H1. injection H1 as <- <-.
    rewrite (IH l2 b0 b1' r1' b2 r2 E H2). simpl.
    rewrite app_assoc. reflexivity.
Qed.

Lemma wf_swing : forall m sq,
  0 <= sq < 65536 -> Forall (fun c => wf_packet (snd c)) (swing m sq).
Proof.
  induction m as [|m IH]; intros sq Hsq; simpl.
  - constructor.
  - constructor; [split; simpl; lia|]. apply IH, u16_range.
Qed.

Lemma length_swing : forall m sq, length (swing m sq) = m.
Proof. induction m as [|m IH]; intros sq; simpl; [|rewrite IH]; reflexivity. Qed.

(** What the flush of a call of the swing reads and leaves. *)
Lemma swing_flush sq :
  sq = 0 \/ sq = 32768 ->
  let pk := set_word (swing_bitmap sq) (sq / number_word_bits)
              (Z.lor (word_at (swing_bitmap sq) (sq / number_word_bits))
                 (Z.shiftl 1 (sq mod number_word_bits))) in
  elapsed (swing_cursor sq) sq = 32768 /\
  received_in (window_words 512 (swing_cursor sq) pk) = 1 /\
  clear_words 512 (swing_cursor sq) pk = swing_bitmap (u16 (sq + 32768)) /\
  u16 (swing_cursor sq + 32768) = swing_cursor (u16 (sq + 32768)).
Proof. intros [->| ->]; vm_compute; repeat split; reflexivity. Qed.

(** One call of the swing: the bitmap and the cursor change places, no
    report is logged, and the counters make one [swing_step]. *)
Lemma swing_call b sq :
  sq = 0 \/ sq = 32768 -> pbuf_ok b ->
  packets b = swing_bitmap sq -> last_report_seq b = swing_cursor sq ->
  last_display_ts b = 0 ->
  exists b',
    pbuf_insert {| now := 0; offset_ms := None |} b (packet 0 sq false)
      = Some (b', None) /\
    pbuf_ok b' /\
    packets b' = swing_bitmap (u16 (sq + 32768)) /\
    last_report_seq b' = swing_cursor (u16 (sq + 32768)) /\
    last_display_ts b' = 0 /\
    flush_due b (packet 0 sq false) = true /\
    tally b' = swing_step (tally b).
Proof.
  intros Hsq Hok Hpk Hcur Hdts.
  set (e := {| now := 0; offset_ms := None |}).
  set (pkt := packet 0 sq false).
  assert (Hpkt : wf_packet pkt).
  { split; simpl; destruct Hsq as [->| ->]; lia. }
  assert (Hal : cursor_aligned b).
  { unfold cursor_aligned. rewrite Hcur.
    destruct Hsq as [->| ->]; vm_compute; repeat split; congruence. }
  destruct (swing_flush sq Hsq) as (Hel & Hin & Hclear & Hnext).
  cbn zeta in Hin, Hclear.
  destruct Hok as (Hst & Hfr & Hasc).
  pose proof (collect_statistics_exact b pkt Hst Hal Hpkt) as H.
  cbn zeta in H.
  destruct H as (b3 & Hcs & _ & _ & Hs3 & _ & Hd3 & Hl3 & Hp3 & _ & _ & _ & _
                 & Hdue & _).
  assert (Hn : elapsed (last_report_seq b) (Pkt.seq pkt) = 32768)
    by (rewrite Hcur; exact Hel).
  assert (Hrounds : flush_rounds b pkt = 512%nat)
    by (unfold flush_rounds; rewrite Hn; reflexivity).
  assert (Hmarked : marked b pkt
            = set_word (swing_bitmap sq) (sq / number_word_bits)
                (Z.lor (word_at (swing_bitmap sq) (sq / number_word_bits))
                   (Z.shiftl 1 (sq mod number_word_bits)))).
  { unfold marked, stats_mark. simpl packets. rewrite Hpk. reflexivity. }
  assert (Hfd : flush_due b pkt = true).
  { unfold flush_due. rewrite Hcur.
    destruct Hsq as [->| ->]; reflexivity. }
  destruct (Hdue Hfd) as (_ & Hr & Hx & Hrc & Hxc).
  unfold flushed in Hr. rewrite Hrounds, Hmarked, Hcur, Hin in Hr.
  rewrite Hn in Hx, Hl3. rewrite Hrounds, Hmarked, Hcur, Hclear in Hp3.
  rewrite Hcur, Hnext in Hl3. rewrite Hdts in Hd3.
  assert (Hrep : stats_report b3 pkt = (b3, None)).
  { unfold stats_report, report_due. rewrite Hd3. reflexivity. }
  destruct (pbuf_insert_of_statistics e b pkt b3 Hfr Hs3 Hcs) as (fs & Hins).
  rewrite Hrep in Hins. simpl in Hins.
  destruct (pbuf_insert_ok e b pkt (conj Hst (conj Hfr Hasc)) Hpkt)
    as (b'' & r'' & Hins' & Hok' & _).
  rewrite Hins in Hins'. injection Hins' as <- <-.
  exists (with_frames fs b3). split; [exact Hins|]. split; [exact Hok'|].
  split; [exact Hp3|]. split; [exact Hl3|]. split; [exact Hd3|].
  split; [exact Hfd|].
  unfold tally, swing_step. simpl. rewrite Hrc, Hxc, Hr, Hx. reflexivity.
Qed.

Lemma swing_next sq : sq = 0 \/ sq = 32768 ->
  u16 (sq + 32768) = 0 \/ u16 (sq + 32768) = 32768.
Proof. intros [->| ->]; [right|left]; reflexivity. Qed.

(** [m] calls of the swing make [m] steps of the counters. *)
Lemma swing_run : forall m sq b,
  sq = 0 \/ sq = 32768 -> pbuf_ok b ->
  packets b = swing_bitmap sq -> last_report_seq b = swing_cursor sq ->
  last_display_ts b = 0 ->
  exists b',
    pbuf_insert_all b (swing m sq) = Some (b', []) /\
    pbuf_ok b' /\
    packets b' = swing_bitmap (u16 (sq + 32768 * Z.of_nat m)) /\
    last_report_seq b' = swing_cursor (u16 (sq + 32768 * Z.of_nat m)) /\
    last_display_ts b' = 0 /\
    tally b' = Nat.iter m swing_step (tally b).
Proof.
  induction m as [|m IH]; intros sq b Hsq Hok Hpk Hcur Hdts.
  - exists b. simpl swing. simpl Nat.iter.
    change (Z.of_nat 0) with 0. rewrite Z.mul_0_r, Z.add_0_r.
    assert (Hu : u16 sq = sq) by (destruct Hsq as [->| ->]; reflexivity).
    rewrite Hu. auto 10.
  - destruct (swing_call b sq Hsq Hok Hpk Hcur Hdts)
      as (b1 & Hins & Hok1 & Hpk1 & Hcur1 & Hdts1 & _ & Ht1).
    destruct (IH (u16 (sq + 32768)) b1 (swing_next sq Hsq) Hok1 Hpk1 Hcur1 Hdts1)
      as (b' & Hall & Hok' & Hpk' & Hcur' & Hdts' & Ht').
    exists b'. simpl swing. unfold at_time. simpl pbuf_insert_all.
    rewrite Hins. simpl. rewrite Hall. simpl.
    assert (Hu : u16 (u16 (sq + 32768) + 32768 * Z.of_nat m)
                 = u16 (sq + 32768 * Z.of_nat (Datatypes.S m))).
    { rewrite u16_add_l. f_equal. lia. }
    rewrite <- Hu.
    split; [reflexivity|]. split; [exact Hok'|]. split; [exact Hpk'|].
    split; [exact Hcur'|]. split; [exact Hdts'|].
    rewrite Ht', Ht1. symmetry.
    change (Nat.iter (Datatypes.S m) swing_step (tally b)
            = Nat.iter m swing_step (swing_step (tally b))).
    apply Nat.iter_succ_r.
Qed.

(** The opening of the run, and the run as a whole. *)
Lemma swing_open_state :
  exists b,
    pbuf_insert_all pbuf_init swing_open = Some (b, []) /\
    packets b = swing_bitmap 0 /\ last_report_seq b = swing_cursor 0 /\
    last_display_ts b = 0 /\ tally b = (1, 32640, 1, 32640).
Proof.
  eexists. split; [vm_compute; reflexivity|].
  vm_compute. repeat split; reflexivity.
Qed.

Lemma swing_state m :
  pbuf_ok (run (swing_open ++ swing m 0)) /\
  packets (run (swing_open ++ swing m 0))
    = swing_bitmap (u16 (32768 * Z.of_nat m)) /\
  last_report_seq (run (swing_open ++ swing m 0))
    = swing_cursor (u16 (32768 * Z.of_nat m)) /\
  last_display_ts (run (swing_open ++ swing m 0)) = 0 /\
  tally (run (swing_open ++ swing m 0))
    = Nat.iter m swing_step (1, 32640, 1, 32640).
Proof.
  destruct swing_open_state as (b0 & Hopen & Hpk & Hcur & Hdts & Ht).
  assert (Hok0 : pbuf_ok b0).
  { destruct (pbuf_insert_all_ok swing_open pbuf_init pbuf_init_ok)
      as (b0' & rs & Hrun & Hok).
    - repeat (constructor; [split; simpl; lia|]). constructor.
    - rewrite Hopen in Hrun. injection Hrun as <- _. exact Hok. }
  destruct (swing_run m 0 b0 (or_introl eq_refl) Hok0 Hpk Hcur Hdts)
    as (b & Hall & Hok & Hpk' & Hcur' & Hdts' & Ht').
  unfold run.
  rewrite (pbuf_insert_all_app swing_open (swing m 0) pbuf_init b0 [] b []
             Hopen Hall).
  rewrite Z.add_0_l in Hpk', Hcur'. rewrite Ht in Ht'. auto 10.
Qed.

Lemma tally_eq b r x rc xc :
  tally b = (r, x, rc, xc) ->
  received_pkts b = r /\ expected_pkts b = x /\
  received_pkts_cum b = rc /\ expected_pkts_cum b = xc.
Proof. unfold tally. intros H. injection H. auto. Qed.

(** The counters after 65535 calls of the swing, just short of the
    largest [int], and after 65536 calls more. *)
Lemma swing_tally_65535 :
  Nat.iter (Z.to_nat 65535) swing_step (1, 32640, 1, 32640)
  = (65536, 2147483520, 2147516416, 70369809530880).
Proof.
  vm_cast_no_check
    (eq_refl (65536, 2147483520, 2147516416, 70369809530880)).
Qed.

Lemma swing_tally_131071 :
  Nat.iter (Z.to_nat 131071) swing_step (1, 32640, 1, 32640)
  = (131072, -128, 8590000128, 2130706432).
Proof.
  replace (Z.to_nat 131071) with (Z.to_nat 65536 + Z.to_nat 65535)%nat by lia.
  rewrite Nat.iter_add, swing_tally_65535.
  vm_cast_no_check (eq_refl (131072, -128, 8590000128, 2130706432)).
Qed.

(** ** The claims on the statistics *)

(** C5 (as amended). Take a buffer in a state reached without wrapping a
    counter, and insert packets, in whatever order and however often
    repeated, such that every call [fits]: its flush carries the expected
    count of the window no further than [INT_MAX] and the cumulative one
    no further than [LLONG_MAX]. Then every call returns, the state
    reached is again one without a wrapped counter, and the cumulative
    count of received packets is at least 0 and at most the cumulative
    count of expected ones. *)
Theorem received_cum_le_expected_cum (b : pbuf)
    (calls : list (env * rtp_packet)) :
  in_range b ->
  Forall (fun c => wf_packet (snd c)) calls ->
  fit_along b calls ->
  exists b' reports,
    pbuf_insert_all b calls = Some (b', reports) /\
    in_range b' /\
    0 <= received_pkts_cum b' <= expected_pkts_cum b' /\
    0 <= received_pkts b' <= expected_pkts b'.
Proof.
  intros Hb Hwf Hfit.
  destruct (in_range_ok b Hb) as [Hreach _].
  destruct (pbuf_insert_all_ok calls b (reachable_ok b Hreach) Hwf)
    as (b' & reports & Hrun & _).
  exists b', reports. split; [exact Hrun|].
  pose proof (insert_all_in_range calls b b' reports Hb Hwf Hfit Hrun) as Hb'.
  split; [exact Hb'|].
  destruct (in_range_ok b' Hb') as [_ (Hrx & _ & Hcum & _)]. tauto.
Qed.

Lemma received_cum_le_expected_cum_witness :
  exists b' reports,
    pbuf_insert_all pbuf_init
      (map (at_time 0)
         [packet 0 5 false; packet 0 3 false; packet 0 3 false;
          packet 0 300 false; packet 0 4 false; packet 0 600 false;
          packet 0 2 false]) = Some (b', reports) /\
    in_range b' /\
    0 <= received_pkts_cum b' <= expected_pkts_cum b' /\
    0 <= received_pkts b' <= expected_pkts b'.
Proof.
  apply received_cum_le_expected_cum.
  - apply range_init.
  - repeat (constructor; [split; simpl; lia|]). constructor.
  - vm_compute. repeat split; intros; congruence.
Defined.

(** C5, as stated, fails. 131073 packets of one timestamp whose sequence
    numbers swing between 0 and 32768: the second call flushes 32640
    expected packets and every later one 32768, each flush finds the one
    packet of the call before, and no report resets the window. After
    65537 calls the window counts 2147483520 expected packets; the next
    flush wraps the [int] to a negative number, which the flushes from
    then on add to the cumulative counter. After the last call the
    cumulative counters stand at 8590000128 received and 2130706432
    expected. *)
Lemma cumulative_received_passes_expected :
  let calls := swing_open ++ swing (Z.to_nat 131071) 0 in
  Forall (fun c => wf_packet (snd c)) calls /\
  length calls = Z.to_nat 131073 /\
  tally (run calls) = (131072, -128, 8590000128, 2130706432) /\
  expected_pkts_cum (run calls) < received_pkts_cum (run calls).
Proof.
  cbv zeta.
  destruct (swing_state (Z.to_nat 131071)) as (_ & _ & _ & _ & Ht).
  rewrite swing_tally_131071 in Ht.
  split.
  { apply Forall_app. split; [|apply wf_swing; lia].
    repeat (constructor; [split; simpl; lia|]). constructor. }
  split.
  { rewrite length_app, length_swing.
    change (length swing_open) with 2%nat. lia. }
  split; [exact Ht|].
  destruct (tally_eq _ _ _ _ _ Ht) as (_ & _ & Hrc & Hxc).
  rewrite Hrc, Hxc. reflexivity.
Qed.

(** C6. On a buffer whose cursor is set, the distance [d] from the cursor
    to the packet is taken on the 16-bit circle, (uint16_t)(seq - cursor),
    whichever of the two is the larger number. Nothing is flushed while
    [d] is below two intervals, and the window counters stay as they are;
    otherwise the loop ends after the whole intervals but the last,
    [n = 128 * (d / 128 - 1) <= d]: the cursor moves by [n] on the circle,
    and the counters of the window (or of the report they go into) are
    the [int]s that result from adding [n] to the expected count and some
    [rn <= n] to the received one. Where these sums are [int]s, that is
    where the counters were in order and the expected count has room for
    [n], they grow by exactly [n] and [rn]. So a packet just behind the
    boundary followed by one just after it, as in 65534, 65535, 0, 1,
    flushes nothing. ([crossing_run_no_loss] below runs such a stream.) *)
Theorem flush_counts_elapsed_windows e b pkt :
  pbuf_ok b -> cursor_aligned b -> wf_packet pkt ->
  let d := u16 (Pkt.seq pkt - last_report_seq b) in
  let n := if d <? 256 then 0 else 128 * (d / 128 - 1) in
  exists b' report rn,
    pbuf_insert e b pkt = Some (b', report) /\
    0 <= n <= d /\ 0 <= rn <= n /\
    last_report_seq b' = u16 (last_report_seq b + n) /\
    let counted (received expected : Z) : Prop :=
      (n = 0 -> received = received_pkts b /\ expected = expected_pkts b) /\
      (0 < n -> received = i32 (received_pkts b + rn) /\
                expected = i32 (expected_pkts b + n)) /\
      (0 <= received_pkts b <= expected_pkts b ->
       expected_pkts b + n <= INT_MAX ->
       received = received_pkts b + rn /\ expected = expected_pkts b + n) in
    match report with
    | None => counted (received_pkts b') (expected_pkts b')
    | Some r => counted (rep_received r) (rep_expected r)
    end.
Proof.
  intros (Hst & Hfr & Hasc) Hal Hpkt. cbn zeta.
  pose proof (collect_statistics_exact b pkt Hst Hal Hpkt) as H.
  cbn zeta in H.
  destruct H as (b3 & Hcs & _ & _ & Hs3 & _ & _ & Hl3 & _ & _ & _ & _ & Hrin
                 & Hdue & Hnot).
  destruct (pbuf_insert_of_statistics e b pkt b3 Hfr Hs3 Hcs) as (fs & Hins).
  assert (Hel : elapsed (last_report_seq b) (Pkt.seq pkt)
                = if u16 (Pkt.seq pkt - last_report_seq b) <? 256 then 0
                  else 128 * (u16 (Pkt.seq pkt - last_report_seq b) / 128 - 1))
    by reflexivity.
  rewrite Hel in *. clear Hel.
  set (n := if u16 (Pkt.seq pkt - last_report_seq b) <? 256 then 0
            else 128 * (u16 (Pkt.seq pkt - last_report_seq b) / 128 - 1)) in *.
  assert (Hn : 0 <= n <= u16 (Pkt.seq pkt - last_report_seq b)).
  { unfold n. pose proof (u16_range (Pkt.seq pkt - last_report_seq b)).
    destruct (Z.ltb_spec (u16 (Pkt.seq pkt - last_report_seq b)) 256);
      [lia|]. Z.div_mod_to_equations. lia. }
  assert (Hcount :
    (n = 0 -> received_pkts b3 = received_pkts b
              /\ expected_pkts b3 = expected_pkts b) /\
    (0 < n -> received_pkts b3
              = i32 (received_pkts b + received_in (flushed b pkt)) /\
              expected_pkts b3 = i32 (expected_pkts b + n)) /\
    (0 <= received_pkts b <= expected_pkts b ->
     expected_pkts b + n <= INT_MAX ->
     received_pkts b3 = received_pkts b + received_in (flushed b pkt) /\
     expected_pkts b3 = expected_pkts b + n)).
  { destruct (flush_due b pkt).
    - destruct (Hdue eq_refl) as (Hpos & Hr & Hx & _).
      split; [lia|]. split; [auto|]. intros Hrx Hroom.
      rewrite Hr, Hx. unfold INT_MAX in Hroom.
      rewrite !i32_small by (unfold INT_MIN, INT_MAX; lia). auto.
    - destruct (Hnot eq_refl) as [Hn0 Ht].
      unfold tally in Ht. injection Ht as Hr Hx _ _.
      assert (Hin0 : received_in (flushed b pkt) = 0) by lia.
      rewrite Hr, Hx, Hin0, Hn0. split; [auto|]. split; [lia|].
      intros _ _. lia. }
  unfold stats_report in Hins.
  destruct (report_due b3 pkt); simpl in Hins;
    eexists _, _, (received_in (flushed b pkt));
    (split; [exact Hins|]); (split; [exact Hn|]); (split; [exact Hrin|]);
    (split; [exact Hl3|]); exact Hcount.
Qed.

Lemma flush_counts_elapsed_windows_witness :
  let e := {| now := 0; offset_ms := None |} in
  let b := run (burst 3 100 65534) in
  let pkt := packet 100 300 false in
  let d := u16 (Pkt.seq pkt - last_report_seq b) in
  let n := if d <? 256 then 0 else 128 * (d / 128 - 1) in
  (last_report_seq b = 65408 /\ d = 428 /\ n = 256) /\
  exists b' report rn,
    pbuf_insert e b pkt = Some (b', report) /\
    0 <= n <= d /\ 0 <= rn <= n /\
    last_report_seq b' = u16 (last_report_seq b + n) /\
    let counted (received expected : Z) : Prop :=
      (n = 0 -> received = received_pkts b /\ expected = expected_pkts b) /\
      (0 < n -> received = i32 (received_pkts b + rn) /\
                expected = i32 (expected_pkts b + n)) /\
      (0 <= received_pkts b <= expected_pkts b ->
       expected_pkts b + n <= INT_MAX ->
       received = received_pkts b + rn /\ expected = expected_pkts b + n) in
    match report with
    | None => counted (received_pkts b') (expected_pkts b')
    | Some r => counted (rep_received r) (rep_expected r)
    end.
Proof.
  cbn zeta. split; [vm_compute; auto|].
  apply flush_counts_elapsed_windows.
  - apply reachable_ok, run_reachable, wf_burst; lia.
  - assert (E : last_report_seq (run (burst 3 100 65534)) = 65408)
      by (vm_compute; reflexivity).
    unfold cursor_aligned. rewrite E. split; [lia|reflexivity].
  - split; simpl; lia.
Defined.

(** A loss-free stream of 400 packets that starts at 65534 and crosses
    the boundary: three intervals have been flushed, every expected packet
    of them was received, and no gap is recorded. *)
Lemma crossing_run_no_loss :
  let b := run (burst 400 100 65534) in
  last_report_seq b = 256 /\
  expected_pkts b = 384 /\ received_pkts b = 384 /\ longest_gap b = 0.
Proof. vm_compute. auto. Qed.

(** C10 (as amended). On a buffer whose cursor is set, a call that
    flushes adds to the cumulative counters, as [long long]s, the whole
    window counters as they stand after the loop: the [int]s that result
    from adding what the loop counted ([rn] and [en]) to what the window
    held before the call. The window counters keep these values after the
    call unless the call also emits the five-second report, which carries
    them and zeroes the window. What an earlier flush of the same report
    period left in the window is thus added again.
    Where no counter wraps, that is where the counters were in order and
    the call [fits], these are the mathematical sums and the cumulative
    counters do not decrease.
    ([flushed_window_counted_again] below shows it on three packets.) *)
Theorem flush_adds_window_counters e b pkt :
  pbuf_ok b -> cursor_aligned b -> wf_packet pkt ->
  flush_due b pkt = true ->
  exists b' report rn en,
    pbuf_insert e b pkt = Some (b', report) /\
    0 <= rn <= en /\ 0 < en /\
    received_pkts_cum b'
      = i64 (received_pkts_cum b + i32 (received_pkts b + rn)) /\
    expected_pkts_cum b'
      = i64 (expected_pkts_cum b + i32 (expected_pkts b + en)) /\
    match report with
    | None => received_pkts b' = i32 (received_pkts b + rn) /\
              expected_pkts b' = i32 (expected_pkts b + en)
    | Some r => rep_received r = i32 (received_pkts b + rn) /\
                rep_expected r = i32 (expected_pkts b + en) /\
                received_pkts b' = 0 /\ expected_pkts b' = 0
    end /\
    (counters_ok b -> fits b pkt ->
     received_pkts_cum b' = received_pkts_cum b + (received_pkts b + rn) /\
     expected_pkts_cum b' = expected_pkts_cum b + (expected_pkts b + en) /\
     received_pkts_cum b <= received_pkts_cum b' /\
     expected_pkts_cum b <= expected_pkts_cum b').
Proof.
  intros (Hst & Hfr & Hasc) Hal Hpkt Hfd.
  pose proof (collect_statistics_exact b pkt Hst Hal Hpkt) as H.
  cbn zeta in H.
  destruct H as (b3 & Hcs & _ & _ & Hs3 & _ & _ & _ & _ & _ & _ & _ & Hrin
                 & Hdue & _).
  destruct (Hdue Hfd) as (Hpos & Hr & Hx & Hrc & Hxc).
  destruct (pbuf_insert_of_statistics e b pkt b3 Hfr Hs3 Hcs) as (fs & Hins).
  rewrite Hr in Hrc. rewrite Hx in Hxc.
  assert (Hsafe : counters_ok b -> fits b pkt ->
     received_pkts_cum b3
       = received_pkts_cum b
         + (received_pkts b + received_in (flushed b pkt)) /\
     expected_pkts_cum b3
       = expected_pkts_cum b
         + (expected_pkts b + elapsed (last_report_seq b) (Pkt.seq pkt)) /\
     received_pkts_cum b <= received_pkts_cum b3 /\
     expected_pkts_cum b <= expected_pkts_cum b3).
  { intros (Hrx & Hxmax & Hcum & Hcmax & _) [Hfit Hfitc].
    assert (Hp : pending b pkt = elapsed (last_report_seq b) (Pkt.seq pkt)).
    { unfold pending. destruct Hal as [Hal _].
      destruct (Z.eqb_spec (last_report_seq b) (-1)); [lia|reflexivity]. }
    rewrite Hp in Hfit, Hfitc. specialize (Hfitc Hpos).
    unfold INT_MAX, LLONG_MAX in *.
    rewrite Hrc, Hxc.
    rewrite !i32_small by (unfold INT_MIN, INT_MAX; lia).
    rewrite !i64_small by (unfold LLONG_MIN, LLONG_MAX; lia). lia. }
  unfold stats_report in Hins.
  destruct (report_due b3 pkt); simpl in Hins;
    eexists _, _, (received_in (flushed b pkt)),
              (elapsed (last_report_seq b) (Pkt.seq pkt));
    (split; [exact Hins|]); (split; [exact Hrin|]); (split; [exact Hpos|]);
    simpl; (split; [exact Hrc|]); (split; [exact Hxc|]);
    (split; [|exact Hsafe]); auto.
Qed.

Lemma flush_adds_window_counters_witness :
  let e := {| now := 0; offset_ms := None |} in
  let b := run (map (at_time 0) [packet 0 0 false; packet 0 256 false]) in
  let pkt := packet 0 512 false in
  (tally b = (1, 128, 1, 128) /\ counters_ok b /\ fits b pkt) /\
  exists b' report rn en,
    pbuf_insert e b pkt = Some (b', report) /\
    0 <= rn <= en /\ 0 < en /\
    received_pkts_cum b'
      = i64 (received_pkts_cum b + i32 (received_pkts b + rn)) /\
    expected_pkts_cum b'
      = i64 (expected_pkts_cum b + i32 (expected_pkts b + en)) /\
    match report with
    | None => received_pkts b' = i32 (received_pkts b + rn) /\
              expected_pkts b' = i32 (expected_pkts b + en)
    | Some r => rep_received r = i32 (received_pkts b + rn) /\
                rep_expected r = i32 (expected_pkts b + en) /\
                received_pkts b' = 0 /\ expected_pkts b' = 0
    end /\
    (counters_ok b -> fits b pkt ->
     received_pkts_cum b' = received_pkts_cum b + (received_pkts b + rn) /\
     expected_pkts_cum b' = expected_pkts_cum b + (expected_pkts b + en) /\
     received_pkts_cum b <= received_pkts_cum b' /\
     expected_pkts_cum b <= expected_pkts_cum b').
Proof.
  cbn zeta. split.
  { split; [vm_compute; reflexivity|].
    split; vm_compute; repeat split; intros; congruence. }
  apply flush_adds_window_counters.
  - apply reachable_ok, run_reachable.
    repeat (constructor; [split; simpl; lia|]). constructor.
  - assert (E : last_report_seq
                  (run (map (at_time 0) [packet 0 0 false; packet 0 256 false]))
                = 128) by (vm_compute; reflexivity).
    unfold cursor_aligned. rewrite E. split; [lia|reflexivity].
  - split; simpl; lia.
  - vm_compute. reflexivity.
Defined.

(** C10, as stated, fails in its last clause. After the first 65537 calls
    of the run above the window counts 2147483520 expected packets. The
    next call flushes 32768 more: the [int] wraps to -2147451008, and
    adding it lowers the cumulative count of expected packets from
    70369809530880 to 70367662079872. *)
Lemma cumulative_expected_falls :
  let b := run (swing_open ++ swing (Z.to_nat 65535) 0) in
  let pkt := packet 0 32768 false in
  let b' := match pbuf_insert {| now := 0; offset_ms := None |} b pkt with
            | Some (b', _) => b'
            | None => b
            end in
  wf_packet pkt /\ flush_due b pkt = true /\
  tally b = (65536, 2147483520, 2147516416, 70369809530880) /\
  tally b' = (65537, -2147451008, 2147581953, 70367662079872) /\
  expected_pkts_cum b' < expected_pkts_cum b.
Proof.
  cbv zeta.
  destruct (swing_state (Z.to_nat 65535)) as (Hok & Hpk & Hcur & Hdts & Ht).
  rewrite swing_tally_65535 in Ht.
  change (u16 (32768 * Z.of_nat (Z.to_nat 65535))) with 32768 in Hpk, Hcur.
  destruct (swing_call _ 32768 (or_intror eq_refl) Hok Hpk Hcur Hdts)
    as (b' & Hins & _ & _ & _ & _ & Hfd & Ht').
  rewrite Hins. rewrite Ht in Ht'.
  split; [split; simpl; lia|]. split; [exact Hfd|]. split; [exact Ht|].
  assert (Hstep : swing_step (65536, 2147483520, 2147516416, 70369809530880)
                  = (65537, -2147451008, 2147581953, 70367662079872))
    by (vm_compute; reflexivity).
  rewrite Hstep in Ht'. split; [exact Ht'|].
  destruct (tally_eq _ _ _ _ _ Ht) as (_ & _ & _ & Hxc).
  destruct (tally_eq _ _ _ _ _ Ht') as (_ & _ & _ & Hxc').
  rewrite Hxc, Hxc'. reflexivity.
Qed.

(** The gap recorded over a list of words is the running maximum of the
    recorded gap and the runs of unset bits of the words. *)
Lemma gap_over_max : forall ws lg,
  0 <= lg <= 64 -> Forall word_ok ws ->
  lg <= gap_over lg ws <= 64 /\
  (forall w i n, In w ws -> zero_run w i n -> n <= gap_over lg ws) /\
  (gap_over lg ws = lg \/
   exists w i, In w ws /\ zero_run w i (gap_over lg ws)).
Proof.
  induction ws as [|w ws IH]; intros lg Hlg Hws.
  - unfold gap_over. simpl. split; [lia|]. split; [|left; reflexivity].
    intros w i n [].
  - inversion Hws as [|? ? Hw Hrest]; subst.
    destruct (compute_longest_gap_word lg w Hlg Hw) as (Hr & Hall & Hex).
    change (gap_over lg (w :: ws))
      with (gap_over (compute_longest_gap lg w) ws).
    destruct (IH (compute_longest_gap lg w) ltac:(lia) Hrest)
      as (Hr' & Hall' & Hex').
    split; [lia|]. split.
    + intros w' i n [<-|Hin] Hrun.
      * specialize (Hall i n Hrun). lia.
      * apply (Hall' w' i n Hin Hrun).
    + destruct Hex' as [Heq|(w' & i & Hin & Hrun)].
      * rewrite Heq. destruct Hex as [->|(i & Hrun)]; [left; reflexivity|].
        right. exists w, i. split; [left; reflexivity|exact Hrun].
      * right. exists w', i. split; [right; exact Hin|exact Hrun].
Qed.

(** C8 (as amended). For a 64-bit word and a recorded gap between 0 and
    64, compute_longest_gap returns the maximum of the recorded gap and
    the longest run of unset bits found anywhere in the word: it is at
    least the recorded gap, no run of unset bits in the word is longer,
    and it is either the recorded gap or the length of a run that is
    there. Runs in the interior of the word count like those at its
    edges.
    A call of pbuf_insert on a buffer whose cursor is set hands the words
    its flush passes to compute_longest_gap one after the other, so the
    gap recorded after the call (or logged, when the call emits the
    report, which then resets the record to 0) is the running maximum of
    the gap recorded before the call and the runs of unset bits of these
    words: it is what compute_longest_gap makes of them in turn, it lies
    between the gap recorded before and 64, no run of unset bits in a
    flushed word is longer, and it is the gap recorded before or the
    length of a run in one of the words. *)
Theorem compute_longest_gap_max_run :
  (forall longest_gap packets : Z,
     0 <= longest_gap <= 64 -> 0 <= packets < 2 ^ 64 ->
     let r := compute_longest_gap longest_gap packets in
     longest_gap <= r <= 64 /\
     (forall i n, zero_run packets i n -> n <= r) /\
     (r = longest_gap \/ exists i, zero_run packets i r)) /\
  (forall e b pkt,
     pbuf_ok b -> cursor_aligned b -> wf_packet pkt ->
     exists b' report,
       pbuf_insert e b pkt = Some (b', report) /\
       let g := match report with
                | None => longest_gap b'
                | Some r => rep_max_loss r
                end in
       g = fold_left compute_longest_gap (flushed b pkt) (longest_gap b) /\
       longest_gap b <= g <= 64 /\
       (forall w i n, In w (flushed b pkt) -> zero_run w i n -> n <= g) /\
       (g = longest_gap b \/
        exists w i, In w (flushed b pkt) /\ zero_run w i g) /\
       (report <> None -> longest_gap b' = 0)).
Proof.
  split; [exact compute_longest_gap_word|].
  intros e b pkt (Hst & Hfr & Hasc) Hal Hpkt.
  pose proof (collect_statistics_exact b pkt Hst Hal Hpkt) as H.
  cbn zeta in H.
  destruct H as (b3 & Hcs & _ & _ & Hs3 & _ & _ & _ & _ & Hg3 & Hws & _).
  destruct (pbuf_insert_of_statistics e b pkt b3 Hfr Hs3 Hcs) as (fs & Hins).
  pose proof Hst as (_ & _ & _ & Hlg & _).
  destruct (gap_over_max (flushed b pkt) (longest_gap b) Hlg Hws)
    as (Hr & Hall & Hex).
  rewrite <- Hg3 in Hr, Hall, Hex.
  unfold stats_report in Hins.
  destruct (report_due b3 pkt); simpl in Hins;
    eexists _, _; (split; [exact Hins|]); cbn zeta; simpl;
    (split; [exact Hg3|]); (split; [exact Hr|]); (split; [exact Hall|]);
    (split; [exact Hex|]).
  - intros _. reflexivity.
  - intros Hne. contradiction Hne. reflexivity.
Qed.

Lemma compute_longest_gap_max_run_witness :
  (compute_longest_gap 0 9223372036854775809 = 62 /\
   exists i, zero_run 9223372036854775809 i 62) /\
  (flushed (run scenario_D) (packet 0 256 false)
     = [18445618173802708991; 18446744073709551615] /\
   exists b' report,
     pbuf_insert {| now := 0; offset_ms := None |} (run scenario_D)
       (packet 0 256 false) = Some (b', report) /\
     let g := match report with
              | None => longest_gap b'
              | Some r => rep_max_loss r
              end in
     g = fold_left compute_longest_gap
           (flushed (run scenario_D) (packet 0 256 false))
           (longest_gap (run scenario_D)) /\
     longest_gap (run scenario_D) <= g <= 64 /\
     (forall w i n,
        In w (flushed (run scenario_D) (packet 0 256 false)) ->
        zero_run w i n -> n <= g) /\
     (g = longest_gap (run scenario_D) \/
      exists w i, In w (flushed (run scenario_D) (packet 0 256 false))
                  /\ zero_run w i g) /\
     (report <> None -> longest_gap b' = 0)).
Proof.
  split.
  - pose proof (proj1 compute_longest_gap_max_run 0 9223372036854775809
                  ltac:(lia) ltac:(lia)) as H.
    cbn zeta in H. destruct H as (_ & _ & [H|H]).
    + vm_compute in H. discriminate H.
    + split; [reflexivity|]. exact H.
  - split; [vm_compute; reflexivity|].
    apply (proj2 compute_longest_gap_max_run).
    + apply reachable_ok, run_reachable.
      unfold scenario_D. apply Forall_app. split; apply wf_burst; lia.
    + assert (E : last_report_seq (run scenario_D) = 0)
        by (vm_compute; reflexivity).
      unfold cursor_aligned. rewrite E. split; [lia|reflexivity].
    + split; simpl; lia.
Defined.

(** C8, as stated, fails: in the word with only its two end bits set no
    run of unset bits touches an edge, so the edge runs leave the gap at
    0, while compute_longest_gap records the interior run of 62. *)
Lemma compute_longest_gap_counts_interior_run :
  edge_gap 0 9223372036854775809 = 0 /\
  compute_longest_gap 0 9223372036854775809 = 62 /\
  compute_longest_gap 0 9223372036854775809 <> edge_gap 0 9223372036854775809.
Proof. vm_compute. repeat split; congruence. Qed.

(** Three packets 256 sequence numbers apart, in one report period: the
    second call flushes one interval, the third two more. 384 packets
    were expected in all and the window counter says so, while the
    cumulative counter has taken the first interval twice: 128 + 384. *)
Lemma flushed_window_counted_again :
  let b1 := run (map (at_time 0) [packet 0 0 false; packet 0 256 false]) in
  let b2 := run (map (at_time 0)
                   [packet 0 0 false; packet 0 256 false; packet 0 512 false]) in
  (expected_pkts b1 = 128 /\ expected_pkts_cum b1 = 128) /\
  (expected_pkts b2 = 384 /\ expected_pkts_cum b2 = 512) /\
  (received_pkts b2 = 2 /\ received_pkts_cum b2 = 3).
Proof. vm_compute. auto 10. Qed.



(** ** The claims on the frame list *)

Lemma insert_frame_new_tail e b pkt fs tl :
  frames b = fs ++ [tl] -> rtp_timestamp tl < Pkt.ts pkt ->
  insert_frame e b pkt =
    Some (fs ++ [with_completed true tl;
                 create_new_pnode (now e) pkt (frame_delay_us e b)]).
Proof.
  intros Hfs Hlt. unfold insert_frame. rewrite Hfs, rev_app_distr. simpl.
  destruct (Z.eqb_spec (rtp_timestamp tl) (Pkt.ts pkt)) as [Heq|_]; [lia|].
  destruct (Z.ltb_spec (rtp_timestamp tl) (Pkt.ts pkt)) as [_|Hge]; [|lia].
  rewrite rev_involutive, <- app_assoc. reflexivity.
Qed.

(** C1 (as amended). When the buffer holds frames and the packet is younger
    than the tail frame, pbuf_insert returns, the frames before the tail
    are untouched, a frame made from the packet is linked after the old
    tail, and the old tail has its [completed] flag set: it is complete
    from then on, marker or not. Nothing else of the old tail changes. *)
Theorem insert_younger_packet_completes_tail e b pkt fs tl :
  pbuf_ok b -> wf_packet pkt ->
  frames b = fs ++ [tl] -> rtp_timestamp tl < Pkt.ts pkt ->
  exists b' report,
    pbuf_insert e b pkt = Some (b', report) /\
    frames b' =
      fs ++ [with_completed true tl;
             create_new_pnode (now e) pkt (frame_delay_us e b)] /\
    frame_complete (with_completed true tl) = true /\
    mbit (with_completed true tl) = mbit tl /\
    cdata (with_completed true tl) = cdata tl /\
    decoded (with_completed true tl) = decoded tl /\
    playout_time (with_completed true tl) = playout_time tl.
Proof.
  intros (Hst & Hfr & Hasc) Hpkt Hfs Hlt. unfold pbuf_insert.
  destruct (collect_statistics_ok b pkt Hst Hpkt)
    as (b1 & report & -> & _ & _ & Hs1).
  destruct (store_eq _ _ Hs1) as [Hf1 Hd1].
  assert (Hfs1 : frames b1 = fs ++ [tl]) by congruence.
  simpl. rewrite (insert_frame_new_tail e b1 pkt fs tl Hfs1 Hlt). simpl.
  exists (with_frames
            (fs ++ [with_completed true tl;
                    create_new_pnode (now e) pkt (frame_delay_us e b1)]) b1),
    report.
  split; [reflexivity|]. split.
  - simpl. unfold frame_delay_us. rewrite Hd1. reflexivity.
  - unfold frame_complete. simpl. rewrite orb_true_r. auto.
Qed.

Lemma insert_younger_packet_completes_tail_witness :
  let tl := create_new_pnode 0 (packet 100 1 false) 32000 in
  let pkt := packet 200 2 false in
  let e := {| now := 5; offset_ms := None |} in
  let b := run scenario_B_first in
  exists b' report,
    pbuf_insert e b pkt = Some (b', report) /\
    frames b' =
      [] ++ [with_completed true tl;
             create_new_pnode (now e) pkt (frame_delay_us e b)] /\
    frame_complete (with_completed true tl) = true /\
    mbit (with_completed true tl) = mbit tl /\
    cdata (with_completed true tl) = cdata tl /\
    decoded (with_completed true tl) = decoded tl /\
    playout_time (with_completed true tl) = playout_time tl.
Proof.
  cbn zeta. apply insert_younger_packet_completes_tail.
  - apply reachable_ok, run_reachable.
    repeat (constructor; [split; simpl; lia|]). constructor.
  - split; simpl; lia.
  - vm_compute. reflexivity.
  - simpl. lia.
Defined.

(** C1, as stated, fails on scenario B: before the packet of the frame at
    200 arrives the frame at 100 is incomplete, and afterwards it is still
    there, without a marker, but complete. *)
Lemma scenario_B_old_tail_complete :
  map frame_view (frames (run scenario_B_first))
    = [(100, [1], 0, false, false)] /\
  map frame_view (frames (run scenario_B))
    = [(100, [1], 0, true, true); (200, [2], 0, false, false)].
Proof. vm_compute. auto. Qed.

(** C3. pbuf_remove frees exactly the leading run of frames that are past
    their playout time and complete: the frames of the buffer are the
    freed ones followed by the ones kept, every freed frame has
    [curr_time] strictly after its playout time and is complete, and the
    first frame kept, if there is one, fails that test. Nothing but the
    frame list changes. *)
Theorem pbuf_remove_leading_run b curr_time :
  exists evicted,
    frames b = evicted ++ frames (pbuf_remove b curr_time) /\
    Forall (fun node => curr_time > playout_time node
                        /\ frame_complete node = true) evicted /\
    match frames (pbuf_remove b curr_time) with
    | [] => True
    | node :: _ => evictable curr_time node = false
    end /\
    pbuf_remove b curr_time = with_frames (frames (pbuf_remove b curr_time)) b.
Proof.
  destruct (remove_from_suffix curr_time (frames b)) as (ev & Heq & Hev).
  exists ev. unfold pbuf_remove. simpl.
  split; [exact Heq|]. split; [exact Hev|]. split; [|reflexivity].
  clear. induction (frames b) as [|node nxt IH]; simpl; [exact I|].
  destruct ((curr_time >? playout_time node) && frame_complete node) eqn:E.
  - exact IH.
  - exact E.
Qed.

(** ** The claims on the scheduler *)

Section DecodeFacts.
Context {D : Type}.
Variable f : list coded_data -> D -> pbuf_stats -> Z * D.
Variable curr_time : time_point.
Variable stats : pbuf_stats.

Lemma decode_from_passes node nxt user :
  ready curr_time node = false ->
  decode_from f curr_time stats user (node :: nxt) =
    let '(ret, nxt', user') := decode_from f curr_time stats user nxt in
    (ret, expire curr_time node :: nxt', user').
Proof.
  unfold ready, expire. intros Hready. simpl.
  destruct ((decoded node =? 0) && (curr_time >? playout_time node)).
  - simpl in Hready. rewrite Hready. simpl. reflexivity.
  - simpl. reflexivity.
Qed.

Lemma decode_from_none : forall curr user,
  Forall (fun node => ready curr_time node = false) curr ->
  decode_from f curr_time stats user curr
    = (0, map (expire curr_time) curr, user).
Proof.
  induction curr as [|node nxt IH]; intros user Hall.
  - reflexivity.
  - inversion Hall as [|? ? Hnode Hnxt]; subst.
    rewrite (decode_from_passes node nxt user Hnode), (IH user Hnxt).
    reflexivity.
Qed.

Lemma decode_from_found : forall pre node post user,
  Forall (fun node => ready curr_time node = false) pre ->
  ready curr_time node = true ->
  decode_from f curr_time stats user (pre ++ node :: post)
    = (fst (f (cdata node) user stats),
       map (expire curr_time) pre ++ with_decoded 1 node :: post,
       snd (f (cdata node) user stats)).
Proof.
  induction pre as [|x pre IH]; intros node post user Hall Hready.
  - simpl. unfold ready in Hready.
    apply andb_true_iff in Hready. destruct Hready as [-> ->].
    destruct (f (cdata node) user stats). reflexivity.
  - inversion Hall as [|? ? Hx Hpre]; subst.
    change ((x :: pre) ++ node :: post) with (x :: (pre ++ node :: post)).
    rewrite (decode_from_passes x _ user Hx), (IH node post user Hpre Hready).
    reflexivity.
Qed.
End DecodeFacts.

Lemma expire_decoded curr_time node :
  decoded (expire curr_time node) = decoded node.
Proof. unfold expire. destruct (_ && _); reflexivity. Qed.

Lemma with_frames_same b : with_frames (frames b) b = b.
Proof. destruct b. reflexivity. Qed.

Lemma expire_not_due curr_time node :
  curr_time <= playout_time node -> expire curr_time node = node.
Proof.
  intros H. unfold expire.
  assert (E : (curr_time >? playout_time node) = false).
  { rewrite Z.gtb_ltb. apply Z.ltb_ge. exact H. }
  rewrite E, andb_false_r. reflexivity.
Qed.

Lemma ready_not_due curr_time node :
  curr_time <= playout_time node -> ready curr_time node = false.
Proof.
  intros H. unfold ready.
  assert (E : (curr_time >? playout_time node) = false).
  { rewrite Z.gtb_ltb. apply Z.ltb_ge. exact H. }
  rewrite E, andb_false_r. reflexivity.
Qed.

(** C2. pbuf_decode scans the frames from the head. If [node] is the
    first frame that is undecoded, past its playout time and complete,
    the decoder is applied once, to the packets of [node], the state it
    was handed and the two cumulative counters; its result and its new
    state are returned; in the buffer [node] has its [decoded] field set
    to 1 and is otherwise as it was, and the frames after it are not
    looked at. Each frame passed on the way that is undecoded, due,
    incomplete and more than one second late has its [completed] field
    set and is otherwise as it was, without being decoded; every other
    frame passed is left as it is. If no frame is ready the call returns
    0, the state of the decoder is the one handed in, the frames are
    passed in the same way and no [decoded] field changes; if no frame is
    even due, the buffer is unchanged. The second after the playout time
    is added in the 64-bit tick count of the clock; the playout times of
    the buffer are taken to leave room for it. *)
Theorem pbuf_decode_first_ready {D : Type}
    (f : list coded_data -> D -> pbuf_stats -> Z * D) b curr_time user :
  let stats := {| stat_received_pkts_cum := received_pkts_cum b;
                  stat_expected_pkts_cum := expected_pkts_cum b |} in
  let passed (x : pbuf_node) : pbuf_node :=
    if (decoded x =? 0) && (curr_time >? playout_time x)
       && negb (frame_complete x)
       && (curr_time >? i64 (playout_time x + one_second))
    then {| rtp_timestamp := rtp_timestamp x;
            arrival_time := arrival_time x;
            playout_time := playout_time x; cdata := cdata x;
            decoded := decoded x; mbit := mbit x; magic := magic x;
            completed := true |}
    else x in
  Forall (fun x => LLONG_MIN <= playout_time x + one_second <= LLONG_MAX)
         (frames b) ->
  (forall pre node post,
     frames b = pre ++ node :: post ->
     Forall (fun x => ready curr_time x = false) pre ->
     ready curr_time node = true ->
     pbuf_decode f b curr_time user
       = (fst (f (cdata node) user stats),
          with_frames
            (map passed pre
             ++ {| rtp_timestamp := rtp_timestamp node;
                   arrival_time := arrival_time node;
                   playout_time := playout_time node; cdata := cdata node;
                   decoded := 1; mbit := mbit node; magic := magic node;
                   completed := completed node |} :: post) b,
          snd (f (cdata node) user stats))) /\
  (Forall (fun x => ready curr_time x = false) (frames b) ->
     pbuf_decode f b curr_time user
       = (0, with_frames (map passed (frames b)) b, user) /\
     map decoded (map passed (frames b)) = map decoded (frames b)) /\
  (Forall (fun x => curr_time <= playout_time x) (frames b) ->
     pbuf_decode f b curr_time user = (0, b, user)).
Proof.
  cbv zeta. intros Hrange. fold (stats_of b).
  assert (Hpassed : forall l, (forall x, In x l -> In x (frames b)) ->
            map (fun x : pbuf_node =>
                   if (decoded x =? 0) && (curr_time >? playout_time x)
                      && negb (frame_complete x)
                      && (curr_time >? i64 (playout_time x + one_second))
                   then {| rtp_timestamp := rtp_timestamp x;
                           arrival_time := arrival_time x;
                           playout_time := playout_time x; cdata := cdata x;
                           decoded := decoded x; mbit := mbit x;
                           magic := magic x; completed := true |}
                   else x) l
            = map (expire curr_time) l).
  { intros l Hl. apply map_ext_in. intros x Hin.
    rewrite Forall_forall in Hrange.
    rewrite (i64_small _ (Hrange x (Hl x Hin))). reflexivity. }
  split; [|split].
  - intros pre node post Hfs Hpre Hready. unfold pbuf_decode.
    fold (stats_of b).
    rewrite Hpassed
      by (intros x Hin; rewrite Hfs; apply in_or_app; left; exact Hin).
    rewrite Hfs, (decode_from_found f curr_time (stats_of b) pre node post
                    user Hpre Hready).
    reflexivity.
  - intros Hnone. unfold pbuf_decode. fold (stats_of b).
    rewrite Hpassed by (intros x Hin; exact Hin).
    rewrite (decode_from_none f curr_time (stats_of b) (frames b) user Hnone).
    split; [reflexivity|].
    rewrite map_map. apply map_ext. intros node. apply expire_decoded.
  - intros Hearly. unfold pbuf_decode. fold (stats_of b).
    rewrite (decode_from_none f curr_time (stats_of b) (frames b) user).
    + replace (map (expire curr_time) (frames b)) with (frames b).
      * rewrite with_frames_same. reflexivity.
      * symmetry. rewrite <- (map_id (frames b)) at 2.
        apply map_ext_in. intros node Hin.
        apply expire_not_due. rewrite Forall_forall in Hearly.
        apply Hearly. exact Hin.
    + eapply Forall_impl; [|exact Hearly].
      intros node Hnode. apply ready_not_due. exact Hnode.
Qed.

(** Two frames with their markers, the first already decoded by a call
    of pbuf_decode: the next call passes it and decodes the second. And
    a lone frame without its marker, more than a second late: the call
    decodes nothing and marks the frame completed. *)
Lemma pbuf_decode_first_ready_witness :
  let b0 := run [at_time 0 (packet 100 1 true); at_time 5 (packet 200 2 true)] in
  let b := snd (fst (pbuf_decode logging_decoder b0 40000000 [])) in
  let pre := firstn 1 (frames b) in
  let node := nth 1 (frames b) (test_frame 0 0 false) in
  let c := run [at_time 0 (packet 100 1 false)] in
  (map frame_view (frames b)
     = [(100, [1], 1, true, true); (200, [2], 1, false, true)] /\
   map playout_time (frames b) = [32000000; 32000005] /\
   pbuf_decode logging_decoder b 40000000 []
     = (1,
        with_frames
          (pre ++ [ {| rtp_timestamp := rtp_timestamp node;
                       arrival_time := arrival_time node;
                       playout_time := playout_time node;
                       cdata := cdata node; decoded := 1;
                       mbit := mbit node; magic := magic node;
                       completed := completed node |} ]) b,
        [[2]])) /\
  (map frame_view (frames c) = [(100, [1], 0, false, false)] /\
   map playout_time (frames c) = [32000000] /\
   pbuf_decode logging_decoder c 2000000000 []
     = (0,
        with_frames
          (map (fun x => {| rtp_timestamp := rtp_timestamp x;
                            arrival_time := arrival_time x;
                            playout_time := playout_time x;
                            cdata := cdata x; decoded := decoded x;
                            mbit := mbit x; magic := magic x;
                            completed := true |}) (frames c)) c,
        [])).
Proof.
  cbv zeta. split.
  - split; [vm_compute; reflexivity|]. split; [vm_compute; reflexivity|].
    set (b := snd (fst (pbuf_decode logging_decoder
                          (run [at_time 0 (packet 100 1 true);
                                at_time 5 (packet 200 2 true)])
                          40000000 []))).
    assert (Hrange : Forall (fun x => LLONG_MIN <= playout_time x + one_second
                                      <= LLONG_MAX) (frames b)).
    { repeat constructor; vm_compute; discriminate. }
    pose proof (proj1 (pbuf_decode_first_ready logging_decoder b 40000000
                         [] Hrange)
                  (firstn 1 (frames b))
                  (nth 1 (frames b) (test_frame 0 0 false)) []) as H.
    cbv zeta in H. rewrite H.
    + vm_compute. reflexivity.
    + vm_compute. reflexivity.
    + constructor; [vm_compute; reflexivity|constructor].
    + vm_compute. reflexivity.
  - split; [vm_compute; reflexivity|]. split; [vm_compute; reflexivity|].
    set (c := run [at_time 0 (packet 100 1 false)]).
    assert (Hrange : Forall (fun x => LLONG_MIN <= playout_time x + one_second
                                      <= LLONG_MAX) (frames c)).
    { repeat constructor; vm_compute; discriminate. }
    assert (Hnone : Forall (fun x => ready 2000000000 x = false) (frames c))
      by (constructor; [vm_compute; reflexivity|constructor]).
    pose proof (proj1 (proj2 (pbuf_decode_first_ready logging_decoder
                                c 2000000000 [] Hrange)) Hnone) as H.
    cbv zeta in H. rewrite (proj1 H). vm_compute. reflexivity.
Defined.

(** ** The claim on the playout delay *)

Lemma pbuf_set_playout_delay_ok b playout_delay :
  pbuf_ok b -> pbuf_ok (pbuf_set_playout_delay b playout_delay).
Proof.
  unfold pbuf_ok, stats_ok, cursor_aligned. simpl. tauto.
Qed.

(** C9 (as amended). pbuf_set_playout_delay takes the delay in seconds, as
    a [double], and stores [playout_delay * 1000 * 1000] converted to a
    [long long] as the delay in microseconds: the product truncated to an
    integer, when that is a [long long]. It changes nothing else, so every
    frame of the buffer keeps its times. A call of pbuf_insert after it
    returns, keeps the stored delay and the arrival and playout times of
    the frames that were there, and, when it makes a frame, gives it the
    clock as arrival time and the playout time that create_new_pnode
    computes from the clock, the stored delay and the offset read in that
    call. Where 1000 times the offset is an [int] and the delay in
    nanoseconds and the playout time are 64-bit numbers, that playout
    time is the clock plus the stored microseconds plus 1000 times the
    offset in milliseconds. *)
Theorem set_playout_delay_new_frames_only e b playout_delay pkt :
  pbuf_ok b -> wf_packet pkt ->
  let b0 := pbuf_set_playout_delay b playout_delay in
  frames b0 = frames b /\
  playout_delay_us b0 = delay_to_us playout_delay /\
  (forall us,
     trunc_double
       (PrimFloat.mul (PrimFloat.mul playout_delay 1000%float) 1000%float)
       = Some us ->
     LLONG_MIN <= us <= LLONG_MAX -> delay_to_us playout_delay = us) /\
  exists b' report,
    pbuf_insert e b0 pkt = Some (b', report) /\
    playout_delay_us b' = delay_to_us playout_delay /\
    map arrival_time (frames b') =
      map arrival_time (frames b) ++
      (if opens_frame b pkt then [now e] else []) /\
    map playout_time (frames b') =
      map playout_time (frames b) ++
      (if opens_frame b pkt
       then [playout_time
               (create_new_pnode (now e) pkt (frame_delay_us e b0))]
       else []) /\
    (let delay := delay_to_us playout_delay + 1000 * offset_of e in
     INT_MIN <= 1000 * offset_of e <= INT_MAX ->
     LLONG_MIN <= 1000 * delay <= LLONG_MAX ->
     LLONG_MIN <= now e + 1000 * delay <= LLONG_MAX ->
     playout_time (create_new_pnode (now e) pkt (frame_delay_us e b0))
     = now e + 1000 * delay).
Proof.
  intros Hok Hpkt. cbn zeta.
  split; [reflexivity|]. split; [reflexivity|].
  split.
  { intros us Hus Hrange. unfold delay_to_us, double_to_ll. rewrite Hus.
    destruct Hrange as [Hlo Hhi].
    apply Z.leb_le in Hlo. apply Z.leb_le in Hhi. rewrite Hlo, Hhi.
    reflexivity. }
  destruct (pbuf_insert_ok e (pbuf_set_playout_delay b playout_delay) pkt
              (pbuf_set_playout_delay_ok b playout_delay Hok) Hpkt)
    as (b' & report & Hins & _ & _ & Hd & Hp & _ & Ha).
  exists b', report. split; [exact Hins|].
  split; [exact Hd|]. split; [exact Ha|]. split; [exact Hp|].
  intros Hoff Hdelay Hplay.
  unfold create_new_pnode, frame_delay_us, microseconds. simpl playout_time.
  fold (offset_of e).
  fold (delay_to_us playout_delay).
  rewrite ?(i32_small (1000 * offset_of e)) by exact Hoff.
  rewrite (i64_small (delay_to_us playout_delay + 1000 * offset_of e))
    by (unfold LLONG_MIN, LLONG_MAX in *; lia).
  rewrite (i64_small (1000 * _)) by exact Hdelay.
  apply i64_small. exact Hplay.
Qed.

Lemma set_playout_delay_new_frames_only_witness :
  let e := {| now := 7; offset_ms := Some 2 |} in
  let b := run scenario_B_first in
  let pkt := packet 200 2 false in
  let b0 := pbuf_set_playout_delay b 0.5%float in
  (delay_to_us 0.5%float = 500000 /\
   map playout_time (frames b) = [32000000] /\ opens_frame b pkt = true /\
   playout_time (create_new_pnode (now e) pkt (frame_delay_us e b0))
     = 502000007) /\
  frames b0 = frames b /\
  playout_delay_us b0 = delay_to_us 0.5%float /\
  (forall us,
     trunc_double (PrimFloat.mul (PrimFloat.mul 0.5%float 1000%float) 1000%float)
       = Some us ->
     LLONG_MIN <= us <= LLONG_MAX -> delay_to_us 0.5%float = us) /\
  exists b' report,
    pbuf_insert e b0 pkt = Some (b', report) /\
    playout_delay_us b' = delay_to_us 0.5%float /\
    map arrival_time (frames b') =
      map arrival_time (frames b) ++
      (if opens_frame b pkt then [now e] else []) /\
    map playout_time (frames b') =
      map playout_time (frames b) ++
      (if opens_frame b pkt
       then [playout_time
               (create_new_pnode (now e) pkt (frame_delay_us e b0))]
       else []) /\
    (let delay := delay_to_us 0.5%float + 1000 * offset_of e in
     INT_MIN <= 1000 * offset_of e <= INT_MAX ->
     LLONG_MIN <= 1000 * delay <= LLONG_MAX ->
     LLONG_MIN <= now e + 1000 * delay <= LLONG_MAX ->
     playout_time (create_new_pnode (now e) pkt (frame_delay_us e b0))
     = now e + 1000 * delay).
Proof.
  cbn zeta. split; [vm_compute; auto|].
  apply set_playout_delay_new_frames_only.
  - apply reachable_ok, run_reachable.
    repeat (constructor; [split; simpl; lia|]). constructor.
  - split; simpl; lia.
Defined.

(** C9, as stated, fails: with the argument 1, which the claim reads as
    one microsecond, the next frame is due a whole second after its
    arrival, a million times the microsecond. *)
Lemma set_playout_delay_is_in_seconds :
  let b0 := pbuf_set_playout_delay pbuf_init 1%float in
  let b' := match pbuf_insert {| now := 0; offset_ms := None |} b0
                    (packet 100 1 false) with
            | Some (b', _) => b'
            | None => b0
            end in
  map (fun node => playout_time node - arrival_time node) (frames b')
    = [microseconds 1000000] /\
  microseconds 1000000 <> microseconds 1.
Proof. vm_compute. split; [reflexivity|discriminate]. Qed.

(** Outside the ranges of C9 the times are those of the fixed-width
    arithmetic. A delay of 1e13 seconds is no [long long] in
    microseconds, nor is an infinite one: the smallest [long long] is
    stored. With an offset of 2147484 ms the [int] product
    [1000 * offset] wraps, and the delay of a new frame is negative. A
    delay of 9223372036854776 microseconds is past the 64-bit count of
    nanoseconds. *)
Lemma playout_delay_out_of_range :
  delay_to_us 1e13%float = LLONG_MIN /\
  delay_to_us infinity = LLONG_MIN /\
  frame_delay_us {| now := 0; offset_ms := Some 2147484 |} pbuf_init
    = 32000 + (2147484000 - 4294967296) /\
  microseconds 9223372036854776
    = 9223372036854776000 - 18446744073709551616.
Proof. vm_compute. repeat split; reflexivity. Qed.

(** ** The claim on the packet list *)

Lemma precedes_irrefl a b : precedes a b -> a <> b.
Proof.
  unfold precedes. intros H ->. rewrite i16_refl in H. lia.
Qed.

(** In a list that lies within half a turn, a sequence number that is
    there is found by the walk, and the packet is dropped. *)
Lemma file_coded_unit_duplicate tmp : forall l,
  descending_all l -> In (seqno tmp) (map seqno l) ->
  file_coded_unit tmp l = l.
Proof.
  unfold descending_all. induction l as [|c nxt IH]; intros Hs Hin.
  - destruct Hin.
  - inversion Hs as [|? ? Hnxt Hall]; subst. simpl.
    destruct Hin as [Heq|Hin].
    + rewrite Heq, i16_refl. reflexivity.
    + assert (Hlt : i16 (seqno tmp - seqno c) < 0).
      { apply in_map_iff in Hin. destruct Hin as (x & Hx & Hin).
        rewrite Forall_forall in Hall. specialize (Hall x Hin).
        unfold precedes in Hall. rewrite Hx in Hall. exact Hall. }
      destruct (Z.ltb_spec (i16 (seqno tmp - seqno c)) 0); [|lia].
      rewrite (IH Hnxt Hin). reflexivity.
Qed.

Lemma add_coded_unit_duplicate node pkt :
  descending_all (cdata node) -> rtp_timestamp node = Pkt.ts pkt ->
  In (Pkt.seq pkt) (map seqno (cdata node)) ->
  add_coded_unit node pkt =
    Some (with_cdata (cdata node)
            (Z.lor (mbit node) (Z.b2z (Pkt.m pkt))) node).
Proof.
  intros Hs Hts Hin. unfold add_coded_unit.
  rewrite Hts, Z.eqb_refl. simpl negb. cbv iota.
  destruct (cdata node) as [|hd cd] eqn:Hcd; [destruct Hin|].
  rewrite (file_coded_unit_duplicate
             {| seqno := Pkt.seq pkt; data := pkt |} (hd :: cd) Hs Hin).
  simpl seqno.
  assert (Hle : i16 (Pkt.seq pkt - seqno hd) <= 0).
  { destruct Hin as [Heq|Hin].
    - rewrite Heq, i16_refl. lia.
    - unfold descending_all in Hs. inversion Hs as [|? ? _ Hall]; subst.
      apply in_map_iff in Hin. destruct Hin as (x & Hx & Hin).
      rewrite Forall_forall in Hall. specialize (Hall x Hin).
      unfold precedes in Hall. rewrite Hx in Hall. lia. }
  destruct (Z.gtb_spec (i16 (Pkt.seq pkt - seqno hd)) 0); [lia|reflexivity].
Qed.

Lemma descending_all_once : forall l sq,
  descending_all l -> In sq (map seqno l) ->
  count_occ Z.eq_dec (map seqno l) sq = 1%nat.
Proof.
  unfold descending_all. induction l as [|c nxt IH]; intros sq Hs Hin.
  - destruct Hin.
  - inversion Hs as [|? ? Hnxt Hall]; subst. simpl.
    assert (Hnot : forall x, In x nxt -> seqno x <> seqno c).
    { intros x Hx. rewrite Forall_forall in Hall.
      apply precedes_irrefl. apply Hall. exact Hx. }
    destruct (Z.eq_dec (seqno c) sq) as [Heq|Hne].
    + f_equal. apply count_occ_not_In. intros Hin'.
      apply in_map_iff in Hin'. destruct Hin' as (x & Hx & Hin').
      apply (Hnot x Hin'). congruence.
    + destruct Hin as [Heq|Hin]; [contradiction|].
      apply IH; assumption.
Qed.

(** The walk back from the tail stops at the frame of the packet. *)
Lemma insert_previous_walk pkt node node' rest : forall younger,
  Forall (fun x => rtp_timestamp x > Pkt.ts pkt) younger ->
  rtp_timestamp node = Pkt.ts pkt ->
  add_coded_unit node pkt = Some node' ->
  insert_previous pkt (younger ++ node :: rest)
    = Some (younger ++ node' :: rest).
Proof.
  induction younger as [|x younger IH]; intros Hy Hts Hadd.
  - cbn [app insert_previous]. rewrite Hts.
    replace (Pkt.ts pkt >? Pkt.ts pkt) with false
      by (symmetry; rewrite Z.gtb_ltb; apply Z.ltb_irrefl).
    rewrite andb_false_r, Z.eqb_refl, Hadd. reflexivity.
  - inversion Hy as [|? ? Hx Hy']; subst.
    change ((x :: younger) ++ node :: rest)
      with (x :: (younger ++ node :: rest)).
    cbn [insert_previous].
    rewrite (IH Hy' Hts Hadd).
    replace (rtp_timestamp x >? Pkt.ts pkt) with true
      by (symmetry; apply Z.gtb_gt; exact Hx).
    destruct (younger ++ node :: rest) as [|z zs] eqn:Hz.
    { destruct younger; discriminate Hz. }
    reflexivity.
Qed.

Lemma ascending_split : forall (l1 : list Z) a l2,
  StronglySorted Z.lt (l1 ++ a :: l2) ->
  Forall (fun x => x < a) l1 /\ Forall (fun x => a < x) l2.
Proof.
  induction l1 as [|x l1 IH]; intros a l2 Hs; simpl in Hs.
  - inversion Hs; subst. split; [constructor|assumption].
  - inversion Hs as [|? ? Hrest Hx]; subst.
    destruct (IH a l2 Hrest) as [H1 H2]. split; [|exact H2].
    constructor; [|exact H1].
    rewrite Forall_forall in Hx. apply Hx.
    apply in_or_app. right. left. reflexivity.
Qed.

(** A packet whose timestamp is that of a frame of the buffer is filed
    into that frame, wherever in the list the frame stands. *)
Lemma insert_frame_existing e b pkt pre node node' post :
  frames_ascending (frames b) ->
  frames b = pre ++ node :: post ->
  rtp_timestamp node = Pkt.ts pkt ->
  add_coded_unit node pkt = Some node' ->
  insert_frame e b pkt = Some (pre ++ node' :: post).
Proof.
  unfold frames_ascending. intros Hasc Hfs Hts Hadd.
  rewrite Hfs, map_app in Hasc. simpl in Hasc.
  destruct (ascending_split _ _ _ Hasc) as [Hpre Hpost].
  rewrite Forall_map in Hpre, Hpost.
  unfold insert_frame. rewrite Hfs, rev_app_distr. simpl rev.
  rewrite <- app_assoc. simpl app.
  destruct (rev post) as [|last prvs] eqn:Hrev.
  - apply (f_equal (@rev _)) in Hrev. rewrite rev_involutive in Hrev.
    simpl in Hrev. subst post. simpl app. cbv beta iota.
    rewrite Hts, Z.eqb_refl, Hadd. simpl.
    rewrite rev_involutive. reflexivity.
  - assert (Hyoung : Forall (fun x => rtp_timestamp x > Pkt.ts pkt)
                       (last :: prvs)).
    { rewrite <- Hrev. apply Forall_rev.
      eapply Forall_impl; [|exact Hpost]. simpl. intros x Hx. lia. }
    assert (Hlast : rtp_timestamp last > Pkt.ts pkt)
      by (inversion Hyoung; assumption).
    simpl app. cbv beta iota.
    destruct (Z.eqb_spec (rtp_timestamp last) (Pkt.ts pkt)); [lia|].
    destruct (Z.ltb_spec (rtp_timestamp last) (Pkt.ts pkt)); [lia|].
    assert (Hfrst : exists frst rest,
              pre ++ node :: post = frst :: rest
              /\ rtp_timestamp frst <= Pkt.ts pkt).
    { destruct pre as [|p pre'].
      - exists node, post. split; [reflexivity|lia].
      - exists p, (pre' ++ node :: post). split; [reflexivity|].
        inversion Hpre; subst. lia. }
    destruct Hfrst as (frst & rest & -> & Hle).
    replace (rtp_timestamp frst >? Pkt.ts pkt) with false
      by (symmetry; rewrite Z.gtb_ltb; apply Z.ltb_ge; exact Hle).
    change (last :: prvs ++ node :: rev pre)
      with ((last :: prvs) ++ node :: rev pre).
    rewrite (insert_previous_walk pkt node node' (rev pre) (last :: prvs)
               Hyoung Hts Hadd).
    rewrite <- Hrev. simpl.
    rewrite rev_app_distr. simpl. rewrite !rev_involutive, <- app_assoc.
    reflexivity.
Qed.

Lemma insert_frame_store e b b1 pkt :
  store b1 = store b -> insert_frame e b1 pkt = insert_frame e b pkt.
Proof.
  intros Hs. destruct (store_eq _ _ Hs) as [Hf Hd].
  unfold insert_frame, frame_delay_us. rewrite Hf, Hd. reflexivity.
Qed.

Lemma testbit_land_bit w k :
  0 <= k -> (Z.land w (Z.shiftl 1 k) =? 0) = negb (Z.testbit w k).
Proof.
  intros Hk. rewrite Z.shiftl_1_l.
  destruct (Z.testbit w k) eqn:Hbit; simpl.
  - apply Z.eqb_neq. intros H0.
    assert (Hb : Z.testbit (Z.land w (2 ^ k)) k = true).
    { rewrite Z.land_spec, Hbit, Z.pow2_bits_true by lia. reflexivity. }
    rewrite H0, Z.bits_0 in Hb. discriminate Hb.
  - apply Z.eqb_eq. apply Z.bits_inj'. intros j Hj.
    rewrite Z.land_spec, Z.bits_0.
    destruct (Z.eq_dec j k) as [->|Hne].
    + rewrite Hbit. reflexivity.
    + rewrite Z.pow2_bits_false by lia. apply andb_false_r.
Qed.

(** The duplicate flag after one call on a buffer whose cursor is set: it
    is raised exactly when the bitmap already holds the bit of the packet,
    and a report emitted in the same call carries it and lowers it. *)
Lemma pbuf_insert_dups e b pkt :
  pbuf_ok b -> cursor_aligned b -> wf_packet pkt ->
  exists b' report,
    pbuf_insert e b pkt = Some (b', report) /\
    match report with
    | None => dups b' = seen b (Pkt.seq pkt) || dups b
    | Some r => rep_dups r = seen b (Pkt.seq pkt) || dups b /\ dups b' = false
    end.
Proof.
  intros (Hst & Hfr & Hasc) Hal Hpkt.
  unfold pbuf_insert, collect_statistics.
  destruct (stats_init_spec b pkt Hst Hpkt)
    as (b1 & -> & _ & _ & _ & _ & _ & Hsame & _).
  assert (Hb1 : b1 = b) by (apply Hsame; destruct Hal as [Hal _]; lia).
  subst b1.
  destruct (stats_mark_spec b pkt Hst) as (Hok2 & Hs2 & Hc2 & Hl2).
  assert (Hal2 : cursor_aligned (stats_mark b pkt)).
  { unfold cursor_aligned. rewrite Hl2. exact Hal. }
  pose proof (stats_flush_spec (stats_mark b pkt) pkt Hok2 Hal2 Hpkt) as H.
  cbn zeta in H.
  destruct H as (b3 & Hfl & Hok3 & _ & Hs3 & Hf3 & _).
  simpl. rewrite Hfl. simpl.
  assert (Hd3 : dups b3 = seen b (Pkt.seq pkt) || dups b).
  { apply (f_equal snd) in Hf3. simpl in Hf3. rewrite Hf3.
    unfold seen. destruct Hpkt as [_ Hseq].
    rewrite (testbit_land_bit _ (Pkt.seq pkt mod number_word_bits))
      by (apply Z.mod_pos_bound; unfold number_word_bits; lia).
    destruct (Z.testbit _ _); reflexivity. }
  pose proof (stats_report_spec b3 pkt Hok3) as H. cbn zeta in H.
  destruct H as (_ & Hs4 & _ & _ & _ & Hno & Hyes).
  assert (Hfr4 : Forall frame_ok (frames (fst (stats_report b3 pkt)))).
  { destruct (store_eq _ _ Hs2) as [F2 _]. destruct (store_eq _ _ Hs3) as [F3 _].
    destruct (store_eq _ _ Hs4) as [F4 _]. rewrite F4, F3, F2. exact Hfr. }
  destruct (insert_frame_ok e _ pkt Hfr4) as (fs & Hins & _).
  destruct (report_due b3 pkt) eqn:Hdue.
  - destruct (Hyes eq_refl) as (_ & _ & _ & r & Hr & _ & _ & _ & Hrd).
    unfold stats_report in *. rewrite Hdue in *. simpl in *.
    rewrite Hins. simpl. eexists _, _. split; [reflexivity|].
    injection Hr as <-. simpl. split; [exact Hd3|reflexivity].
  - rewrite (Hno eq_refl) in *. simpl in *. rewrite Hins. simpl.
    eexists _, _. split; [reflexivity|]. simpl. exact Hd3.
Qed.

(** A buffer that holds a frame has seen a packet: its cursor is set. *)
Lemma reachable_cursor b :
  reachable b -> frames b <> [] -> cursor_aligned b.
Proof.
  induction 1 as [|e b pkt b' report Hb IH Hpkt Hins|D f b t user Hb IH
                  |b t Hb IH|b d Hb IH]; intros Hne.
  - contradiction Hne. reflexivity.
  - destruct (pbuf_insert_ok e b pkt (reachable_ok b Hb) Hpkt)
      as (b2 & r2 & Hins2 & _ & Hal & _).
    congruence.
  - unfold pbuf_decode in *.
    pose proof (decode_from_timestamps f t
      {| stat_received_pkts_cum := received_pkts_cum b;
         stat_expected_pkts_cum := expected_pkts_cum b |}
      (frames b) user) as Hts.
    destruct (decode_from f t _ user (frames b)) as [[ret fs] user'].
    simpl in *. unfold cursor_aligned. simpl. apply IH.
    intros Hnil. rewrite Hnil in Hts. destruct fs; [|discriminate Hts].
    contradiction Hne. reflexivity.
  - unfold pbuf_remove, cursor_aligned in *. simpl in *. apply IH.
    intros Hnil. rewrite Hnil in Hne. contradiction Hne. reflexivity.
  - unfold cursor_aligned in *. simpl in *. apply IH. exact Hne.
Qed.

(** C4 (as amended). In every state the buffer can reach, the packets of
    each frame stand in descending order of sequence number: each one
    precedes the one before it under (int16_t)(a - b) < 0.
    When a packet arrives for a frame of the buffer that already holds
    its sequence number, and the packets of that frame all lie within
    half a turn of the sequence counter (each precedes all those before
    it), pbuf_insert returns and the packet is dropped: the frame keeps
    its packet list as it was, with one packet of that number (the marker
    bit of the dropped packet is still or-ed into the frame's). The
    duplicate flag is raised by that call exactly when the bitmap still
    holds the bit of the sequence number, and a report emitted by the
    same call carries the flag and lowers it again. *)
Theorem packets_descending_duplicates_dropped :
  (forall b, reachable b ->
     Forall (fun node => descending (cdata node)) (frames b)) /\
  (forall e b pkt pre node post,
     reachable b -> wf_packet pkt ->
     frames b = pre ++ node :: post ->
     rtp_timestamp node = Pkt.ts pkt ->
     descending_all (cdata node) ->
     In (Pkt.seq pkt) (map seqno (cdata node)) ->
     exists b' report,
       pbuf_insert e b pkt = Some (b', report) /\
       frames b' =
         pre ++ with_cdata (cdata node)
                  (Z.lor (mbit node) (Z.b2z (Pkt.m pkt))) node :: post /\
       count_occ Z.eq_dec (map seqno (cdata node)) (Pkt.seq pkt) = 1%nat /\
       match report with
       | None => dups b' = seen b (Pkt.seq pkt) || dups b
       | Some r => rep_dups r = seen b (Pkt.seq pkt) || dups b
                   /\ dups b' = false
       end).
Proof.
  split.
  - intros b Hb. destruct (reachable_ok b Hb) as (_ & Hfr & _).
    eapply Forall_impl; [|exact Hfr]. intros node [_ Hd]. exact Hd.
  - intros e b pkt pre node post Hb Hpkt Hfs Hts Hall Hin.
    pose proof (reachable_ok b Hb) as Hok.
    assert (Hal : cursor_aligned b).
    { apply reachable_cursor; [exact Hb|]. rewrite Hfs.
      destruct pre; discriminate. }
    destruct (pbuf_insert_dups e b pkt Hok Hal Hpkt)
      as (b' & report & Hins & Hdups).
    exists b', report. split; [exact Hins|].
    split; [|split; [apply descending_all_once; assumption|exact Hdups]].
    destruct Hok as (Hst & Hfr & Hasc).
    unfold pbuf_insert in Hins.
    destruct (collect_statistics_ok b pkt Hst Hpkt)
      as (b1 & r1 & Hcol & _ & _ & Hs1).
    rewrite Hcol in Hins. simpl in Hins.
    rewrite (insert_frame_store e b b1 pkt Hs1) in Hins.
    rewrite (insert_frame_existing e b pkt pre node _ post Hasc Hfs Hts
               (add_coded_unit_duplicate node pkt Hall Hts Hin)) in Hins.
    simpl in Hins. injection Hins as <- _. reflexivity.
Qed.

Lemma packets_descending_duplicates_dropped_witness :
  let b := run scenario_B_first in
  let node := create_new_pnode 0 (packet 100 1 false) 32000 in
  let pkt := packet 100 1 false in
  let e := {| now := 1; offset_ms := None |} in
  (seen b 1 = true /\ dups b = false) /\
  exists b' report,
    pbuf_insert e b pkt = Some (b', report) /\
    frames b' =
      [] ++ with_cdata (cdata node)
              (Z.lor (mbit node) (Z.b2z (Pkt.m pkt))) node :: [] /\
    count_occ Z.eq_dec (map seqno (cdata node)) (Pkt.seq pkt) = 1%nat /\
    match report with
    | None => dups b' = seen b (Pkt.seq pkt) || dups b
    | Some r => rep_dups r = seen b (Pkt.seq pkt) || dups b
                /\ dups b' = false
    end.
Proof.
  cbn zeta. split; [vm_compute; auto|].
  apply (proj2 packets_descending_duplicates_dropped).
  - apply run_reachable.
    repeat (constructor; [split; simpl; lia|]). constructor.
  - split; simpl; lia.
  - vm_compute. reflexivity.
  - reflexivity.
  - repeat constructor.
  - left. reflexivity.
Defined.

(** C4, as stated, fails twice. A duplicate that arrives after the
    interval of its sequence number was flushed is dropped from the frame
    without the duplicate flag being raised. And in a frame that spans
    more than half a turn of the sequence counter a duplicate is not
    found: it is filed at the head, and the frame holds two packets of
    the number. Scenario E itself goes as the spec says. *)
Lemma duplicate_unflagged_or_kept :
  (map frame_view (frames (run late_duplicate))
     = [(100, [256; 0], 0, false, false)]
   /\ dups (run late_duplicate) = false) /\
  (map frame_view (frames (run wide_frame_duplicate))
     = [(100, [0; 40000; 20000; 0], 0, false, false)]) /\
  (map frame_view (frames (run scenario_E))
     = [(100, [1], 0, false, false)]
   /\ dups (run scenario_E) = true).
Proof. vm_compute. auto 10. Qed.

(** * Further properties *)

(** ** What one call of pbuf_insert does to the frame list *)

Lemma file_coded_unit_cases tmp : forall l,
  (file_coded_unit tmp l = l /\
   exists c, In c l /\ i16 (seqno tmp - seqno c) = 0) \/
  exists l1 l2, l = l1 ++ l2 /\ file_coded_unit tmp l = l1 ++ tmp :: l2.
Proof.
  induction l as [|c nxt IH]; simpl.
  - right. exists [], []. auto.
  - destruct (Z.ltb_spec (i16 (seqno tmp - seqno c)) 0) as [Hlt|Hge].
    + destruct IH as [[-> (c' & Hin & Hc')]|(l1 & l2 & Hl & ->)].
      * left. split; [reflexivity|]. exists c'. auto.
      * right. exists (c :: l1), l2. simpl. rewrite Hl. auto.
    + destruct (Z.gtb_spec (i16 (seqno tmp - seqno c)) 0) as [Hgt|Hle].
      * right. exists [], (c :: nxt). auto.
      * left. split; [reflexivity|]. exists c. split; [auto|lia].
Qed.

(** A packet that add_coded_unit accepts belongs to the frame; the frame
    comes back with the marker bit or-ed in and with its packet list
    either as it was or with the one packet put in. *)
Lemma add_coded_unit_some x pkt y :
  add_coded_unit x pkt = Some y ->
  rtp_timestamp x = Pkt.ts pkt /\
  exists cd,
    y = with_cdata cd (Z.lor (mbit x) (Z.b2z (Pkt.m pkt))) x /\
    ((cd = cdata x /\
      exists c, In c (cdata x) /\ i16 (Pkt.seq pkt - seqno c) = 0) \/
     exists l1 l2, cdata x = l1 ++ l2 /\
       cd = l1 ++ {| seqno := Pkt.seq pkt; data := pkt |} :: l2).
Proof.
  unfold add_coded_unit.
  destruct (Z.eqb_spec (rtp_timestamp x) (Pkt.ts pkt)) as [Hts|]; simpl;
    [|discriminate].
  destruct (cdata x) as [|hd cd] eqn:Hcd; [discriminate|].
  destruct (i16 (Pkt.seq pkt - seqno hd) >? 0); intros H; injection H as <-.
  - split; [exact Hts|]. eexists. split; [reflexivity|].
    right. exists [], (hd :: cd). auto.
  - split; [exact Hts|]. eexists. split; [reflexivity|].
    exact (file_coded_unit_cases
             {| seqno := Pkt.seq pkt; data := pkt |} (hd :: cd)).
Qed.

Lemma insert_previous_cases pkt : forall curr r,
  insert_previous pkt curr = Some r ->
  r = curr \/
  exists younger x y older,
    curr = younger ++ x :: older /\ r = younger ++ y :: older /\
    add_coded_unit x pkt = Some y.
Proof.
  induction curr as [|node prv IH]; intros r Hr; simpl in Hr.
  - injection Hr as <-. left. reflexivity.
  - destruct (negb match prv with [] => true | _ => false end
              && (rtp_timestamp node >? Pkt.ts pkt)).
    + destruct (insert_previous pkt prv) as [prv'|] eqn:Hprv;
        [|discriminate Hr].
      simpl in Hr. injection Hr as <-.
      destruct (IH prv' eq_refl) as [->|(yg & x & y & old & -> & -> & Hadd)];
        [left; reflexivity|].
      right. exists (node :: yg), x, y, old. auto.
    + destruct (rtp_timestamp node =? Pkt.ts pkt).
      * destruct (add_coded_unit node pkt) as [node'|] eqn:Hadd;
          [|discriminate Hr].
        simpl in Hr. injection Hr as <-.
        right. exists [], node, node', prv. auto.
      * injection Hr as <-. left. reflexivity.
Qed.

(** The three things pbuf_insert can do to the frame list: link a frame
    made from the packet after the tail (whose [completed] flag it sets),
    file the packet into one frame, or leave the list alone (the packet
    is discarded). *)
Lemma insert_frame_cases e b pkt fs :
  insert_frame e b pkt = Some fs ->
  (opens_frame b pkt = true /\
   ((frames b = [] /\
     fs = [create_new_pnode (now e) pkt (frame_delay_us e b)]) \/
    (exists prvs tl, frames b = prvs ++ [tl] /\
       rtp_timestamp tl < Pkt.ts pkt /\
       fs = prvs ++ [with_completed true tl;
                     create_new_pnode (now e) pkt (frame_delay_us e b)]))) \/
  (opens_frame b pkt = false /\
   ((exists pre x y post,
       frames b = pre ++ x :: post /\ fs = pre ++ y :: post /\
       add_coded_unit x pkt = Some y) \/
    fs = frames b)).
Proof.
  unfold insert_frame, opens_frame.
  destruct (rev (frames b)) as [|last prvs] eqn:Hrev.
  - apply (f_equal (@rev _)) in Hrev. rewrite rev_involutive in Hrev.
    simpl in Hrev. intros H. injection H as <-. left. auto.
  - pose proof (rev_eq_cons _ _ _ Hrev) as Hfs.
    destruct (Z.eqb_spec (rtp_timestamp last) (Pkt.ts pkt)) as [Heq|Hne].
    + destruct (add_coded_unit last pkt) as [last'|] eqn:Hadd;
        [|discriminate].
      simpl. intros H. injection H as <-. right.
      split; [apply Z.ltb_ge; lia|]. left.
      exists (rev prvs), last, last', []. auto.
    + destruct (Z.ltb_spec (rtp_timestamp last) (Pkt.ts pkt)) as [Hlt|Hge].
      * intros H. injection H as <-. left. split; [reflexivity|]. right.
        exists (rev prvs), last. simpl. rewrite <- app_assoc. auto.
      * destruct (frames b) as [|frst rest] eqn:Hfr.
        { destruct (rev prvs); discriminate Hfs. }
        destruct (rtp_timestamp frst >? Pkt.ts pkt).
        { intros H. injection H as <-. right. auto. }
        destruct (insert_previous pkt (last :: prvs)) as [r|] eqn:Hins;
          [|discriminate].
        simpl. intros H. injection H as <-. right. split; [reflexivity|].
        destruct (insert_previous_cases pkt _ _ Hins)
          as [->|(yg & x & y & old & Hcurr & -> & Hadd)].
        { right. simpl. congruence. }
        left. exists (rev old), x, y, (rev yg).
        rewrite Hfs.
        change (rev prvs ++ [last]) with (rev (last :: prvs)).
        rewrite Hcurr, !rev_app_distr. simpl. rewrite <- !app_assoc.
        auto.
Qed.

(** One call on a well-formed buffer returns, and its frame list is what
    insert_frame makes of the frame list before the call. *)
Lemma pbuf_insert_frames e b pkt :
  pbuf_ok b -> wf_packet pkt ->
  exists b' report,
    pbuf_insert e b pkt = Some (b', report) /\
    insert_frame e b pkt = Some (frames b') /\
    pbuf_ok b'.
Proof.
  intros Hok Hpkt.
  destruct (pbuf_insert_ok e b pkt Hok Hpkt) as (b' & report & Hins & Hok' & _).
  exists b', report. split; [exact Hins|]. split; [|exact Hok'].
  destruct Hok as (Hst & _).
  unfold pbuf_insert in Hins.
  destruct (collect_statistics_ok b pkt Hst Hpkt)
    as (b1 & r1 & Hcol & _ & _ & Hs1).
  rewrite Hcol in Hins. simpl in Hins.
  rewrite (insert_frame_store e b b1 pkt Hs1) in Hins.
  destruct (insert_frame e b pkt) as [fs|]; [|discriminate Hins].
  simpl in Hins. injection Hins as <- _. reflexivity.
Qed.

Lemma frame_advances_refl x : frame_advances x x.
Proof. unfold frame_advances. tauto. Qed.

Lemma frame_advances_completed x : frame_advances x (with_completed true x).
Proof.
  unfold frame_advances, frame_complete. simpl.
  repeat split; auto using orb_true_r.
Qed.

Lemma frame_advances_decoded x : frame_advances x (with_decoded 1 x).
Proof.
  unfold frame_advances, frame_complete. simpl.
  repeat split; auto; discriminate.
Qed.

Lemma lor_marker mb (m : bool) : mb = 1 -> Z.lor mb (Z.b2z m) = 1.
Proof. intros ->. destruct m; reflexivity. Qed.

Lemma frame_advances_added x pkt y :
  add_coded_unit x pkt = Some y -> frame_advances x y.
Proof.
  intros H. destruct (add_coded_unit_some x pkt y H) as (_ & cd & -> & _).
  unfold frame_advances, frame_complete. simpl.
  repeat split; auto. intros Hc.
  apply orb_true_iff in Hc. destruct Hc as [Hm|Hc].
  - apply Z.eqb_eq in Hm. rewrite (lor_marker _ _ Hm). reflexivity.
  - rewrite Hc. apply orb_true_r.
Qed.

Lemma Forall2_advances_refl fs : Forall2 frame_advances fs fs.
Proof.
  induction fs; constructor; [apply frame_advances_refl|assumption].
Qed.

(** X1. pbuf_insert never unlinks or reorders frames. Every frame held
    before the call is still there, in the same place, with the same
    timestamp, arrival time, playout time and magic number, decoded if
    it was decoded and complete if it was complete; at most one frame is
    added, at the tail; and the buffer is not empty after the call. *)
Theorem pbuf_insert_keeps_frames e b pkt :
  pbuf_ok b -> wf_packet pkt ->
  exists b' report kept new,
    pbuf_insert e b pkt = Some (b', report) /\
    frames b' = kept ++ new /\
    Forall2 frame_advances (frames b) kept /\
    (length new <= 1)%nat /\
    pbuf_is_empty b' = false.
Proof.
  intros Hok Hpkt.
  destruct (pbuf_insert_frames e b pkt Hok Hpkt)
    as (b' & report & Hins & Hfs & _).
  exists b', report.
  destruct (insert_frame_cases e b pkt _ Hfs)
    as [[_ [[Hnil Hnew]|(prvs & tl & Hb & _ & Hnew)]]
       |[_ [(pre & x & y & post & Hb & Hnew & Hadd)|Hsame]]].
  - exists [], (frames b'). rewrite Hnil. unfold pbuf_is_empty.
    rewrite Hnew. split; [exact Hins|]. split; [reflexivity|].
    split; [constructor|]. split; [simpl; lia|reflexivity].
  - exists (prvs ++ [with_completed true tl]),
      [create_new_pnode (now e) pkt (frame_delay_us e b)].
    unfold pbuf_is_empty. rewrite Hnew, Hb, <- app_assoc.
    split; [exact Hins|]. split; [reflexivity|]. split.
    + apply Forall2_app; [apply Forall2_advances_refl|].
      constructor; [apply frame_advances_completed|constructor].
    + split; [simpl; lia|]. destruct prvs; reflexivity.
  - exists (frames b'), []. unfold pbuf_is_empty. rewrite Hnew, Hb, app_nil_r.
    split; [exact Hins|]. split; [reflexivity|]. split.
    + apply Forall2_app; [apply Forall2_advances_refl|].
      constructor; [exact (frame_advances_added x pkt y Hadd)
                   |apply Forall2_advances_refl].
    + split; [simpl; lia|]. destruct pre; reflexivity.
  - exists (frames b'), []. unfold pbuf_is_empty. rewrite Hsame, app_nil_r.
    split; [exact Hins|]. split; [reflexivity|]. split.
    + apply Forall2_advances_refl.
    + split; [simpl; lia|].
      destruct (frames b) as [|f fs] eqn:Hfr; [|reflexivity].
      unfold insert_frame in Hfs. rewrite Hfr in Hfs. simpl in Hfs.
      rewrite Hsame in Hfs. discriminate Hfs.
Qed.

Lemma pbuf_insert_keeps_frames_witness :
  exists b' report kept new,
    pbuf_insert {| now := 5; offset_ms := None |} (run scenario_B_first)
      (packet 200 2 false) = Some (b', report) /\
    frames b' = kept ++ new /\
    Forall2 frame_advances (frames (run scenario_B_first)) kept /\
    (length new <= 1)%nat /\
    pbuf_is_empty b' = false.
Proof.
  apply pbuf_insert_keeps_frames.
  - apply reachable_ok, run_reachable.
    repeat (constructor; [split; simpl; lia|]). constructor.
  - split; simpl; lia.
Defined.

(** ** The packets held *)

Lemma free_cdata_app l1 l2 :
  free_cdata (l1 ++ l2) = free_cdata l1 ++ free_cdata l2.
Proof. induction l1 as [|c l1 IH]; simpl; [reflexivity|]. rewrite IH. reflexivity. Qed.

Lemma destroy_from_app fs1 fs2 :
  destroy_from (fs1 ++ fs2) = destroy_from fs1 ++ destroy_from fs2.
Proof.
  induction fs1 as [|x fs1 IH]; simpl; [reflexivity|].
  rewrite IH, app_assoc. reflexivity.
Qed.

(** X2. pbuf_insert loses no packet. The packets that pbuf_destroy would
    free after the call are those it would have freed before it, in the
    same order, with the new packet put in at one place, or, when the
    packet was dropped, with nothing added. *)
Theorem pbuf_insert_holds_or_drops e b pkt :
  pbuf_ok b -> wf_packet pkt ->
  exists b' report,
    pbuf_insert e b pkt = Some (b', report) /\
    (snd (pbuf_destroy (Some b')) = snd (pbuf_destroy (Some b)) \/
     exists l1 l2,
       snd (pbuf_destroy (Some b)) = l1 ++ l2 /\
       snd (pbuf_destroy (Some b')) = l1 ++ pkt :: l2).
Proof.
  intros Hok Hpkt.
  destruct (pbuf_insert_frames e b pkt Hok Hpkt)
    as (b' & report & Hins & Hfs & _).
  exists b', report. split; [exact Hins|]. simpl.
  destruct (insert_frame_cases e b pkt _ Hfs)
    as [[_ [[Hnil Hnew]|(prvs & tl & Hb & _ & Hnew)]]
       |[_ [(pre & x & y & post & Hb & Hnew & Hadd)|Hsame]]].
  - right. exists [], []. rewrite Hnil, Hnew. auto.
  - right. rewrite Hnew, Hb, !destroy_from_app. simpl.
    exists (destroy_from prvs ++ free_cdata (cdata tl)), [].
    rewrite !app_nil_r, <- app_assoc. auto.
  - rewrite Hnew, Hb, !destroy_from_app. simpl.
    destruct (add_coded_unit_some x pkt y Hadd)
      as (_ & cd & -> & [[-> _]|(l1 & l2 & Hx & ->)]).
    + left. reflexivity.
    + right. simpl. rewrite Hx, !free_cdata_app. simpl.
      exists (destroy_from pre ++ free_cdata l1),
        (free_cdata l2 ++ destroy_from post).
      rewrite <- !app_assoc. auto.
  - left. rewrite Hsame. reflexivity.
Qed.

Lemma pbuf_insert_holds_or_drops_witness :
  exists b' report,
    pbuf_insert {| now := 5; offset_ms := None |} (run scenario_B_first)
      (packet 200 2 false) = Some (b', report) /\
    (snd (pbuf_destroy (Some b'))
       = snd (pbuf_destroy (Some (run scenario_B_first))) \/
     exists l1 l2,
       snd (pbuf_destroy (Some (run scenario_B_first))) = l1 ++ l2 /\
       snd (pbuf_destroy (Some b')) = l1 ++ packet 200 2 false :: l2).
Proof.
  apply pbuf_insert_holds_or_drops.
  - apply reachable_ok, run_reachable.
    repeat (constructor; [split; simpl; lia|]). constructor.
  - split; simpl; lia.
Defined.

(** ** What pbuf_validate checks *)

Lemma decode_from_scanned {D : Type}
    (f : list coded_data -> D -> pbuf_stats -> Z * D) curr_time stats :
  forall curr user,
    Forall2 scanned curr (snd (fst (decode_from f curr_time stats user curr))).
Proof.
  induction curr as [|node nxt IH]; intros user; simpl; [constructor|].
  specialize (IH user).
  destruct (decode_from f curr_time stats user nxt) as [[ret nxt'] user'].
  assert (Hrefl : Forall2 scanned nxt nxt).
  { clear. induction nxt; constructor; [left; reflexivity|assumption]. }
  destruct ((decoded node =? 0) && (curr_time >? playout_time node)).
  - destruct (frame_complete node).
    + destruct (f (cdata node) user stats) as [ret0 user0]. simpl.
      constructor; [right; right; reflexivity|exact Hrefl].
    + simpl in *. constructor; [|exact IH].
      destruct (curr_time >? playout_time node + one_second);
        [right; left; reflexivity|left; reflexivity].
  - simpl in *. constructor; [left; reflexivity|exact IH].
Qed.

Lemma frame_sound_scanned x y : scanned x y -> frame_sound x -> frame_sound y.
Proof.
  intros [->|[->| ->]] H; [exact H| |]; exact H.
Qed.

Lemma frame_sound_new clock pkt delay :
  wf_packet pkt -> frame_sound (create_new_pnode clock pkt delay).
Proof.
  intros Hpkt. unfold frame_sound, packets_ok, create_new_pnode. simpl.
  split; [reflexivity|]. split; [destruct (Pkt.m pkt); auto|].
  constructor; [auto|constructor].
Qed.

Lemma frame_sound_added x pkt y :
  wf_packet pkt -> add_coded_unit x pkt = Some y ->
  frame_sound x -> frame_sound y.
Proof.
  intros Hpkt Hadd [Hmagic [Hm Hcd]].
  destruct (add_coded_unit_some x pkt y Hadd) as (Hts & cd & -> & Hshape).
  unfold frame_sound, packets_ok. simpl.
  split; [exact Hmagic|]. split.
  - destruct Hm as [-> | ->]; destruct (Pkt.m pkt); auto.
  - destruct Hshape as [[-> _]|(l1 & l2 & Hx & ->)]; [exact Hcd|].
    rewrite Hx in Hcd. apply Forall_app in Hcd. destruct Hcd as [H1 H2].
    apply Forall_app. split; [exact H1|].
    constructor; [simpl; auto|exact H2].
Qed.

(** In every state the buffer can reach, each frame carries the magic
    number and holds well-formed packets of its own timestamp, each filed
    under its own sequence number. *)
Lemma reachable_sound b : reachable b -> Forall frame_sound (frames b).
Proof.
  induction 1 as [|e b pkt b' report Hb IH Hpkt Hins|D f b t user Hb IH
                  |b t Hb IH|b d Hb IH].
  - constructor.
  - destruct (pbuf_insert_frames e b pkt (reachable_ok b Hb) Hpkt)
      as (b2 & r2 & Hins2 & Hfs & _).
    assert (b2 = b') by congruence. subst b2.
    destruct (insert_frame_cases e b pkt _ Hfs)
      as [[_ [[Hnil ->]|(prvs & tl & Hfr & _ & ->)]]
         |[_ [(pre & x & y & post & Hfr & -> & Hadd)| ->]]].
    + constructor; [apply frame_sound_new; exact Hpkt|constructor].
    + rewrite Hfr in IH. apply Forall_app in IH. destruct IH as [H1 H2].
      inversion H2 as [|? ? Htl _]; subst.
      apply Forall_app. split; [exact H1|].
      constructor; [exact Htl|].
      constructor; [apply frame_sound_new; exact Hpkt|constructor].
    + rewrite Hfr in IH. apply Forall_app in IH. destruct IH as [H1 H2].
      inversion H2 as [|? ? Hx Hpost]; subst.
      apply Forall_app. split; [exact H1|].
      constructor; [exact (frame_sound_added x pkt y Hpkt Hadd Hx)|exact Hpost].
    + exact IH.
  - unfold pbuf_decode.
    pose proof (decode_from_scanned f t
      {| stat_received_pkts_cum := received_pkts_cum b;
         stat_expected_pkts_cum := expected_pkts_cum b |}
      (frames b) user) as Hsc.
    destruct (decode_from f t _ user (frames b)) as [[ret fs] user'].
    simpl in *. clear - IH Hsc.
    induction Hsc as [|x y l l' Hxy _ IHl]; [constructor|].
    inversion IH; subst.
    constructor; [exact (frame_sound_scanned x y Hxy ltac:(assumption))|].
    apply IHl. assumption.
  - unfold pbuf_remove. simpl.
    destruct (remove_from_suffix t (frames b)) as (ev & Heq & _).
    rewrite Heq in IH. apply Forall_app in IH. tauto.
  - exact IH.
Qed.

Lemma validate_from_chain : forall l ppb,
  Forall frame_sound l ->
  StronglySorted Z.lt (map rtp_timestamp (option_list ppb ++ l)) ->
  validate_from ppb l = true.
Proof.
  induction l as [|node nxt IH]; intros ppb Hs Hasc; simpl; [reflexivity|].
  inversion Hs as [|? ? [Hmagic _] Hnxt]; subst.
  rewrite Hmagic, Z.eqb_refl. simpl.
  destruct ppb as [prv|]; simpl in Hasc.
  - inversion Hasc as [|? ? Hrest Hall]; subst.
    inversion Hall as [|? ? Hlt _]; subst.
    replace (rtp_timestamp node >? rtp_timestamp prv) with true
      by (symmetry; apply Z.gtb_gt; lia).
    simpl. apply IH; [exact Hnxt|exact Hrest].
  - apply IH; [exact Hnxt|exact Hasc].
Qed.

(** X3. Whatever calls were made on it, the buffer passes the checks of
    pbuf_validate: every frame carries the magic number and has a
    timestamp strictly above that of the frame before it. *)
Theorem reachable_passes_validate b :
  reachable b -> pbuf_validate b = true.
Proof.
  intros Hb. unfold pbuf_validate.
  apply validate_from_chain.
  - apply reachable_sound. exact Hb.
  - destruct (reachable_ok b Hb) as (_ & _ & Hasc). exact Hasc.
Qed.

Lemma reachable_passes_validate_witness :
  pbuf_validate (run scenario_B) = true.
Proof.
  apply reachable_passes_validate, run_reachable.
  repeat (constructor; [split; simpl; lia|]). constructor.
Defined.

(** ** Filing and discarding packets *)

(** X4. A packet for a frame of the buffer, wherever the frame stands,
    whose sequence number the frame does not hold yet, is stored in that
    frame: pbuf_insert returns, the packet is put into the frame's list at
    one place, the list is still in descending order, the marker bit is
    or-ed into the frame's, and no other frame changes. *)
Theorem new_packet_filed e b pkt pre node post :
  reachable b -> wf_packet pkt ->
  frames b = pre ++ node :: post ->
  rtp_timestamp node = Pkt.ts pkt ->
  ~ In (Pkt.seq pkt) (map seqno (cdata node)) ->
  exists b' report l1 l2,
    pbuf_insert e b pkt = Some (b', report) /\
    cdata node = l1 ++ l2 /\
    frames b' =
      pre ++ with_cdata (l1 ++ {| seqno := Pkt.seq pkt; data := pkt |} :: l2)
               (Z.lor (mbit node) (Z.b2z (Pkt.m pkt))) node :: post /\
    descending (l1 ++ {| seqno := Pkt.seq pkt; data := pkt |} :: l2).
Proof.
  intros Hb Hpkt Hfs Hts Hfresh.
  pose proof (reachable_ok b Hb) as Hok.
  pose proof (reachable_sound b Hb) as Hsound.
  destruct (pbuf_insert_frames e b pkt Hok Hpkt)
    as (b' & report & Hins & Hfs' & _).
  destruct Hok as (_ & Hfr & Hasc).
  rewrite Hfs in Hfr, Hsound.
  apply Forall_app in Hfr. destruct Hfr as [_ Hfr].
  inversion Hfr as [|? ? Hnode _]; subst.
  apply Forall_app in Hsound. destruct Hsound as [_ Hsound].
  inversion Hsound as [|? ? [_ [_ Hcd]] _]; subst.
  destruct (add_coded_unit_ok node pkt Hnode Hts)
    as (node' & Hadd & [_ Hdesc] & _).
  rewrite (insert_frame_existing e b pkt pre node node' post Hasc Hfs Hts Hadd)
    in Hfs'.
  injection Hfs' as Hfs'.
  destruct (add_coded_unit_some node pkt node' Hadd)
    as (_ & cd & -> & [[_ (c & Hin & Hc)]|(l1 & l2 & Hx & ->)]).
  - exfalso. apply Hfresh. apply in_map_iff. exists c. split; [|exact Hin].
    rewrite Forall_forall in Hcd. destruct (Hcd c Hin) as (Hsq & [_ Hr] & _).
    symmetry. apply i16_zero; [apply Hpkt|rewrite Hsq; exact Hr|exact Hc].
  - exists b', report, l1, l2. split; [exact Hins|]. split; [exact Hx|].
    split; [symmetry; exact Hfs'|exact Hdesc].
Qed.

Lemma new_packet_filed_witness :
  let node := create_new_pnode 0 (packet 100 1 false) 32000 in
  let pkt := packet 100 7 true in
  exists b' report l1 l2,
    pbuf_insert {| now := 1; offset_ms := None |} (run scenario_B_first) pkt
      = Some (b', report) /\
    cdata node = l1 ++ l2 /\
    frames b' =
      [] ++ with_cdata (l1 ++ {| seqno := Pkt.seq pkt; data := pkt |} :: l2)
              (Z.lor (mbit node) (Z.b2z (Pkt.m pkt))) node :: [] /\
    descending (l1 ++ {| seqno := Pkt.seq pkt; data := pkt |} :: l2).
Proof.
  cbn zeta. apply new_packet_filed.
  - apply run_reachable.
    repeat (constructor; [split; simpl; lia|]). constructor.
  - split; simpl; lia.
  - vm_compute. reflexivity.
  - reflexivity.
  - simpl. intros [H|[]]. discriminate H.
Defined.

(** X5. A packet that is not younger than the tail frame and whose
    timestamp no frame of the buffer has is discarded: pbuf_insert
    returns and the frame list is as it was. That is the packet older
    than the head frame as well as the one that falls between two
    frames. *)
Theorem unmatched_packet_discarded e b pkt :
  pbuf_ok b -> wf_packet pkt ->
  opens_frame b pkt = false ->
  ~ In (Pkt.ts pkt) (map rtp_timestamp (frames b)) ->
  exists b' report,
    pbuf_insert e b pkt = Some (b', report) /\ frames b' = frames b.
Proof.
  intros Hok Hpkt Hopen Hnone.
  destruct (pbuf_insert_frames e b pkt Hok Hpkt)
    as (b' & report & Hins & Hfs & _).
  exists b', report. split; [exact Hins|].
  destruct (insert_frame_cases e b pkt _ Hfs)
    as [[Htrue _]|[_ [(pre & x & y & post & Hb & _ & Hadd)|Hsame]]].
  - congruence.
  - exfalso. apply Hnone.
    destruct (add_coded_unit_some x pkt y Hadd) as [<- _].
    rewrite Hb, map_app. apply in_or_app. right. left. reflexivity.
  - exact Hsame.
Qed.

Lemma unmatched_packet_discarded_witness :
  exists b' report,
    pbuf_insert {| now := 9; offset_ms := None |} (run scenario_B)
      (packet 150 3 true) = Some (b', report) /\
    frames b' = frames (run scenario_B).
Proof.
  apply unmatched_packet_discarded.
  - apply reachable_ok, run_reachable.
    repeat (constructor; [split; simpl; lia|]). constructor.
  - split; simpl; lia.
  - vm_compute. reflexivity.
  - vm_compute. intros [H|[H|[]]]; discriminate H.
Defined.

(** ** More on the scheduler passes *)

Lemma scanned_advances x y : scanned x y -> frame_advances x y.
Proof.
  intros [->|[->| ->]];
    [apply frame_advances_refl|apply frame_advances_completed
    |apply frame_advances_decoded].
Qed.

Lemma scanned_packets x y :
  scanned x y -> cdata y = cdata x /\ mbit y = mbit x.
Proof. intros [->|[->| ->]]; auto. Qed.

(** X6. pbuf_decode unlinks no frame and touches no packet. After the
    call the buffer holds the same frames in the same order, each with
    its timestamp, times, packet list and marker bit as before, decoded
    if it was decoded and complete if it was complete; nothing but the
    frame list differs from the buffer before the call. *)
Theorem pbuf_decode_keeps_frames {D : Type}
    (f : list coded_data -> D -> pbuf_stats -> Z * D) b curr_time user :
  let b' := snd (fst (pbuf_decode f b curr_time user)) in
  Forall2 frame_advances (frames b) (frames b') /\
  map cdata (frames b') = map cdata (frames b) /\
  map mbit (frames b') = map mbit (frames b) /\
  b' = with_frames (frames b') b.
Proof.
  cbn zeta. unfold pbuf_decode.
  pose proof (decode_from_scanned f curr_time
    {| stat_received_pkts_cum := received_pkts_cum b;
       stat_expected_pkts_cum := expected_pkts_cum b |}
    (frames b) user) as Hsc.
  destruct (decode_from f curr_time _ user (frames b)) as [[ret fs] user'].
  simpl in *. split; [|split; [|split; [|reflexivity]]].
  - induction Hsc; constructor; [apply scanned_advances|]; assumption.
  - induction Hsc as [|x y l l' Hxy _ IH]; [reflexivity|].
    simpl. rewrite IH, (proj1 (scanned_packets x y Hxy)). reflexivity.
  - induction Hsc as [|x y l l' Hxy _ IH]; [reflexivity|].
    simpl. rewrite IH, (proj2 (scanned_packets x y Hxy)). reflexivity.
Qed.

Lemma decode_from_undecoded {D : Type}
    (f : list coded_data -> D -> pbuf_stats -> Z * D) curr_time stats :
  forall curr user,
    (undecoded (snd (fst (decode_from f curr_time stats user curr)))
     + (if existsb (ready curr_time) curr then 1 else 0))%nat
    = undecoded curr.
Proof.
  unfold undecoded.
  induction curr as [|node nxt IH]; intros user; simpl; [reflexivity|].
  specialize (IH user). unfold ready at 1.
  destruct (decode_from f curr_time stats user nxt) as [[ret nxt'] user'].
  destruct (decoded node =? 0) eqn:Hdec; simpl.
  - destruct (curr_time >? playout_time node) eqn:Hdue; simpl.
    + destruct (frame_complete node) eqn:Hc; simpl.
      * destruct (f (cdata node) user stats) as [ret0 user0]. simpl. lia.
      * simpl in IH.
        assert (Hd : forall c : bool,
                  (decoded (if c then with_completed true node else node)
                   =? 0) = true) by (intros []; exact Hdec).
        rewrite Hd. simpl. lia.
    + simpl in IH. rewrite Hdec. simpl. lia.
  - simpl in IH. rewrite Hdec. simpl. exact IH.
Qed.

(** X7. One call of pbuf_decode decodes at most one frame: the number of
    frames that wait to be decoded falls by one when some frame is
    undecoded, past its playout time and complete, and stays as it is
    otherwise. *)
Theorem pbuf_decode_one_frame {D : Type}
    (f : list coded_data -> D -> pbuf_stats -> Z * D) b curr_time user :
  (undecoded (frames (snd (fst (pbuf_decode f b curr_time user))))
   + (if existsb (ready curr_time) (frames b) then 1 else 0))%nat
  = undecoded (frames b).
Proof.
  unfold pbuf_decode.
  pose proof (decode_from_undecoded f curr_time
    {| stat_received_pkts_cum := received_pkts_cum b;
       stat_expected_pkts_cum := expected_pkts_cum b |}
    (frames b) user) as H.
  destruct (decode_from f curr_time _ user (frames b)) as [[ret fs] user'].
  exact H.
Qed.

Lemma remove_from_later t1 t2 : forall curr,
  t1 <= t2 ->
  remove_from t2 (remove_from t1 curr) = remove_from t2 curr.
Proof.
  intros curr Hle. induction curr as [|node nxt IH]; simpl; [reflexivity|].
  destruct (frame_complete node) eqn:Hc.
  - destruct (Z.gtb_spec t1 (playout_time node)) as [H1|H1]; simpl.
    + rewrite IH.
      destruct (Z.gtb_spec t2 (playout_time node)); [reflexivity|lia].
    + rewrite Hc. reflexivity.
  - rewrite !andb_false_r. simpl. rewrite Hc, andb_false_r. reflexivity.
Qed.

(** X8. Two calls of pbuf_remove in a row, the second at a time not before
    the first, leave the buffer as the second call alone would have; in
    particular a second call at the same time frees nothing more. *)
Theorem pbuf_remove_twice b t1 t2 :
  t1 <= t2 ->
  pbuf_remove (pbuf_remove b t1) t2 = pbuf_remove b t2.
Proof.
  intros Hle. unfold pbuf_remove. simpl.
  rewrite (remove_from_later t1 t2 (frames b) Hle). reflexivity.
Qed.

Lemma pbuf_remove_twice_witness :
  let b := with_frames [test_frame 100 0 true; test_frame 200 10 true;
                        test_frame 300 20 false] pbuf_init in
  pbuf_remove (pbuf_remove b 5) 15 = pbuf_remove b 15 /\
  frames (pbuf_remove b 15) = [test_frame 300 20 false].
Proof.
  cbn zeta. split; [apply pbuf_remove_twice; lia|reflexivity].
Defined.

(** X9. pbuf_remove does not look at the [decoded] flag: with the flag of
    every frame set to any one value, the same frames are freed and the
    same frames are kept. A complete frame past its playout time is
    freed whether or not it was ever decoded. *)
Theorem pbuf_remove_ignores_decoded b curr_time d :
  frames (pbuf_remove (with_frames (map (with_decoded d) (frames b)) b)
            curr_time)
  = map (with_decoded d) (frames (pbuf_remove b curr_time)).
Proof.
  unfold pbuf_remove. simpl.
  induction (frames b) as [|node nxt IH]; simpl; [reflexivity|].
  change (frame_complete (with_decoded d node)) with (frame_complete node).
  destruct ((curr_time >? playout_time node) && frame_complete node);
    [exact IH|reflexivity].
Qed.

Lemma decode_from_app_passes {D : Type}
    (f : list coded_data -> D -> pbuf_stats -> Z * D) curr_time stats :
  forall l1 l2 user,
    Forall (fun x => ready curr_time x = false) l1 ->
    decode_from f curr_time stats user (l1 ++ l2) =
      let '(ret, l2', user') := decode_from f curr_time stats user l2 in
      (ret, map (expire curr_time) l1 ++ l2', user').
Proof.
  induction l1 as [|x l1 IH]; intros l2 user Hall.
  - simpl. destruct (decode_from f curr_time stats user l2) as [[? ?] ?].
    reflexivity.
  - inversion Hall as [|? ? Hx Hl1]; subst.
    change ((x :: l1) ++ l2) with (x :: (l1 ++ l2)).
    rewrite (decode_from_passes f curr_time stats x _ user Hx), (IH l2 user Hl1).
    destruct (decode_from f curr_time stats user l2) as [[? ?] ?].
    reflexivity.
Qed.

Lemma decode_from_length {D : Type}
    (f : list coded_data -> D -> pbuf_stats -> Z * D) curr_time stats
    curr user :
  length (snd (fst (decode_from f curr_time stats user curr))) = length curr.
Proof.
  pose proof (decode_from_timestamps f curr_time stats curr user) as H.
  apply (f_equal (@length _)) in H. rewrite !length_map in H. exact H.
Qed.

Lemma decoded_not_ready t x : decoded x <> 0 -> ready t x = false.
Proof.
  intros H. unfold ready. apply Z.eqb_neq in H. rewrite H. reflexivity.
Qed.

Lemma decoded_not_expired t x : decoded x <> 0 -> expire t x = x.
Proof.
  intros H. unfold expire. apply Z.eqb_neq in H. rewrite H. reflexivity.
Qed.

(** X10. The grace period: a frame with every frame before it decoded,
    itself undecoded, incomplete and more than one second past its
    playout time, is not handed to the decoder by a call of pbuf_decode;
    the call marks it completed (and goes on to the frames after it).
    The next call, at any time after the frame's playout time, hands
    exactly that frame to the decoder and marks it decoded. *)
Theorem late_frame_decoded_next_call {D : Type}
    (f : list coded_data -> D -> pbuf_stats -> Z * D)
    b curr_time user pre node post :
  frames b = pre ++ node :: post ->
  Forall (fun x => decoded x <> 0) pre ->
  decoded node = 0 -> frame_complete node = false ->
  curr_time > playout_time node + one_second ->
  exists ret1 post1 user1,
    pbuf_decode f b curr_time user
      = (ret1, with_frames (pre ++ with_completed true node :: post1) b,
         user1) /\
    decode_from f curr_time (stats_of b) user post = (ret1, post1, user1) /\
    forall next_time, next_time > playout_time node ->
      pbuf_decode f (with_frames (pre ++ with_completed true node :: post1) b)
        next_time user1
      = (fst (f (cdata node) user1 (stats_of b)),
         with_frames
           (pre ++ with_decoded 1 (with_completed true node) :: post1) b,
         snd (f (cdata node) user1 (stats_of b))).
Proof.
  intros Hfs Hpre Hdec Hinc Hlate.
  assert (Hsec : 0 < one_second) by reflexivity.
  assert (Hdue : (curr_time >? playout_time node) = true)
    by (apply Z.gtb_gt; lia).
  assert (Hover : (curr_time >? playout_time node + one_second) = true)
    by (apply Z.gtb_gt; lia).
  assert (Hnode : ready curr_time node = false).
  { unfold ready. rewrite Hinc. apply andb_false_r. }
  assert (Hexp : expire curr_time node = with_completed true node).
  { unfold expire. rewrite Hdec, Hdue, Hinc, Hover. reflexivity. }
  assert (Hpre1 : Forall (fun x => ready curr_time x = false) (pre ++ [node])).
  { apply Forall_app. split; [|constructor; [exact Hnode|constructor]].
    eapply Forall_impl; [|exact Hpre]. intros x. apply decoded_not_ready. }
  assert (Hmap : forall t, map (expire t) pre = pre).
  { intros t. clear - Hpre. induction Hpre as [|x l Hx _ IH]; [reflexivity|].
    simpl. rewrite IH, (decoded_not_expired t x Hx). reflexivity. }
  destruct (decode_from f curr_time (stats_of b) user post)
    as [[ret1 post1] user1] eqn:Hpost.
  exists ret1, post1, user1. split; [|split; [reflexivity|]].
  - unfold pbuf_decode. fold (stats_of b). rewrite Hfs.
    replace (pre ++ node :: post) with ((pre ++ [node]) ++ post)
      by (rewrite <- app_assoc; reflexivity).
    rewrite (decode_from_app_passes f curr_time (stats_of b) _ post user Hpre1).
    rewrite Hpost, map_app, Hmap. simpl. rewrite Hexp, <- app_assoc.
    reflexivity.
  - intros next_time Hnext. unfold pbuf_decode. simpl frames.
    change (stats_of b) with
      (stats_of (with_frames (pre ++ with_completed true node :: post1) b)).
    fold (stats_of (with_frames (pre ++ with_completed true node :: post1) b)).
    rewrite (decode_from_found f next_time _ pre (with_completed true node)
               post1 user1).
    + rewrite Hmap. reflexivity.
    + eapply Forall_impl; [|exact Hpre]. intros x. apply decoded_not_ready.
    + unfold ready, frame_complete. simpl. rewrite Hdec. simpl.
      rewrite orb_true_r, andb_true_r. apply Z.gtb_gt. lia.
Qed.

Lemma late_frame_decoded_next_call_witness :
  let late := test_frame 100 0 false in
  let b := with_frames [with_decoded 1 (test_frame 50 0 true); late;
                        test_frame 200 10 false] pbuf_init in
  exists ret1 post1 user1,
    pbuf_decode logging_decoder b 2000000000 []
      = (ret1,
         with_frames ([with_decoded 1 (test_frame 50 0 true)]
                      ++ with_completed true late :: post1) b, user1) /\
    decode_from logging_decoder 2000000000 (stats_of b) []
      [test_frame 200 10 false] = (ret1, post1, user1) /\
    forall next_time, next_time > playout_time late ->
      pbuf_decode logging_decoder
        (with_frames ([with_decoded 1 (test_frame 50 0 true)]
                      ++ with_completed true late :: post1) b)
        next_time user1
      = (fst (logging_decoder (cdata late) user1 (stats_of b)),
         with_frames
           ([with_decoded 1 (test_frame 50 0 true)]
            ++ with_decoded 1 (with_completed true late) :: post1) b,
         snd (logging_decoder (cdata late) user1 (stats_of b))).
Proof.
  cbn zeta.
  apply (late_frame_decoded_next_call logging_decoder).
  - reflexivity.
  - constructor; [discriminate|constructor].
  - reflexivity.
  - reflexivity.
  - vm_compute. reflexivity.
Defined.

(** ** The bitmap of received sequence numbers *)

Lemma testbit_bit k j :
  0 <= k -> Z.testbit (Z.shiftl 1 k) j = (k =? j).
Proof.
  intros Hk. rewrite Z.shiftl_1_l. apply Z.pow2_bits_eqb. exact Hk.
Qed.

(** Or-ing the bit of sequence number [i] into its word marks [i] as seen
    and changes nothing for any other sequence number. *)
Lemma seen_set_bit pk i s :
  length pk = PACKETS_LEN -> 0 <= i < 65536 -> 0 <= s < 65536 ->
  Z.testbit
    (word_at (set_word pk (i / number_word_bits)
                (Z.lor (word_at pk (i / number_word_bits))
                   (Z.shiftl 1 (i mod number_word_bits))))
       (s / number_word_bits)) (s mod number_word_bits)
  = Z.testbit (word_at pk (s / number_word_bits)) (s mod number_word_bits)
    || (s =? i).
Proof.
  unfold number_word_bits, PACKETS_LEN. intros Hlen Hi Hs.
  assert (Hi64 : 0 <= i / 64 < 1024) by (Z.div_mod_to_equations; lia).
  assert (Hs64 : 0 <= s / 64 < 1024) by (Z.div_mod_to_equations; lia).
  assert (Him : 0 <= i mod 64 < 64) by (apply Z.mod_pos_bound; lia).
  destruct (Z.eq_dec (s / 64) (i / 64)) as [Heq|Hne].
  - rewrite Heq, word_at_set_same by lia.
    rewrite Z.lor_spec, testbit_bit by lia. f_equal.
    destruct (Z.eqb_spec (i mod 64) (s mod 64)) as [Hm|Hm];
      destruct (Z.eqb_spec s i) as [Hsi|Hsi]; try reflexivity; exfalso.
    + apply Hsi. rewrite (Z.div_mod s 64), (Z.div_mod i 64) by lia.
      congruence.
    + apply Hm. congruence.
  - rewrite word_at_set_other by lia.
    destruct (Z.eqb_spec s i) as [Hsi|Hsi]; [congruence|].
    rewrite orb_false_r. reflexivity.
Qed.

Lemma seen_mark_slot b i s :
  length (packets b) = PACKETS_LEN -> 0 <= i < 65536 -> 0 <= s < 65536 ->
  seen (mark_slot i b) s = seen b s || (s =? i).
Proof. intros Hlen Hi Hs. unfold seen, mark_slot. simpl. apply seen_set_bit; assumption. Qed.

Lemma seen_stats_mark b pkt s :
  length (packets b) = PACKETS_LEN -> wf_packet pkt -> 0 <= s < 65536 ->
  seen (stats_mark b pkt) s = seen b s || (s =? Pkt.seq pkt).
Proof.
  intros Hlen [_ Hseq] Hs. unfold seen, stats_mark. simpl.
  apply seen_set_bit; assumption.
Qed.

(** Marking [k] slots from [i] on, short of the end of the sequence
    space, marks exactly the slots [i .. i+k-1]. *)
Lemma seen_iter_mark_slot : forall k i b s,
  length (packets b) = PACKETS_LEN ->
  0 <= i < 65536 -> i + Z.of_nat k <= 65536 -> 0 <= s < 65536 ->
  seen (iter_u16 k i 1 mark_slot b) s
  = seen b s || ((i <=? s) && (s <? i + Z.of_nat k)).
Proof.
  induction k as [|k IH]; intros i b s Hlen Hi Hk Hs.
  - simpl iter_u16. change (Z.of_nat 0) with 0.
    destruct (Z.leb_spec i s); destruct (Z.ltb_spec s (i + 0)); simpl;
      try (rewrite orb_false_r; reflexivity); lia.
  - simpl iter_u16.
    destruct (Z.eq_dec (i + 1) 65536) as [Hend|Hmid].
    + assert (k = 0)%nat by lia. subst k. simpl iter_u16.
      rewrite seen_mark_slot by assumption. f_equal.
      destruct (Z.eqb_spec s i); destruct (Z.leb_spec i s);
        destruct (Z.ltb_spec s (i + Z.of_nat 1)); simpl; try reflexivity; lia.
    + rewrite u16_small by lia.
      rewrite IH; [|unfold mark_slot; simpl; rewrite set_word_length;
                    exact Hlen|lia|lia|exact Hs].
      rewrite seen_mark_slot by assumption.
      rewrite <- orb_assoc. f_equal.
      destruct (Z.eqb_spec s i); destruct (Z.leb_spec i s);
        destruct (Z.leb_spec (i + 1) s);
        destruct (Z.ltb_spec s (i + 1 + Z.of_nat k));
        destruct (Z.ltb_spec s (i + Z.of_nat (Datatypes.S k)));
        simpl; try reflexivity; lia.
Qed.

(** The loop leaves alone every word it does not pass. *)
Lemma iter_flush_keeps_word idx : forall k i b,
  0 <= i < 65536 -> 0 <= idx ->
  (forall j, 0 <= j < Z.of_nat k ->
     u16 (i + number_word_bits * j) / number_word_bits <> idx) ->
  word_at (packets (iter_u16 k i number_word_bits flush_word b)) idx
    = word_at (packets b) idx.
Proof.
  unfold number_word_bits.
  induction k as [|k IH]; intros i b Hi Hidx Hfree; [reflexivity|].
  simpl iter_u16. rewrite IH.
  - unfold flush_word, number_word_bits. simpl.
    apply word_at_set_other; [Z.div_mod_to_equations; lia|exact Hidx|].
    specialize (Hfree 0 ltac:(lia)).
    replace (i + 64 * 0) with i in Hfree by lia.
    rewrite u16_small in Hfree by lia. exact Hfree.
  - apply u16_range.
  - exact Hidx.
  - intros j Hj. rewrite u16_add_l.
    replace (i + 64 + 64 * j) with (i + 64 * (j + 1)) by lia.
    apply Hfree. lia.
Qed.

(** The loop never passes the word of the packet that set it off. *)
Lemma flush_spares_own_word cursor sq j :
  0 <= cursor < 65536 -> cursor mod 128 = 0 -> 0 <= sq < 65536 ->
  256 <= u16 (sq - cursor) ->
  0 <= j < 128 * (u16 (sq - cursor) / 128 - 1) / 64 ->
  u16 (u16 cursor + 64 * j) / 64 <> sq / 64.
Proof.
  unfold u16. intros Hc Hal Hs Hd Hj.
  rewrite (Z.mod_small cursor) by lia.
  Z.div_mod_to_equations. lia.
Qed.

Lemma stats_report_packets b pkt :
  packets (fst (stats_report b pkt)) = packets b /\
  last_report_seq (fst (stats_report b pkt)) = last_report_seq b.
Proof. unfold stats_report. destruct (report_due b pkt); auto. Qed.

Lemma cursor_catches_up cursor sq :
  0 <= cursor < 65536 -> cursor mod 128 = 0 -> 0 <= sq < 65536 ->
  u16 (sq - u16 (cursor + elapsed cursor sq)) < 256.
Proof.
  intros Hc Hal Hs. unfold elapsed, STATS_INTERVAL. cbn zeta.
  change (128 * 2) with 256.
  destruct (Z.ltb_spec (u16 (sq - cursor)) 256) as [Hlt|Hge].
  - rewrite Z.add_0_r, (u16_small cursor) by lia. exact Hlt.
  - unfold u16 in *.
    remember ((sq - cursor) mod 65536) as d eqn:Hd.
    assert (Hd1 : 0 <= d < 65536) by (subst d; apply Z.mod_pos_bound; lia).
    assert (Hd2 : exists k, sq - cursor = 65536 * k + d).
    { exists ((sq - cursor) / 65536). subst d. apply Z.div_mod. lia. }
    destruct Hd2 as (k & Hk). clear Hd.
    remember (d / 128) as q eqn:Hq.
    assert (Hq1 : 128 * q <= d < 128 * q + 128)
      by (subst q; Z.div_mod_to_equations; lia).
    clear Hq.
    assert (Hch : exists c, cursor = 128 * c).
    { exists (cursor / 128). Z.div_mod_to_equations. lia. }
    destruct Hch as (c & ->). clear Hal.
    Z.div_mod_to_equations. lia.
Qed.

(** After a call the bitmap holds the bit of the packet, whatever the
    call flushed, and the cursor is less than two intervals behind it. *)
Lemma pbuf_insert_seen e b pkt :
  pbuf_ok b -> wf_packet pkt ->
  exists b' report,
    pbuf_insert e b pkt = Some (b', report) /\
    seen b' (Pkt.seq pkt) = true /\
    pbuf_ok b' /\ cursor_aligned b' /\
    u16 (Pkt.seq pkt - last_report_seq b') < 256.
Proof.
  intros Hok Hpkt.
  destruct (pbuf_insert_ok e b pkt Hok Hpkt)
    as (b' & report & Hins & Hok' & Hal' & _).
  exists b', report. split; [exact Hins|].
  assert (Hgoal : seen b' (Pkt.seq pkt) = true /\
                  u16 (Pkt.seq pkt - last_report_seq b') < 256);
    [|tauto].
  destruct Hok as (Hst & _).
  unfold pbuf_insert, collect_statistics in Hins.
  destruct (stats_init_spec b pkt Hst Hpkt)
    as (b1 & Hinit & Hst1 & Hal1 & _).
  rewrite Hinit in Hins. simpl in Hins.
  destruct (stats_mark_spec b1 pkt Hst1) as (Hst2 & _ & _ & Hl2).
  assert (Hal2 : cursor_aligned (stats_mark b1 pkt)).
  { unfold cursor_aligned. rewrite Hl2. exact Hal1. }
  assert (Hseen2 : seen (stats_mark b1 pkt) (Pkt.seq pkt) = true).
  { destruct Hst1 as (_ & Hlen & _).
    rewrite seen_stats_mark by (try assumption; apply Hpkt).
    rewrite Z.eqb_refl. apply orb_true_r. }
  pose proof (stats_flush_spec (stats_mark b1 pkt) pkt Hst2 Hal2 Hpkt) as H.
  cbn zeta in H.
  destruct H as (b3 & Hfl & _ & _ & _ & _ & _ & Hl3 & _).
  assert (Hseen3 : seen b3 (Pkt.seq pkt) = true).
  { destruct (flush_due (stats_mark b1 pkt) pkt) eqn:Hdue.
    - pose proof (stats_flush_iter _ pkt Hal2 Hpkt Hdue) as H.
      cbn zeta in H. destruct H as [Hd Hiter].
      rewrite Hiter in Hfl. injection Hfl as <-.
      unfold seen in *. simpl packets.
      rewrite iter_flush_keeps_word; [exact Hseen2|apply u16_range| |].
      + destruct Hpkt as [_ Hseq]. unfold number_word_bits.
        Z.div_mod_to_equations. lia.
      + intros j Hj. unfold number_word_bits.
        destruct Hal2 as [Hc Hal].
        apply flush_spares_own_word; try assumption; [apply Hpkt|].
        rewrite Z2Nat.id in Hj; [exact Hj|].
        unfold u16 in *. Z.div_mod_to_equations. lia.
    - unfold stats_flush in Hfl. rewrite Hdue in Hfl.
      injection Hfl as <-. exact Hseen2. }
  rewrite Hfl in Hins. simpl in Hins.
  destruct (stats_report_packets b3 pkt) as [Hpk4 Hl4].
  destruct (stats_report b3 pkt) as [b4 r4]. simpl in *.
  destruct (insert_frame e b4 pkt) as [fs|]; [|discriminate Hins].
  simpl in Hins. injection Hins as <- _.
  unfold seen in *. simpl. rewrite Hpk4, Hl4, Hl3.
  split; [exact Hseen3|].
  destruct Hal1 as [Hc Hal]. apply cursor_catches_up; try assumption.
  apply Hpkt.
Qed.

(** X11. A packet that carries the sequence number of the packet inserted
    just before it is always noticed as a duplicate: after the first call
    the bitmap holds the bit of that number, and the second call raises
    the duplicate flag, or hands it to the report it emits. *)
Theorem repeated_packet_flagged e1 e2 b pkt1 pkt2 :
  pbuf_ok b -> wf_packet pkt1 -> wf_packet pkt2 ->
  Pkt.seq pkt2 = Pkt.seq pkt1 ->
  exists b1 report1 b2 report2,
    pbuf_insert e1 b pkt1 = Some (b1, report1) /\
    seen b1 (Pkt.seq pkt1) = true /\
    pbuf_insert e2 b1 pkt2 = Some (b2, report2) /\
    match report2 with
    | None => dups b2 = true
    | Some r => rep_dups r = true
    end.
Proof.
  intros Hok Hpkt1 Hpkt2 Hsame.
  destruct (pbuf_insert_seen e1 b pkt1 Hok Hpkt1)
    as (b1 & report1 & Hins1 & Hseen & Hok1 & Hal1 & _).
  destruct (pbuf_insert_dups e2 b1 pkt2 Hok1 Hal1 Hpkt2)
    as (b2 & report2 & Hins2 & Hdups).
  exists b1, report1, b2, report2.
  split; [exact Hins1|]. split; [exact Hseen|]. split; [exact Hins2|].
  rewrite Hsame, Hseen in Hdups. simpl in Hdups.
  destruct report2 as [r|]; [apply Hdups|exact Hdups].
Qed.

Lemma repeated_packet_flagged_witness :
  exists b1 report1 b2 report2,
    pbuf_insert {| now := 0; offset_ms := None |} (run (burst 300 0 65400))
      (packet 0 164 false) = Some (b1, report1) /\
    seen b1 (Pkt.seq (packet 0 164 false)) = true /\
    pbuf_insert {| now := 1; offset_ms := None |} b1 (packet 500000 164 true)
      = Some (b2, report2) /\
    match report2 with
    | None => dups b2 = true
    | Some r => rep_dups r = true
    end.
Proof.
  apply repeated_packet_flagged.
  - apply reachable_ok, run_reachable, wf_burst; lia.
  - split; simpl; lia.
  - split; simpl; lia.
  - reflexivity.
Defined.

(** X12. After every call of pbuf_insert the report cursor stands on a
    multiple of 128 within the sequence space and is less than two
    intervals behind the packet just inserted, counted on the 16-bit
    circle: one call flushes all that is due. *)
Theorem cursor_follows_packet e b pkt :
  pbuf_ok b -> wf_packet pkt ->
  exists b' report,
    pbuf_insert e b pkt = Some (b', report) /\
    0 <= last_report_seq b' < 65536 /\
    last_report_seq b' mod 128 = 0 /\
    u16 (Pkt.seq pkt - last_report_seq b') < 256.
Proof.
  intros Hok Hpkt.
  destruct (pbuf_insert_seen e b pkt Hok Hpkt)
    as (b' & report & Hins & _ & _ & [Hc Hal] & Hd).
  exists b', report. auto.
Qed.

Lemma cursor_follows_packet_witness :
  exists b' report,
    pbuf_insert {| now := 0; offset_ms := None |} (run (burst 3 100 65534))
      (packet 100 40000 false) = Some (b', report) /\
    0 <= last_report_seq b' < 65536 /\
    last_report_seq b' mod 128 = 0 /\
    u16 (Pkt.seq (packet 100 40000 false) - last_report_seq b') < 256.
Proof.
  apply cursor_follows_packet.
  - apply reachable_ok, run_reachable, wf_burst; lia.
  - split; simpl; lia.
Defined.

(** ** The reordering flag *)

Lemma testbit_not64 x j :
  0 <= j < 64 -> Z.testbit (not64 x) j = negb (Z.testbit x j).
Proof.
  intros Hj. unfold not64, u64.
  change 18446744073709551616 with (2 ^ 64).
  rewrite Z.mod_pow2_bits_low by lia. apply Z.lnot_spec. lia.
Qed.

Lemma testbit_word_high w j : word_ok w -> 64 <= j -> Z.testbit w j = false.
Proof.
  intros [Hw0 Hw] Hj. destruct (Z.eq_dec w 0) as [->|Hne].
  - apply Z.bits_0.
  - apply Z.bits_above_log2; [lia|].
    assert (Z.log2 w < 64) by (apply Z.log2_lt_pow2; lia). lia.
Qed.

(** The test [(w & ~bit) > bit] of pbuf_insert: some bit of the word
    above the packet's own is set. *)
Lemma higher_bit_test w k :
  word_ok w -> 0 <= k < 64 ->
  (Z.land w (not64 (Z.shiftl 1 k)) >? Z.shiftl 1 k) = true <->
  exists j, k < j < 64 /\ Z.testbit w j = true.
Proof.
  intros Hw Hk. rewrite Z.shiftl_1_l.
  set (w' := Z.land w (not64 (2 ^ k))).
  assert (Hw'0 : 0 <= w').
  { apply Z.land_nonneg. left. apply Hw. }
  assert (Hbits : forall j, 0 <= j < 64 ->
            Z.testbit w' j = Z.testbit w j && negb (k =? j)).
  { intros j Hj. unfold w'.
    rewrite Z.land_spec, testbit_not64, Z.pow2_bits_eqb by lia.
    reflexivity. }
  assert (Hhigh : forall j, 64 <= j -> Z.testbit w' j = false).
  { intros j Hj. unfold w'.
    rewrite Z.land_spec, (testbit_word_high w j Hw Hj). reflexivity. }
  assert (Hpow : 0 < 2 ^ k) by (apply Z.pow_pos_nonneg; lia).
  rewrite Z.gtb_gt. split.
  - intros Hgt.
    assert (Hpos : 0 < w') by lia.
    pose proof (Z.bit_log2 w' Hpos) as Htop.
    pose proof (Z.log2_nonneg w') as Hl0.
    assert (Hl64 : Z.log2 w' < 64).
    { destruct (Z_lt_ge_dec (Z.log2 w') 64) as [|Hge]; [assumption|].
      rewrite Hhigh in Htop by lia. discriminate Htop. }
    assert (Hlk : k <= Z.log2 w').
    { rewrite <- (Z.log2_pow2 k) by lia. apply Z.log2_le_mono. lia. }
    rewrite Hbits in Htop by lia.
    apply andb_true_iff in Htop. destruct Htop as [Hset Hne].
    apply negb_true_iff, Z.eqb_neq in Hne.
    exists (Z.log2 w'). split; [lia|exact Hset].
  - intros (j & Hj & Hset).
    assert (Hset' : Z.testbit w' j = true).
    { rewrite Hbits by lia. rewrite Hset. simpl.
      apply negb_true_iff, Z.eqb_neq. lia. }
    assert (Hge : 2 ^ j <= w').
    { destruct (Z_le_gt_dec (2 ^ j) w') as [|Hlt]; [assumption|].
      rewrite <- (Z.mod_small w' (2 ^ j)) in Hset' by lia.
      rewrite Z.mod_pow2_bits_high in Hset' by lia. discriminate Hset'. }
    assert (Hkj : 2 ^ (k + 1) <= 2 ^ j) by (apply Z.pow_le_mono_r; lia).
    rewrite Z.pow_add_r in Hkj by lia. lia.
Qed.

(** The reordering flag is raised by a packet exactly when a larger
    sequence number of the packet's own 64-bit word has been seen. *)
Lemma stats_mark_reorder b pkt :
  stats_ok b -> wf_packet pkt ->
  out_of_order_pkts (stats_mark b pkt) = true <->
  out_of_order_pkts b = true \/ later_seen b (Pkt.seq pkt).
Proof.
  intros (_ & _ & Hpk & _) [_ Hseq].
  unfold stats_mark, later_seen, seen, number_word_bits. simpl.
  assert (Hk : 0 <= Pkt.seq pkt mod 64 < 64) by (apply Z.mod_pos_bound; lia).
  pose proof (higher_bit_test (word_at (packets b) (Pkt.seq pkt / 64))
                (Pkt.seq pkt mod 64) (word_at_ok _ _ Hpk) Hk) as Htest.
  destruct (Z.land (word_at (packets b) (Pkt.seq pkt / 64))
              (not64 (Z.shiftl 1 (Pkt.seq pkt mod 64)))
            >? Z.shiftl 1 (Pkt.seq pkt mod 64)) eqn:Hcmp.
  - split; [intros _|reflexivity]. right.
    destruct (proj1 Htest eq_refl) as (j & Hj & Hset).
    exists (64 * (Pkt.seq pkt / 64) + j).
    assert (Hdiv : (64 * (Pkt.seq pkt / 64) + j) / 64 = Pkt.seq pkt / 64)
      by (Z.div_mod_to_equations; lia).
    assert (Hmod : (64 * (Pkt.seq pkt / 64) + j) mod 64 = j)
      by (Z.div_mod_to_equations; lia).
    rewrite Hdiv, Hmod.
    repeat split; try assumption; Z.div_mod_to_equations; lia.
  - split; [auto|]. intros [Hold|(s & Hs & Hword & Hlt & Hset)]; [exact Hold|].
    exfalso. rewrite Hword in Hset.
    assert (Hex : exists j, Pkt.seq pkt mod 64 < j < 64 /\
              Z.testbit (word_at (packets b) (Pkt.seq pkt / 64)) j = true).
    { exists (s mod 64). split; [|exact Hset].
      Z.div_mod_to_equations. lia. }
    apply Htest in Hex. discriminate Hex.
Qed.

(** X13. On a buffer whose cursor is set, a call of pbuf_insert raises the
    reordering flag (or hands it to the report it emits, and lowers it)
    exactly when the flag was up already or the bitmap holds a larger
    sequence number of the packet's own 64-bit word: a packet overtaken
    only by packets of other words is not noticed as reordered. *)
Theorem reorder_flag_same_word e b pkt :
  pbuf_ok b -> cursor_aligned b -> wf_packet pkt ->
  exists b' report,
    pbuf_insert e b pkt = Some (b', report) /\
    (match report with
     | None => out_of_order_pkts b'
     | Some r => rep_reordered r
     end = true <->
     out_of_order_pkts b = true \/ later_seen b (Pkt.seq pkt)) /\
    (report <> None -> out_of_order_pkts b' = false).
Proof.
  intros (Hst & Hfr & Hasc) Hal Hpkt.
  unfold pbuf_insert, collect_statistics.
  destruct (stats_init_spec b pkt Hst Hpkt)
    as (b1 & -> & _ & _ & _ & _ & _ & Hsame & _).
  assert (Hb1 : b1 = b) by (apply Hsame; destruct Hal as [Hal _]; lia).
  subst b1.
  destruct (stats_mark_spec b pkt Hst) as (Hok2 & Hs2 & Hc2 & Hl2).
  assert (Hal2 : cursor_aligned (stats_mark b pkt)).
  { unfold cursor_aligned. rewrite Hl2. exact Hal. }
  pose proof (stats_flush_spec (stats_mark b pkt) pkt Hok2 Hal2 Hpkt) as H.
  cbn zeta in H.
  destruct H as (b3 & Hfl & Hok3 & _ & Hs3 & Hf3 & _).
  simpl. rewrite Hfl. simpl.
  assert (Ho3 : out_of_order_pkts b3 = true <->
                out_of_order_pkts b = true \/ later_seen b (Pkt.seq pkt)).
  { apply (f_equal fst) in Hf3. simpl in Hf3. rewrite Hf3.
    apply stats_mark_reorder; assumption. }
  pose proof (stats_report_spec b3 pkt Hok3) as H. cbn zeta in H.
  destruct H as (_ & Hs4 & _).
  assert (Hfr4 : Forall frame_ok (frames (fst (stats_report b3 pkt)))).
  { destruct (store_eq _ _ Hs2) as [F2 _]. destruct (store_eq _ _ Hs3) as [F3 _].
    destruct (store_eq _ _ Hs4) as [F4 _]. rewrite F4, F3, F2. exact Hfr. }
  destruct (insert_frame_ok e _ pkt Hfr4) as (fs & Hins & _).
  unfold stats_report in *.
  destruct (report_due b3 pkt) eqn:Hdue; simpl in *; rewrite Hins; simpl;
    eexists _, _; (split; [reflexivity|]); simpl.
  - split; [exact Ho3|reflexivity].
  - split; [exact Ho3|]. intros Hne. contradiction Hne. reflexivity.
Qed.

Lemma reorder_flag_same_word_witness :
  exists b' report,
    pbuf_insert {| now := 2; offset_ms := None |}
      (run [at_time 0 (packet 0 70 false)]) (packet 0 66 false)
      = Some (b', report) /\
    (match report with
     | None => out_of_order_pkts b'
     | Some r => rep_reordered r
     end = true <->
     out_of_order_pkts (run [at_time 0 (packet 0 70 false)]) = true \/
     later_seen (run [at_time 0 (packet 0 70 false)])
       (Pkt.seq (packet 0 66 false))) /\
    (report <> None -> out_of_order_pkts b' = false).
Proof.
  apply reorder_flag_same_word.
  - apply reachable_ok, run_reachable.
    constructor; [split; simpl; lia|constructor].
  - apply reachable_cursor.
    + apply run_reachable. constructor; [split; simpl; lia|constructor].
    + vm_compute. discriminate.
  - split; simpl; lia.
Defined.

(** ** The first packet *)

Lemma word_at_replicate n i :
  (Z.to_nat i < n)%nat -> word_at (replicate n 0) i = 0.
Proof.
  intros Hi. unfold word_at. rewrite list_lookup_total_alt.
  destruct (replicate n 0 !! Z.to_nat i) as [w|] eqn:E.
  - apply lookup_replicate in E. simpl. tauto.
  - apply lookup_ge_None in E. rewrite length_replicate in E. lia.
Qed.

(** Until the first packet arrives nothing has touched the statistics. *)
Lemma reachable_fresh b :
  reachable b -> last_report_seq b = -1 ->
  packets b = replicate PACKETS_LEN 0 /\
  counters b = (0, 0, 0, 0, 0, 0) /\ flags b = (false, false) /\
  frames b = [].
Proof.
  induction 1 as [|e b pkt b' report Hb IH Hpkt Hins|D f b t user Hb IH
                  |b t Hb IH|b d Hb IH]; intros Hcur.
  - repeat split; reflexivity.
  - destruct (pbuf_insert_ok e b pkt (reachable_ok b Hb) Hpkt)
      as (b2 & r2 & Hins2 & _ & [Hal _] & _).
    rewrite Hins in Hins2. injection Hins2 as <- _. lia.
  - unfold pbuf_decode in *.
    pose proof (decode_from_timestamps f t
      {| stat_received_pkts_cum := received_pkts_cum b;
         stat_expected_pkts_cum := expected_pkts_cum b |}
      (frames b) user) as Hts.
    destruct (decode_from f t _ user (frames b)) as [[ret fs] user'].
    simpl in *. destruct (IH Hcur) as (Hp & Hc & Hf & Hfs).
    unfold counters, flags in *. simpl. repeat split; try assumption.
    rewrite Hfs in Hts. destruct fs; [reflexivity|discriminate Hts].
  - unfold pbuf_remove in *. simpl in *.
    destruct (IH Hcur) as (Hp & Hc & Hf & Hfs).
    unfold counters, flags in *. simpl. repeat split; try assumption.
    rewrite Hfs. reflexivity.
  - simpl in *. destruct (IH Hcur) as (Hp & Hc & Hf & Hfs).
    unfold counters, flags in *. simpl. repeat split; assumption.
Qed.

(** The loop that opens the statistics marks the slots from the start of
    the packet's interval up to the packet. *)
Lemma stats_init_first b pkt :
  last_report_seq b = -1 -> wf_packet pkt ->
  stats_init b pkt =
    Some (iter_u16 (Z.to_nat (Pkt.seq pkt mod 128)) (Pkt.seq pkt / 128 * 128)
            1 mark_slot
            (with_last_report_seq (Pkt.seq pkt / 128 * 128) b)).
Proof.
  intros Hinit [_ Hseq]. unfold stats_init, STATS_INTERVAL.
  rewrite Hinit. simpl (-1 =? -1). cbv iota zeta.
  assert (Hk : 0 <= Pkt.seq pkt mod 128 < 128)
    by (apply Z.mod_pos_bound; lia).
  assert (Hal : 0 <= Pkt.seq pkt / 128 * 128 < 65536)
    by (Z.div_mod_to_equations; lia).
  simpl last_report_seq.
  rewrite (u16_small (Pkt.seq pkt / 128 * 128)) by exact Hal.
  apply (for_u16_iter mark_slot 1 (Pkt.seq pkt) ltac:(lia)
           (Z.to_nat (Pkt.seq pkt mod 128))).
  - exact Hal.
  - lia.
  - rewrite Z2Nat.id by lia. unfold u16.
    rewrite Z.mod_small; Z.div_mod_to_equations; lia.
  - unfold U16_ROUNDS. lia.
Qed.

Lemma stats_mark_dups b pkt :
  wf_packet pkt ->
  dups (stats_mark b pkt) = seen b (Pkt.seq pkt) || dups b.
Proof.
  intros [_ Hseq]. unfold stats_mark, seen. simpl.
  rewrite (testbit_land_bit _ (Pkt.seq pkt mod number_word_bits))
    by (apply Z.mod_pos_bound; unfold number_word_bits; lia).
  destruct (Z.testbit _ _); reflexivity.
Qed.

(** X14. The first packet a buffer ever sees, whatever calls of the other
    functions came before it, sets the report cursor to the start of the
    packet's interval of 128 sequence numbers and marks as received the
    sequence numbers from the cursor up to the packet, and no other: what
    lies before the first packet in its interval is never counted as lost.
    The call logs no report, leaves the counters at 0 and both flags down,
    and the buffer holds the one frame made for the packet. *)
Theorem first_packet_opens_statistics e b pkt :
  reachable b -> last_report_seq b = -1 -> wf_packet pkt ->
  exists b',
    pbuf_insert e b pkt = Some (b', None) /\
    last_report_seq b' = Pkt.seq pkt / 128 * 128 /\
    (forall s, 0 <= s < 65536 ->
       seen b' s = (last_report_seq b' <=? s) && (s <=? Pkt.seq pkt)) /\
    counters b' = (0, 0, 0, 0, 0, 0) /\ flags b' = (false, false) /\
    frames b' = [create_new_pnode (now e) pkt (frame_delay_us e b)].
Proof.
  intros Hb Hcur Hpkt.
  destruct (reachable_fresh b Hb Hcur) as (Hpk & Hcnt & Hfl & Hfs).
  destruct (reachable_ok b Hb) as ((_ & Hlen & _) & _).
  pose proof Hpkt as [_ Hseq].
  assert (Hk : 0 <= Pkt.seq pkt mod 128 < 128)
    by (apply Z.mod_pos_bound; lia).
  assert (Hal : 0 <= Pkt.seq pkt / 128 * 128 < 65536)
    by (Z.div_mod_to_equations; lia).
  assert (Hsum : Pkt.seq pkt / 128 * 128 + Pkt.seq pkt mod 128 = Pkt.seq pkt)
    by (Z.div_mod_to_equations; lia).
  set (c := Pkt.seq pkt / 128 * 128) in *.
  set (b0 := with_last_report_seq c b).
  set (b1 := iter_u16 (Z.to_nat (Pkt.seq pkt mod 128)) c 1 mark_slot b0).
  pose proof (iter_mark_slot (Z.to_nat (Pkt.seq pkt mod 128)) c b0) as H.
  cbn zeta in H. fold b1 in H. destruct H as (Hs1 & Hc1 & Hf1 & Hl1 & Hlen1 & _).
  assert (Hseen1 : forall s, 0 <= s < 65536 ->
            seen b1 s = (c <=? s) && (s <? Pkt.seq pkt)).
  { intros s Hs. unfold b1.
    rewrite seen_iter_mark_slot; [|exact Hlen|exact Hal|lia|exact Hs].
    rewrite Z2Nat.id, Hsum by lia.
    unfold seen, b0. simpl packets. rewrite Hpk, word_at_replicate.
    - rewrite Z.bits_0. reflexivity.
    - unfold PACKETS_LEN, number_word_bits.
      apply Nat2Z.inj_lt. rewrite Z2Nat.id by (Z.div_mod_to_equations; lia).
      Z.div_mod_to_equations. lia. }
  set (b2 := stats_mark b1 pkt).
  assert (Hlen1' : length (packets b1) = PACKETS_LEN)
    by (rewrite Hlen1; exact Hlen).
  assert (Hst1 : stats_ok b1).
  { destruct (stats_init_spec b pkt) as (x & Hx & Hok & _);
      [apply (reachable_ok b Hb)|exact Hpkt|].
    rewrite (stats_init_first b pkt Hcur Hpkt) in Hx.
    injection Hx as <-. exact Hok. }
  assert (Hseen2 : forall s, 0 <= s < 65536 ->
            seen b2 s = (c <=? s) && (s <=? Pkt.seq pkt)).
  { intros s Hs. unfold b2.
    rewrite seen_stats_mark, Hseen1 by assumption.
    destruct (Z.leb_spec c s); destruct (Z.ltb_spec s (Pkt.seq pkt));
      destruct (Z.eqb_spec s (Pkt.seq pkt));
      destruct (Z.leb_spec s (Pkt.seq pkt)); simpl; try reflexivity; lia. }
  assert (Hflags1 : out_of_order_pkts b1 = false /\ dups b1 = false).
  { unfold flags in Hf1, Hfl. unfold b0 in Hf1. simpl in Hf1.
    rewrite Hfl in Hf1. injection Hf1 as -> ->. auto. }
  destruct Hflags1 as [Ho1 Hd1].
  assert (Hd2 : dups b2 = false).
  { unfold b2. rewrite stats_mark_dups, Hseen1, Hd1 by assumption.
    rewrite Z.ltb_irrefl, andb_false_r. reflexivity. }
  assert (Ho2 : out_of_order_pkts b2 = false).
  { destruct (out_of_order_pkts b2) eqn:E; [|reflexivity]. exfalso.
    apply (stats_mark_reorder b1 pkt Hst1 Hpkt) in E.
    destruct E as [E|(s & Hs & _ & Hlt & Hset)]; [congruence|].
    rewrite Hseen1 in Hset by exact Hs.
    apply andb_true_iff in Hset. destruct Hset as [_ Hset].
    apply Z.ltb_lt in Hset. lia. }
  assert (Hcnt2 : counters b2 = (0, 0, 0, 0, 0, 0)).
  { unfold b2. destruct (stats_mark_spec b1 pkt Hst1) as (_ & _ & -> & _).
    rewrite Hc1. exact Hcnt. }
  assert (Hl2 : last_report_seq b2 = c) by (unfold b2; simpl; exact Hl1).
  assert (Hfs2 : frames b2 = [] /\ playout_delay_us b2 = playout_delay_us b).
  { unfold b2. simpl. destruct (store_eq _ _ Hs1) as [-> ->].
    unfold b0. simpl. auto. }
  destruct Hfs2 as [Hfs2 Hdel2].
  assert (Hdue : flush_due b2 pkt = false).
  { unfold flush_due, STATS_INTERVAL. rewrite Hl2.
    rewrite Z.geb_leb. apply Z.leb_gt. unfold u16.
    rewrite Z.mod_small by lia. lia. }
  assert (Hrep : report_due b2 pkt = false).
  { assert (He2 : expected_pkts b2 = 0)
      by (unfold counters in Hcnt2; congruence).
    unfold report_due. rewrite He2. apply andb_false_r. }
  exists (with_frames [create_new_pnode (now e) pkt (frame_delay_us e b)] b2).
  split.
  - unfold pbuf_insert, collect_statistics.
    rewrite (stats_init_first b pkt Hcur Hpkt). fold c b0 b1. simpl.
    fold b2. unfold stats_flush. rewrite Hdue. simpl.
    unfold stats_report. rewrite Hrep. simpl.
    unfold insert_frame. rewrite Hfs2. simpl.
    unfold frame_delay_us. rewrite Hdel2. reflexivity.
  - split; [exact Hl2|]. split.
    + intros s Hs.
      change (seen b2 s = (last_report_seq b2 <=? s) && (s <=? Pkt.seq pkt)).
      rewrite Hl2. exact (Hseen2 s Hs).
    + split; [exact Hcnt2|]. split; [|reflexivity].
      change (flags b2 = (false, false)).
      unfold flags. rewrite Ho2, Hd2. reflexivity.
Qed.

Lemma first_packet_opens_statistics_witness :
  exists b',
    pbuf_insert {| now := 5; offset_ms := Some 3 |}
      (pbuf_remove (pbuf_set_playout_delay pbuf_init 1%float) 7)
      (packet 90000 300 true) = Some (b', None) /\
    last_report_seq b' = Pkt.seq (packet 90000 300 true) / 128 * 128 /\
    (forall s, 0 <= s < 65536 ->
       seen b' s = (last_report_seq b' <=? s)
                   && (s <=? Pkt.seq (packet 90000 300 true))) /\
    counters b' = (0, 0, 0, 0, 0, 0) /\ flags b' = (false, false) /\
    frames b' = [create_new_pnode
                   (now {| now := 5; offset_ms := Some 3 |})
                   (packet 90000 300 true)
                   (frame_delay_us {| now := 5; offset_ms := Some 3 |}
                      (pbuf_remove (pbuf_set_playout_delay pbuf_init 1%float)
                         7))].
Proof.
  apply first_packet_opens_statistics.
  - apply reach_remove, reach_set_playout_delay, reach_init.
  - reflexivity.
  - split; simpl; lia.
Defined.

(** ** What a report can say *)

(** X15. A report logged by pbuf_insert, in whatever state the buffer
    was, names the source of the packet, counts a positive whole number
    of 64-bit words of expected packets (so the percentage it prints
    never divides by 0) and a longest run of lost packets between 0 and
    64, and the call leaves the window counters at 0, both flags down and
    the report clock at the packet's timestamp. When the buffer was
    reached without wrapping a counter and the call wraps none, the
    report shows no more received packets than expected ones, as lost
    their difference, and a longest run of lost packets that is at most
    the number of packets lost. *)
Theorem report_is_sound e b pkt b' r :
  reachable b -> wf_packet pkt ->
  pbuf_insert e b pkt = Some (b', Some r) ->
  rep_ssrc r = Pkt.ssrc pkt /\
  0 < rep_expected r /\ rep_expected r mod 64 = 0 /\
  rep_lost r = i32 (rep_expected r - rep_received r) /\
  0 <= rep_max_loss r <= 64 /\
  received_pkts b' = 0 /\ expected_pkts b' = 0 /\ longest_gap b' = 0 /\
  flags b' = (false, false) /\ last_display_ts b' = Pkt.ts pkt /\
  (in_range b -> fits b pkt ->
   0 <= rep_received r <= rep_expected r /\
   rep_lost r = rep_expected r - rep_received r /\
   rep_max_loss r <= rep_lost r).
Proof.
  intros Hb Hpkt Hins.
  pose proof (reachable_ok b Hb) as Hok. pose proof Hok as (Hst & _).
  split; [|split; [|split; [|split; [|split; [|split; [|split; [|split;
    [|split; [|split]]]]]]]]].
  11: { intros Hrange Hfit.
        destruct (in_range_ok b Hrange) as [_ Hcnt].
        destruct (insert_keeps_counters_ok e b pkt b' (Some r) Hok Hcnt Hpkt
                    Hfit Hins) as (_ & _ & _ & Hr). lia. }
  all: destruct (pbuf_insert_after_init e b pkt Hst Hpkt)
         as (b1 & _ & Heq & Hst1 & Hal1 & _);
       rewrite Heq in Hins;
       pose proof (collect_statistics_exact b1 pkt Hst1 Hal1 Hpkt) as H;
       cbn zeta in H;
       destruct H as (b3 & Hcs & Hst3 & _);
       unfold pbuf_insert in Hins; rewrite Hcs in Hins;
       unfold stats_report in Hins;
       destruct (report_due b3 pkt) eqn:Hdue; simpl in Hins;
       [|destruct (insert_frame e b3 pkt); discriminate Hins];
       (destruct (insert_frame e _ pkt) as [fs|]; [|discriminate Hins]);
       simpl in Hins; injection Hins as <- <-; simpl;
       destruct Hst3 as (_ & _ & _ & Hlg & Hw64);
       unfold report_due in Hdue; apply andb_true_iff in Hdue;
       destruct Hdue as [_ Hexp]; apply Z.gtb_gt in Hexp;
       unfold number_word_bits in Hw64;
       first [reflexivity|assumption|lia].
Qed.

Lemma report_is_sound_witness :
  exists b' r,
    pbuf_insert {| now := 1; offset_ms := None |} (run (burst 300 0 65400))
      (packet 500000 164 true) = Some (b', Some r) /\
    (in_range (run (burst 300 0 65400)) /\
     fits (run (burst 300 0 65400)) (packet 500000 164 true)) /\
    rep_ssrc r = Pkt.ssrc (packet 500000 164 true) /\
    0 < rep_expected r /\ rep_expected r mod 64 = 0 /\
    rep_lost r = i32 (rep_expected r - rep_received r) /\
    0 <= rep_max_loss r <= 64 /\
    received_pkts b' = 0 /\ expected_pkts b' = 0 /\ longest_gap b' = 0 /\
    flags b' = (false, false) /\
    last_display_ts b' = Pkt.ts (packet 500000 164 true) /\
    (in_range (run (burst 300 0 65400)) ->
     fits (run (burst 300 0 65400)) (packet 500000 164 true) ->
     0 <= rep_received r <= rep_expected r /\
     rep_lost r = rep_expected r - rep_received r /\
     rep_max_loss r <= rep_lost r).
Proof.
  eexists _, _. split.
  - vm_compute. reflexivity.
  - split.
    + split.
      * apply run_in_range; [apply wf_burst; lia|].
        vm_compute. repeat split; intros; congruence.
      * vm_compute. repeat split; intros; congruence.
    + apply (report_is_sound {| now := 1; offset_ms := None |}
               (run (burst 300 0 65400)) (packet 500000 164 true)).
      * apply run_reachable, wf_burst; lia.
      * split; simpl; lia.
      * vm_compute. reflexivity.
Defined.

(** ** pbuf_destroy *)

Lemma free_cdata_data cd : free_cdata cd = map data cd.
Proof. induction cd as [|c cd IH]; simpl; [reflexivity|]. rewrite IH. reflexivity. Qed.

Lemma destroy_from_held fs :
  destroy_from fs = concat (map (fun node => map data (cdata node)) fs).
Proof.
  induction fs as [|node fs IH]; simpl; [reflexivity|].
  rewrite IH, free_cdata_data. reflexivity.
Qed.

(** X16. pbuf_destroy on a buffer in any state it can reach frees each
    packet the buffer holds once, in the order of the frames, and logs
    its summary line, with the two cumulative counters, exactly when the
    cumulative count of received packets is not 0. When the buffer was
    reached without wrapping a counter, the line shows a positive count of
    received packets that is no more than the count of expected ones, so
    its percentage divides by a positive number and is never above 100. *)
Theorem pbuf_destroy_summary b :
  reachable b ->
  snd (pbuf_destroy (Some b)) = held_packets b /\
  match fst (pbuf_destroy (Some b)) with
  | None => received_pkts_cum b = 0
  | Some (received, expected) =>
      received_pkts_cum b <> 0 /\
      received = received_pkts_cum b /\ expected = expected_pkts_cum b /\
      (in_range b -> 0 < received <= expected)
  end.
Proof.
  intros Hb.
  unfold pbuf_destroy, held_packets. simpl. split; [apply destroy_from_held|].
  destruct (Z.eqb_spec (received_pkts_cum b) 0) as [Hz|Hnz]; [exact Hz|].
  split; [exact Hnz|]. split; [reflexivity|]. split; [reflexivity|].
  intros Hrange.
  destruct (in_range_ok b Hrange) as [_ (_ & _ & Hcum & _)]. lia.
Qed.

Lemma pbuf_destroy_summary_witness :
  (in_range (run (burst 300 0 65400)) /\
   fst (pbuf_destroy (Some (run (burst 300 0 65400)))) = Some (384, 384)) /\
  snd (pbuf_destroy (Some (run (burst 300 0 65400))))
    = held_packets (run (burst 300 0 65400)) /\
  match fst (pbuf_destroy (Some (run (burst 300 0 65400)))) with
  | None => received_pkts_cum (run (burst 300 0 65400)) = 0
  | Some (received, expected) =>
      received_pkts_cum (run (burst 300 0 65400)) <> 0 /\
      received = received_pkts_cum (run (burst 300 0 65400)) /\
      expected = expected_pkts_cum (run (burst 300 0 65400)) /\
      (in_range (run (burst 300 0 65400)) -> 0 < received <= expected)
  end.
Proof.
  split.
  - split.
    + apply run_in_range; [apply wf_burst; lia|].
      vm_compute. repeat split; intros; congruence.
    + vm_compute. reflexivity.
  - apply pbuf_destroy_summary. apply run_reachable, wf_burst; lia.
Defined.
